(** * CausalLift: two-model uplift estimation and recommendation impact

    A shallow embedding of [src/causallift/causal_lift.py] (class
    [CausalLift]) and the properties its specification states about it.

    Conventions of the embedding.
    - Python floats are modelled by [Float.fnum]: rationals for the finite
      values, plus the two infinities and NaN, with the IEEE-754 rules for
      the special values.  Every arithmetic operation rounds its exact
      result ([Float.Rounding]); the properties hold for every rounding that
      obeys the laws of round-to-nearest, and [Binary64] is the one of
      Python's floats.  The exponent range is taken as unbounded (no
      overflow, no underflow) and the sign of zero is left out.
    - pandas objects that the session shares or updates in place live in a
      store ([heap]) and are passed by reference ([loc]); collaborator code
      that is not part of [causal_lift.py] is a parameter of [Section
      Session].
    - Python exceptions are values of [exn]; code is a function in the
      state-and-error monad [M].  A method that raises leaves the session
      with the attributes it has assigned before the raise: its result is
      then the exception together with that session ([Method]). *)

From Stdlib Require Import ZArith QArith Qabs Qround Qminmax Qpower Lqa Lia
  List Bool.
From stdpp Require Import gmap strings list fin_maps.

Local Open Scope string_scope.
Local Open Scope list_scope.

(** ** Floating-point values *)

Module Float.

Local Open Scope Q_scope.

Inductive fnum : Type :=
| Fin (q : Q)          (* a finite value *)
| Inf (neg : bool)     (* +inf (neg = false) or -inf (neg = true) *)
| NaN.

Definition Qlt_bool (a b : Q) : bool := negb (Qle_bool b a).

Definition Qneg (a : Q) : bool := Qlt_bool a 0.

Definition fopp (x : fnum) : fnum :=
  match x with
  | Fin a => Fin (- a)
  | Inf s => Inf (negb s)
  | NaN => NaN
  end.

(** The rounding of an exact result to a float, with the laws of
    round-to-nearest that the properties below rest on: it is monotone, it
    leaves a float as it is, its relative error is at most the unit
    roundoff (2^-53 for Python's floats), and the quotient of two floats
    [0 < a < b] never rounds up to 1 (such a quotient is at most
    [1 - unit_roundoff], which is a float). *)
Class Rounding : Type :=
  { rnd : Q -> Q;
    unit_roundoff : Q;
    rnd_proper : forall x y, x == y -> rnd x == rnd y;
    rnd_monotone : forall x y, x <= y -> rnd x <= rnd y;
    rnd_idempotent : forall x, rnd (rnd x) == rnd x;
    rnd_one : rnd 1 == 1;
    rnd_error : forall x, Qabs (rnd x - x) <= unit_roundoff * Qabs x;
    rnd_quotient :
      forall a b, rnd a == a -> rnd b == b -> 0 < a -> a < b -> rnd (a / b) < 1;
    unit_roundoff_range : 0 <= unit_roundoff /\ unit_roundoff <= 1 # 16 }.

Section Arithmetic.

Context `{R : Rounding}.

Definition fadd (x y : fnum) : fnum :=
  match x, y with
  | NaN, _ | _, NaN => NaN
  | Fin a, Fin b => Fin (rnd (a + b))
  | Fin _, Inf s | Inf s, Fin _ => Inf s
  | Inf s, Inf t => if Bool.eqb s t then Inf s else NaN
  end.

Definition fsub (x y : fnum) : fnum := fadd x (fopp y).

Definition fmul (x y : fnum) : fnum :=
  match x, y with
  | NaN, _ | _, NaN => NaN
  | Fin a, Fin b => Fin (rnd (a * b))
  | Fin a, Inf s | Inf s, Fin a =>
      if Qeq_bool a 0 then NaN else Inf (xorb s (Qneg a))
  | Inf s, Inf t => Inf (xorb s t)
  end.

(** Division never raises on floats held in numpy arrays or pandas columns:
    [x / 0] is an infinity for [x <> 0] and NaN for [x = 0]. *)
Definition fdiv (x y : fnum) : fnum :=
  match x, y with
  | NaN, _ | _, NaN => NaN
  | Fin a, Fin b =>
      if Qeq_bool b 0
      then (if Qeq_bool a 0 then NaN else Inf (Qneg a))
      else Fin (rnd (a / b))
  | Fin _, Inf _ => Fin 0
  | Inf s, Fin b => Inf (xorb s (Qneg b))
  | Inf _, Inf _ => NaN
  end.

End Arithmetic.

(** Comparisons; every comparison with NaN is false. *)
Definition fle (x y : fnum) : bool :=
  match x, y with
  | NaN, _ | _, NaN => false
  | Fin a, Fin b => Qle_bool a b
  | Inf true, _ => true
  | _, Inf false => true
  | Inf false, _ => false
  | _, Inf true => false
  end.

Definition feq (x y : fnum) : bool :=
  match x, y with
  | Fin a, Fin b => Qeq_bool a b
  | Inf s, Inf t => Bool.eqb s t
  | _, _ => false
  end.

Definition flt (x y : fnum) : bool := fle x y && negb (feq x y).

Definition is_nan (x : fnum) : bool :=
  match x with NaN => true | _ => false end.

Definition is_finite (x : fnum) : bool :=
  match x with Fin _ => true | _ => false end.

(** Python truthiness of a float: [bool(x)] is [x != 0]; NaN is truthy. *)
Definition truthy (x : fnum) : bool :=
  match x with
  | Fin a => negb (Qeq_bool a 0)
  | _ => true
  end.

(** The float of a row count or a rank; exact below 2^53. *)
Definition of_nat (n : nat) : fnum := Fin (inject_Z (Z.of_nat n)).

Definition one : fnum := Fin 1.
Definition zero : fnum := Fin 0.

End Float.

Import Float.

(** ** The fragment of pandas and numpy used by [causal_lift.py] *)

Module Pandas.

(** Python exceptions.  [Collaborator] stands for whatever a collaborator
    function raises; the session never catches it.  [Unmodelled] marks pandas
    behaviour that this model does not describe (re-indexing on assignment of
    differently indexed data); [DanglingReference] is a reference without an
    object in the store, which Python cannot produce. *)
Inductive exn : Type :=
| AssertionError
| KeyError (k : string)
| ValueError (msg : string)
| Collaborator (e : string)
| Unmodelled (what : string)
| DanglingReference.

(** Index labels: positions of a [RangeIndex], plain keys, and the entries
    [(key, position)] of a two-level index. *)
Inductive label : Type :=
| Pos (i : nat)
| Key (k : string)
| Tagged (k : string) (i : nat).

#[global] Instance label_eq_dec : EqDecision label.
Proof. solve_decision. Defined.

Definition RangeIndex (n : nat) : list label := map Pos (seq 0 n).

Record Series : Type := { s_index : list label; s_values : list fnum }.

(** A table with a one-level index.  Columns are kept in order, by name. *)
Record Table : Type :=
  { t_index : list label; t_columns : list (string * list fnum) }.

Inductive partition : Type := train | test.

(** A [pd.DataFrame]: either a table with a one-level index, or the combined
    table whose index is [(partition, position)], kept as its two
    partitions ('train' rows first, 'test' rows after them). *)
Inductive DataFrame : Type :=
| Flat (t : Table)
| Partitioned (tr te : Table).

(** A [pd.Series] taken from a [DataFrame]. *)
Inductive ColumnSeries : Type :=
| SFlat (s : Series)
| SPart (tr te : Series).

Definition nrows (t : Table) : nat := length (t_index t).

Definition columns (t : Table) : list string := map fst (t_columns t).

Fixpoint lookup_col (c : string) (cols : list (string * list fnum))
  : option (list fnum) :=
  match cols with
  | [] => None
  | (k, v) :: rest => if decide (k = c) then Some v else lookup_col c rest
  end.

(** Writing a column replaces the column of that name, or appends a new one. *)
Fixpoint store_col (c : string) (v : list fnum)
  (cols : list (string * list fnum)) : list (string * list fnum) :=
  match cols with
  | [] => [(c, v)]
  | (k, w) :: rest =>
      if decide (k = c) then (c, v) :: rest else (k, w) :: store_col c v rest
  end.

(** [t[c]] *)
Definition getitem (t : Table) (c : string) : exn + Series :=
  match lookup_col c (t_columns t) with
  | Some v => inr {| s_index := t_index t; s_values := v |}
  | None => inl (KeyError c)
  end.

(** [t.loc[:, c] = values] for an array of values: positional, and a
    [ValueError] when the lengths differ. *)
Definition set_values (t : Table) (c : string) (v : list fnum) : exn + Table :=
  if decide (length v = nrows t)
  then inr {| t_index := t_index t; t_columns := store_col c v (t_columns t) |}
  else inl (ValueError "Length of values does not match length of index").

(** [t.reset_index(drop=True)]: the index becomes [0 .. n-1]. *)
Definition reset_index (t : Table) : Table :=
  {| t_index := RangeIndex (nrows t); t_columns := t_columns t |}.

(** Rows of [te] appended below the rows of [tr], column by column; a column
    that [te] lacks is filled with NaN. *)
Definition vstack (tr te : Table) : Table :=
  {| t_index := t_index tr ++ t_index te;
     t_columns :=
       map (fun '(c, v) =>
              (c, v ++ match lookup_col c (t_columns te) with
                       | Some w => w
                       | None => repeat NaN (nrows te)
                       end))
           (t_columns tr) |}.

Definition df_columns (df : DataFrame) : list string :=
  match df with
  | Flat t => columns t
  | Partitioned tr _ => columns tr
  end.

Definition df_nrows (df : DataFrame) : nat :=
  match df with
  | Flat t => nrows t
  | Partitioned tr te => nrows tr + nrows te
  end.

(** [df.reset_index(drop=True)] always yields a one-level [RangeIndex]. *)
Definition df_reset_index (df : DataFrame) : Table :=
  match df with
  | Flat t => reset_index t
  | Partitioned tr te => reset_index (vstack tr te)
  end.

(** [df.xs(p)] selects one partition of a combined table; on a one-level
    index the key is not found.  (For a partition without rows pandas does
    not find the key either; here the result is the table without rows.) *)
Definition partition_key (p : partition) : string :=
  match p with train => "train" | test => "test" end.

Definition xs (p : partition) (df : DataFrame) : exn + Table :=
  match df, p with
  | Partitioned tr _, train => inr tr
  | Partitioned _ te, test => inr te
  | Flat _, _ => inl (KeyError (partition_key p))
  end.

(** [df[c]] *)
Definition df_getitem (df : DataFrame) (c : string) : exn + ColumnSeries :=
  match df with
  | Flat t =>
      match getitem t c with inr s => inr (SFlat s) | inl e => inl e end
  | Partitioned tr te =>
      match getitem tr c, getitem te c with
      | inr a, inr b => inr (SPart a b)
      | inl e, _ | _, inl e => inl e
      end
  end.

(** [series.xs(p)] *)
Definition series_xs (p : partition) (s : ColumnSeries) : exn + Series :=
  match s, p with
  | SPart a _, train => inr a
  | SPart _ b, test => inr b
  | SFlat _, _ => inl (KeyError (partition_key p))
  end.

(** [df.loc[:, c] = values] for an array covering all rows: the first
    [nrows tr] values go to the 'train' rows, the remaining ones to 'test'. *)
Definition df_set_values (df : DataFrame) (c : string) (v : list fnum)
  : exn + DataFrame :=
  match df with
  | Flat t =>
      match set_values t c v with inr t' => inr (Flat t') | inl e => inl e end
  | Partitioned tr te =>
      if decide (length v = nrows tr + nrows te)
      then match set_values tr c (firstn (nrows tr) v),
                 set_values te c (skipn (nrows tr) v) with
           | inr tr', inr te' => inr (Partitioned tr' te')
           | inl e, _ | _, inl e => inl e
           end
      else inl (ValueError "Length of values does not match length of index")
  end.

(** Arithmetic on two series aligns them on their index.  When both carry
    the same index this is the element-wise operation. *)
Definition series_binop (op : fnum -> fnum -> fnum) (a b : Series)
  : exn + Series :=
  if decide (s_index a = s_index b)
  then inr {| s_index := s_index a;
              s_values := zip_with op (s_values a) (s_values b) |}
  else inl (Unmodelled "arithmetic on differently indexed series").

(** [t[c] = series]: an empty [pd.DataFrame()] adopts the index of the first
    series stored in it; otherwise the series is aligned on the index. *)
Definition setitem_series (t : Table) (c : string) (s : Series) : exn + Table :=
  match t_index t, t_columns t with
  | [], [] => inr {| t_index := s_index s; t_columns := [(c, s_values s)] |}
  | _, _ =>
      if decide (s_index s = t_index t)
      then set_values t c (s_values s)
      else inl (Unmodelled "assignment of a differently indexed series")
  end.

(** [df.loc[:, c] = series] for a series with the two-level index. *)
Definition df_set_series (df : DataFrame) (c : string) (s : ColumnSeries)
  : exn + DataFrame :=
  match df, s with
  | Partitioned tr te, SPart a b =>
      if decide (s_index a = t_index tr /\ s_index b = t_index te)
      then match set_values tr c (s_values a), set_values te c (s_values b) with
           | inr tr', inr te' => inr (Partitioned tr' te')
           | inl e, _ | _, inl e => inl e
           end
      else inl (Unmodelled "assignment of a differently indexed series")
  | Flat t, SFlat a =>
      match setitem_series t c a with
      | inr t' => inr (Flat t')
      | inl e => inl e
      end
  | _, _ => inl (Unmodelled "assignment of a differently indexed series")
  end.

(** *** [Series.rank(method='first', ascending=False, pct=True)] *)

Fixpoint countb {A : Type} (p : A -> bool) (l : list A) : nat :=
  match l with
  | [] => 0
  | x :: rest => (if p x then 1 else 0) + countb p rest
  end.

(** Row [j] is ranked before row [i]: its value is larger, or the values
    are equal and [j] comes first. *)
Definition precedes (v : list fnum) (j i : nat) : bool :=
  flt (nth i v NaN) (nth j v NaN)
  || (feq (nth j v NaN) (nth i v NaN) && Nat.ltb j i).

(** The rank of row [i], counted from 1: one more than the number of rows
    ranked before it. *)
Definition rank_number (v : list fnum) (i : nat) : nat :=
  S (countb (fun j => precedes v j i) (seq 0 (length v))).

(** NaN values are not ranked ([na_option='keep']). *)
Definition rank_at (v : list fnum) (i : nat) : option nat :=
  if is_nan (nth i v NaN) then None else Some (rank_number v i).

Definition rank_first_descending (v : list fnum) : list (option nat) :=
  map (rank_at v) (seq 0 (length v)).

Definition count_valid (v : list fnum) : nat :=
  countb (fun x => negb (is_nan x)) v.

Section Percentile.

Context `{R : Rounding}.

(** With [pct=True] a rank is divided by the number of ranked values. *)
Definition pct_of (n : nat) (r : option nat) : fnum :=
  match r with
  | Some k => fdiv (of_nat k) (of_nat n)
  | None => NaN
  end.

Definition rank (s : Series) : Series :=
  {| s_index := s_index s;
     s_values := map (pct_of (count_valid (s_values s)))
                     (rank_first_descending (s_values s)) |}.

End Percentile.

(** [np.where(cond, a, b)] for scalars [a] and [b]. *)
Definition np_where (cond : list bool) (a b : fnum) : list fnum :=
  map (fun c : bool => if c then a else b) cond.

(** [series <= x] *)
Definition series_le (s : Series) (x : fnum) : list bool :=
  map (fun r => fle r x) (s_values s).

End Pandas.

Import Pandas.

(** ** The store, the call log and the method monad *)

Definition loc : Type := positive.

(** What a Python name can refer to: a [pd.DataFrame], or any other object. *)
Inductive pyobj : Type :=
| PyDataFrame (d : DataFrame)
| PyOther (repr : string).

Inductive arm : Type := Treated | Untreated.

(** Calls that leave [causal_lift.py], in the order they are made. *)
Inductive call : Type :=
| call_get_cols_features
| call_estimate_propensity (train_ref test_ref : loc)
| call_concat_train_test_df
| call_fit (a : arm)
| call_treatment_fractions_
| call_predict_proba (a : arm)
| call_simulate_recommendation (a : arm).

Record world : Type := { heap : gmap loc pyobj; calls : list call }.

(** Code that runs on the store and either returns a value or raises;
    [E] is what a raise carries. *)
Definition ME (E A : Type) : Type := world -> (E + A) * world.

(** Functions and the constructor raise an exception. *)
Definition M (A : Type) : Type := ME exn A.

Definition ret {E A : Type} (a : A) : ME E A := fun w => (inr a, w).

Definition raise {E A : Type} (e : E) : ME E A := fun w => (inl e, w).

Definition bind {E A B : Type} (m : ME E A) (k : A -> ME E B) : ME E B :=
  fun w =>
    match m w with
    | (inr a, w') => k a w'
    | (inl e, w') => (inl e, w')
    end.

Notation "'let*' x ':=' c1 'in' c2" := (bind c1 (fun x => c2))
  (at level 10, x name, c1 at level 100, c2 at level 200).

Definition lift {A : Type} (r : exn + A) : M A := fun w => (r, w).

Definition deref (l : loc) : M pyobj :=
  fun w =>
    match heap w !! l with
    | Some o => (inr o, w)
    | None => (inl DanglingReference, w)
    end.

(** A new object gets a reference that no object of the store has. *)
Definition alloc (o : pyobj) : M loc :=
  fun w =>
    let l := fresh (dom (heap w)) in
    (inr l, {| heap := <[l := o]> (heap w); calls := calls w |}).

(** In-place update of the object behind a reference. *)
Definition store (l : loc) (o : pyobj) : M unit :=
  fun w => (inr tt, {| heap := <[l := o]> (heap w); calls := calls w |}).

Definition log (c : call) : M unit :=
  fun w => (inr tt, {| heap := heap w; calls := calls w ++ [c] |}).

(** A reference that must hold a [pd.DataFrame] ([self.df]). *)
Definition deref_df (l : loc) : M DataFrame :=
  let* o := deref l in
  match o with
  | PyDataFrame d => ret d
  | PyOther _ => raise (Unmodelled "attribute is not a DataFrame")
  end.

(** A step of a method of an object [s]: when the step raises, the
    exception leaves the method, and the caller is left with the object as
    the statements before it have made it. *)
Definition during {S A : Type} (s : S) (m : M A) : ME (exn * S) A :=
  fun w =>
    match m w with
    | (inr a, w') => (inr a, w')
    | (inl e, w') => (inl (e, s), w')
    end.

(** Bind of the error monad [exn + _], for code that touches no store. *)
Definition ebind {A B : Type} (r : exn + A) (k : A -> exn + B) : exn + B :=
  match r with
  | inr a => k a
  | inl e => inl e
  end.

Notation "'let?' x ':=' c1 'in' c2" := (ebind c1 (fun x => c2))
  (at level 10, x name, c1 at level 100, c2 at level 200).

(** ** Construction options *)

Definition grid : Type := list (string * list string).

Record Args : Type :=
  { cols_features : option (list string);
    col_treatment : string;
    col_outcome : string;
    col_propensity : string;
    col_cate : string;
    col_recommendation : string;
    min_propensity : fnum;
    max_propensity : fnum;
    random_state : Z;
    verbose : Z;
    uplift_model_params : grid;
    enable_ipw : bool;
    propensity_model_params : grid;
    cv : Z }.

Definition default_args : Args :=
  {| cols_features := None;
     col_treatment := "Treatment";
     col_outcome := "Outcome";
     col_propensity := "Propensity";
     col_cate := "CATE";
     col_recommendation := "Recommendation";
     min_propensity := Fin (1 # 100);
     max_propensity := Fin (99 # 100);
     random_state := 0;
     verbose := 2;
     uplift_model_params :=
       [("max_depth", ["3"]); ("learning_rate", ["0.1"]);
        ("n_estimators", ["100"]); ("silent", ["True"]);
        ("objective", ["binary:logistic"]); ("booster", ["gbtree"]);
        ("n_jobs", ["-1"]); ("nthread", ["None"]); ("gamma", ["0"]);
        ("min_child_weight", ["1"]); ("max_delta_step", ["0"]);
        ("subsample", ["1"]); ("colsample_bytree", ["1"]);
        ("colsample_bylevel", ["1"]); ("reg_alpha", ["0"]);
        ("reg_lambda", ["1"]); ("scale_pos_weight", ["1"]);
        ("base_score", ["0.5"]); ("missing", ["None"])];
     enable_ipw := true;
     propensity_model_params :=
       [("C", ["0.1"; "1"; "10"]); ("class_weight", ["None"]);
        ("dual", ["False"]); ("fit_intercept", ["True"]);
        ("intercept_scaling", ["1"]); ("max_iter", ["100"]);
        ("multi_class", ["ovr"]); ("n_jobs", ["1"]);
        ("penalty", ["l1"; "l2"]); ("solver", ["liblinear"]);
        ("tol", ["0.0001"]); ("warm_start", ["False"])];
     cv := 3 |}.

(** One keyword argument of the constructor.  [EasyDict.update] accepts any
    key; a key the session does not read is [kw_other]. *)
Inductive kwarg : Type :=
| kw_cols_features (v : option (list string))
| kw_col_treatment (v : string)
| kw_col_outcome (v : string)
| kw_col_propensity (v : string)
| kw_col_cate (v : string)
| kw_col_recommendation (v : string)
| kw_min_propensity (v : fnum)
| kw_max_propensity (v : fnum)
| kw_random_state (v : Z)
| kw_verbose (v : Z)
| kw_uplift_model_params (v : grid)
| kw_enable_ipw (v : bool)
| kw_propensity_model_params (v : grid)
| kw_cv (v : Z)
| kw_other (name : string).

Definition set_kwarg (a : Args) (k : kwarg) : Args :=
  let '{| cols_features := f; col_treatment := ct; col_outcome := co;
          col_propensity := cp; col_cate := cc; col_recommendation := cr;
          min_propensity := mn; max_propensity := mx; random_state := rs;
          verbose := vb; uplift_model_params := up; enable_ipw := ipw;
          propensity_model_params := pp; cv := cv0 |} := a in
  match k with
  | kw_cols_features v => Build_Args v ct co cp cc cr mn mx rs vb up ipw pp cv0
  | kw_col_treatment v => Build_Args f v co cp cc cr mn mx rs vb up ipw pp cv0
  | kw_col_outcome v => Build_Args f ct v cp cc cr mn mx rs vb up ipw pp cv0
  | kw_col_propensity v => Build_Args f ct co v cc cr mn mx rs vb up ipw pp cv0
  | kw_col_cate v => Build_Args f ct co cp v cr mn mx rs vb up ipw pp cv0
  | kw_col_recommendation v =>
      Build_Args f ct co cp cc v mn mx rs vb up ipw pp cv0
  | kw_min_propensity v => Build_Args f ct co cp cc cr v mx rs vb up ipw pp cv0
  | kw_max_propensity v => Build_Args f ct co cp cc cr mn v rs vb up ipw pp cv0
  | kw_random_state v => Build_Args f ct co cp cc cr mn mx v vb up ipw pp cv0
  | kw_verbose v => Build_Args f ct co cp cc cr mn mx rs v up ipw pp cv0
  | kw_uplift_model_params v =>
      Build_Args f ct co cp cc cr mn mx rs vb v ipw pp cv0
  | kw_enable_ipw v => Build_Args f ct co cp cc cr mn mx rs vb up v pp cv0
  | kw_propensity_model_params v =>
      Build_Args f ct co cp cc cr mn mx rs vb up ipw v cv0
  | kw_cv v => Build_Args f ct co cp cc cr mn mx rs vb up ipw pp v
  | kw_other _ => a
  end.

(** [args.update(kwargs)] *)
Definition update (a : Args) (kwargs : list kwarg) : Args :=
  fold_left set_kwarg kwargs a.

(** [self.treatment_fractions]: an [EasyDict] with the keys 'train' and
    'test'. *)
Record TreatmentFractions : Type := { tf_train : fnum; tf_test : fnum }.

(** Python's [x or d] where [x] is [None] or a float. *)
Definition py_or (x : option fnum) (d : fnum) : fnum :=
  match x with
  | Some v => if truthy v then v else d
  | None => d
  end.

(** Modelled from the spec: [get_cols_features] of [nodes/utils.py] is not
    part of the sources; the specification gives the default of
    [cols_features] as all columns minus the five reserved names. *)
Definition get_cols_features (d : DataFrame) (non_feature_cols : list string)
  : list string :=
  List.filter (fun c => negb (bool_decide (c ∈ non_feature_cols)))
              (df_columns d).

(** Modelled from the spec: [concat_train_test_df] of [nodes/utils.py] is not
    part of the sources; the specification's [combine] attaches a partition
    tag to each row and concatenates, giving a new table. *)
Definition concat_train_test_df (train_ref test_ref : loc) : M loc :=
  let* a := deref_df train_ref in
  let* b := deref_df test_ref in
  match a, b with
  | Flat t1, Flat t2 => alloc (PyDataFrame (Partitioned t1 t2))
  | _, _ => raise (Unmodelled "concatenation of tables with a two-level index")
  end.

(** Modelled from the spec: [concat_train_test] of [nodes/utils.py] is not
    part of the sources; it is [combine] for two arrays, each of which gets
    the positions [0 .. n-1] under its partition tag. *)
Definition concat_train_test (tr te : list fnum) : ColumnSeries :=
  SPart {| s_index := RangeIndex (length tr); s_values := tr |}
        {| s_index := RangeIndex (length te); s_values := te |}.

(** ** The class [CausalLift] *)

Section Session.

(** Collaborators: the per-arm outcome models ([nodes/model_for_each.py]),
    the treatment fractions ([nodes/utils.py]) and the propensity estimator
    ([nodes/estimate_propensity.py]).  The first four read the tables they
    are given and return new values; [estimate_propensity] receives the two
    tables by reference and may update them in place or create new ones. *)
Context `{R : Rounding}.
Variable Model : Type.
Variable fit : arm -> Args -> DataFrame -> exn + (Model * DataFrame).
Variable predict_proba : arm -> Args -> DataFrame -> Model -> exn + Series.
Variable simulate_recommendation :
  arm -> Args -> DataFrame -> Model -> DataFrame -> exn + Table.
Variable treatment_fractions_ : DataFrame -> string -> exn + TreatmentFractions.
Variable estimate_propensity :
  loc -> loc -> Args -> gmap loc pyobj -> (exn + loc * loc) * gmap loc pyobj.

(** The attributes of a session ([self]).  [model_for_treated] and
    [model_for_untreated] have no state of their own: they are the arms
    [Treated] and [Untreated]. *)
Record CausalLift : Type :=
  { df : loc;
    train_df : Table;
    test_df : Table;
    args : Args;
    model_treated : Model;
    model_untreated : Model;
    score_original_treatment_treated_df : DataFrame;
    score_original_treatment_untreated_df : DataFrame;
    treatment_fractions : TreatmentFractions;
    treatment_fraction_train : fnum;
    treatment_fraction_test : fnum;
    cate_estimated : option Series;
    treated_df : option Table;
    untreated_df : option Table;
    estimated_effect_df : option Table }.

Definition set_train_test (self : CausalLift) (tr te : Table) : CausalLift :=
  {| df := df self; train_df := tr; test_df := te; args := args self;
     model_treated := model_treated self;
     model_untreated := model_untreated self;
     score_original_treatment_treated_df :=
       score_original_treatment_treated_df self;
     score_original_treatment_untreated_df :=
       score_original_treatment_untreated_df self;
     treatment_fractions := treatment_fractions self;
     treatment_fraction_train := treatment_fraction_train self;
     treatment_fraction_test := treatment_fraction_test self;
     cate_estimated := cate_estimated self;
     treated_df := treated_df self; untreated_df := untreated_df self;
     estimated_effect_df := estimated_effect_df self |}.

Definition set_cate_estimated (self : CausalLift) (c : Series) : CausalLift :=
  {| df := df self; train_df := train_df self; test_df := test_df self;
     args := args self;
     model_treated := model_treated self;
     model_untreated := model_untreated self;
     score_original_treatment_treated_df :=
       score_original_treatment_treated_df self;
     score_original_treatment_untreated_df :=
       score_original_treatment_untreated_df self;
     treatment_fractions := treatment_fractions self;
     treatment_fraction_train := treatment_fraction_train self;
     treatment_fraction_test := treatment_fraction_test self;
     cate_estimated := Some c;
     treated_df := treated_df self; untreated_df := untreated_df self;
     estimated_effect_df := estimated_effect_df self |}.

Definition set_treatment_fractions (self : CausalLift)
  (f : TreatmentFractions) : CausalLift :=
  {| df := df self; train_df := train_df self; test_df := test_df self;
     args := args self;
     model_treated := model_treated self;
     model_untreated := model_untreated self;
     score_original_treatment_treated_df :=
       score_original_treatment_treated_df self;
     score_original_treatment_untreated_df :=
       score_original_treatment_untreated_df self;
     treatment_fractions := f;
     treatment_fraction_train := treatment_fraction_train self;
     treatment_fraction_test := treatment_fraction_test self;
     cate_estimated := cate_estimated self;
     treated_df := treated_df self; untreated_df := untreated_df self;
     estimated_effect_df := estimated_effect_df self |}.

Definition set_simulated (self : CausalLift) (t u : Table) : CausalLift :=
  {| df := df self; train_df := train_df self; test_df := test_df self;
     args := args self;
     model_treated := model_treated self;
     model_untreated := model_untreated self;
     score_original_treatment_treated_df :=
       score_original_treatment_treated_df self;
     score_original_treatment_untreated_df :=
       score_original_treatment_untreated_df self;
     treatment_fractions := treatment_fractions self;
     treatment_fraction_train := treatment_fraction_train self;
     treatment_fraction_test := treatment_fraction_test self;
     cate_estimated := cate_estimated self;
     treated_df := Some t; untreated_df := Some u;
     estimated_effect_df := estimated_effect_df self |}.

Definition set_impact (self : CausalLift) (t u e : Table) : CausalLift :=
  {| df := df self; train_df := train_df self; test_df := test_df self;
     args := args self;
     model_treated := model_treated self;
     model_untreated := model_untreated self;
     score_original_treatment_treated_df :=
       score_original_treatment_treated_df self;
     score_original_treatment_untreated_df :=
       score_original_treatment_untreated_df self;
     treatment_fractions := treatment_fractions self;
     treatment_fraction_train := treatment_fraction_train self;
     treatment_fraction_test := treatment_fraction_test self;
     cate_estimated := cate_estimated self;
     treated_df := Some t; untreated_df := Some u;
     estimated_effect_df := Some e |}.

(** A collaborator call that reads its arguments: logged, then evaluated. *)
Definition invoke {A : Type} (c : call) (r : exn + A) : M A :=
  let* _ := log c in lift r.

(** The call of [estimate_propensity], which works on the store. *)
Definition invoke_estimate_propensity (train_ref test_ref : loc) (a : Args)
  : M (loc * loc) :=
  let* _ := log (call_estimate_propensity train_ref test_ref) in
  fun w =>
    let '(r, h) := estimate_propensity train_ref test_ref a (heap w) in
    (r, {| heap := h; calls := calls w |}).

(** A method of a session returns a value together with the session as the
    method leaves it; when it raises, the caller still holds the session,
    with the attributes that the statements before the failing one have
    assigned. *)
Definition Method (A : Type) : Type := ME (exn * CausalLift) (CausalLift * A).

(** [self.df.xs('train'), self.df.xs('test')].  The two attributes hold the
    partitions as they are at this moment; whether pandas hands out a copy
    or a view that follows later writes to [self.df] is not modelled, and no
    property below speaks of their later content. *)
Definition _separate_train_test (self : CausalLift) : Method (Table * Table) :=
  let* d := during self (deref_df (df self)) in
  let* tr := during self (lift (xs train d)) in
  let self1 := set_train_test self tr (test_df self) in
  let* te := during self1 (lift (xs test d)) in
  ret (set_train_test self tr te, (tr, te)).

Definition non_feature_cols (a : Args) : list string :=
  [col_treatment a; col_outcome a; col_propensity a; col_cate a;
   col_recommendation a].

Definition set_columns_of (d : DataFrame) : gset string :=
  list_to_set (df_columns d).

(** The second half of [__init__] (from [self.df = concat_train_test_df(...)]
    on): the combined table, the two fitted models and the treatment
    fractions, for the prepared copies [train_df] and [test_df]. *)
Definition init_session (args1 : Args) (train_ref test_ref : loc)
  : M CausalLift :=
  let* _ := log call_concat_train_test_df in
  let* df_ref := concat_train_test_df train_ref test_ref in
  let* d := deref_df df_ref in
  let* tr := lift (xs train d) in
  let* te := lift (xs test d) in
  let* mt := invoke (call_fit Treated) (fit Treated args1 d) in
  let* mu := invoke (call_fit Untreated) (fit Untreated args1 d) in
  let* fr := invoke call_treatment_fractions_
               (treatment_fractions_ d (col_treatment args1)) in
  ret {| df := df_ref; train_df := tr; test_df := te; args := args1;
         model_treated := fst mt; model_untreated := fst mu;
         score_original_treatment_treated_df := snd mt;
         score_original_treatment_untreated_df := snd mu;
         treatment_fractions := fr;
         treatment_fraction_train := tf_train fr;
         treatment_fraction_test := tf_test fr;
         cate_estimated := None; treated_df := None;
         untreated_df := None; estimated_effect_df := None |}.

(** The middle of [__init__]: [reset_index(drop=True).copy()] of both
    tables, which creates new objects, and the conditional call of
    [estimate_propensity] on these copies. *)
Definition init_tables (args1 : Args) (d1 d2 : DataFrame) : M CausalLift :=
  let* train1 := alloc (PyDataFrame (Flat (df_reset_index d1))) in
  let* test1 := alloc (PyDataFrame (Flat (df_reset_index d2))) in
  let* refs :=
    if enable_ipw args1
       && negb (bool_decide
                  (col_propensity args1 ∈ columns (df_reset_index d1)))
    then invoke_estimate_propensity train1 test1 args1
    else ret (train1, test1) in
  init_session args1 (fst refs) (snd refs).

(** [CausalLift.__init__(self, train_df, test_df, **kwargs)].  The two
    tables are passed by reference.  This first part holds the defaults,
    the three assertions and the choice of the feature columns; it goes on
    with [init_tables] and [init_session].  Printing under [verbose >= 3] is
    left out. *)
Definition __init__ (train_ref test_ref : loc) (kwargs : list kwarg)
  : M CausalLift :=
  let args0 := update default_args kwargs in
  let* o1 := deref train_ref in
  let* o2 := deref test_ref in
  match o1, o2 with
  | PyOther _, _ => raise AssertionError
  | PyDataFrame _, PyOther _ => raise AssertionError
  | PyDataFrame d1, PyDataFrame d2 =>
      if negb (bool_decide (set_columns_of d1 = set_columns_of d2))
      then raise AssertionError
      else
        let* feats :=
          match cols_features args0 with
          | Some (c :: l) => ret (c :: l)
          | _ => invoke call_get_cols_features
                   (inr (get_cols_features d1 (non_feature_cols args0)))
          end in
        init_tables (set_kwarg args0 (kw_cols_features (Some feats))) d1 d2
  end.

(** [estimate_cate_by_2_models(self, verbose=None)]; [verbose] is not used
    by the method. *)
Definition estimate_cate_by_2_models (self : CausalLift) (verbose : option Z)
  : Method (Table * Table) :=
  let* d := during self (deref_df (df self)) in
  let* pt := during self
               (invoke (call_predict_proba Treated)
                  (predict_proba Treated (args self) d (model_treated self))) in
  let* pu := during self
               (invoke (call_predict_proba Untreated)
                  (predict_proba Untreated (args self) d
                     (model_untreated self))) in
  let* cate := during self (lift (series_binop fsub pt pu)) in
  let self1 := set_cate_estimated self cate in
  let* d' := during self1
               (lift (df_set_values d (col_cate (args self1))
                        (s_values cate))) in
  let* _ := during self1 (store (df self1) (PyDataFrame d')) in
  _separate_train_test self1.

(** The inner function [recommendation] of [recommendation_by_cate]. *)
Definition recommendation (cate_series : Series) (treatment_fraction : fnum)
  : list fnum :=
  let rank_series := rank cate_series in
  np_where (series_le rank_series treatment_fraction) one zero.

(** The local function [recommendation_by_cate]; it writes the column
    [col_recommendation] of [df] and returns [df]. *)
Definition recommendation_by_cate (d : DataFrame) (a : Args)
  (fractions : TreatmentFractions) : exn + DataFrame :=
  let? cate_series := df_getitem d (col_cate a) in
  let? cate_train := series_xs train cate_series in
  let recommendation_train := recommendation cate_train (tf_train fractions) in
  let? cate_test := series_xs test cate_series in
  let recommendation_test := recommendation cate_test (tf_test fractions) in
  df_set_series d (col_recommendation a)
    (concat_train_test recommendation_train recommendation_test).

Definition n_without : string := "# samples chosen without uplift model".
Definition rate_without : string :=
  "observed conversion rate without uplift model".
Definition n_with : string := "# samples recommended by uplift model".
Definition rate_with : string := "predicted conversion rate using uplift model".
Definition n_samples : string := "# samples".
Definition improvement_rate : string := "predicted improvement rate".

(** The table [estimated_effect_df] that [estimate_recommendation_impact]
    builds from the two per-arm tables. *)
Definition aggregate_impact (treated_df untreated_df : Table) : exn + Table :=
  let estimated_effect_df := {| t_index := []; t_columns := [] |} in
  (* '# samples' *)
  let? tn := getitem treated_df n_without in
  let? un := getitem untreated_df n_without in
  let? samples := series_binop fadd tn un in
  let? e1 := setitem_series estimated_effect_df n_samples samples in
  (* Original (without uplift model) *)
  let? tn := getitem treated_df n_without in
  let? tr := getitem treated_df rate_without in
  let? t_sum := series_binop fmul tn tr in
  let? un := getitem untreated_df n_without in
  let? ur := getitem untreated_df rate_without in
  let? u_sum := series_binop fmul un ur in
  let? num := series_binop fadd t_sum u_sum in
  let? tn := getitem treated_df n_without in
  let? un := getitem untreated_df n_without in
  let? den := series_binop fadd tn un in
  let? observed := series_binop fdiv num den in
  let? e2 := setitem_series e1 rate_without observed in
  (* Recommended (with uplift model) *)
  let? tn := getitem treated_df n_with in
  let? tr := getitem treated_df rate_with in
  let? t_sum := series_binop fmul tn tr in
  let? un := getitem untreated_df n_with in
  let? ur := getitem untreated_df rate_with in
  let? u_sum := series_binop fmul un ur in
  let? num := series_binop fadd t_sum u_sum in
  let? tn := getitem treated_df n_with in
  let? un := getitem untreated_df n_with in
  let? den := series_binop fadd tn un in
  let? predicted := series_binop fdiv num den in
  let? e3 := setitem_series e2 rate_with predicted in
  (* predicted improvement rate *)
  let? p := getitem e3 rate_with in
  let? o := getitem e3 rate_without in
  let? improvement := series_binop fdiv p o in
  setitem_series e3 improvement_rate improvement.

(** [estimate_recommendation_impact(self, cate_estimated=None,
    treatment_fraction_train=None, treatment_fraction_test=None,
    verbose=None)].  Display under [verbose >= 3] is left out. *)
Definition estimate_recommendation_impact (self : CausalLift)
  (cate : option Series)
  (fraction_train fraction_test : option fnum) (verbose : option Z)
  : Method Table :=
  let* self1 :=
    match cate with
    | Some c =>
        let self' := set_cate_estimated self c in
        let* d := during self' (deref_df (df self')) in
        let* d' := during self'
                     (lift (df_set_values d (col_cate (args self'))
                              (s_values c))) in
        let* _ := during self' (store (df self') (PyDataFrame d')) in
        ret self'
    | None => ret self
    end in
  let fractions :=
    {| tf_train := py_or fraction_train (tf_train (treatment_fractions self1));
       tf_test := py_or fraction_test (tf_test (treatment_fractions self1)) |} in
  let self2 := set_treatment_fractions self1 fractions in
  let* d := during self2 (deref_df (df self2)) in
  let* d' := during self2
               (lift (recommendation_by_cate d (args self2)
                        (treatment_fractions self2))) in
  let* _ := during self2 (store (df self2) (PyDataFrame d')) in
  let* t := during self2
              (invoke (call_simulate_recommendation Treated)
                 (simulate_recommendation Treated (args self2) d'
                    (model_treated self2)
                    (score_original_treatment_treated_df self2))) in
  let* u := during self2
              (invoke (call_simulate_recommendation Untreated)
                 (simulate_recommendation Untreated (args self2) d'
                    (model_untreated self2)
                    (score_original_treatment_untreated_df self2))) in
  let self3 := set_simulated self2 t u in
  let* e := during self3 (lift (aggregate_impact t u)) in
  ret (set_impact self2 t u e, e).


(** ** Vocabulary of the properties *)

(** A float that is a number (not NaN). *)
Definition valid (x : fnum) : Prop := is_nan x = false.

(** The ranks of a series without NaN, as numbers. *)
Definition rank_numbers (v : list fnum) : list nat :=
  map (rank_number v) (seq 0 (length v)).

(** A rational that is a float: rounding leaves it as it is. *)
Definition representable (q : Q) : Prop := (rnd q == q)%Q.

(** Rank [r] among [n] ranked rows as an exact fraction, and as the
    percentile that pandas computes: the float quotient. *)
Definition exact_percentile (r n : nat) : Q :=
  (inject_Z (Z.of_nat r) / inject_Z (Z.of_nat n))%Q.

Definition percentile (r n : nat) : fnum := fdiv (of_nat r) (of_nat n).

(** A table has few enough rows for every rank to be a float of its own:
    at most 2^53 rows for Python's floats. *)
Definition ranks_are_exact (n : nat) : Prop :=
  (inject_Z (Z.of_nat n) * unit_roundoff <= 1)%Q.

(** Python's [round(x)]: the nearest integer, a half going to the even
    neighbour. *)
Definition py_round (x : Q) : Z :=
  let f := Qfloor x in
  match Qcompare (x - inject_Z f) (1 # 2) with
  | Lt => f
  | Gt => (f + 1)%Z
  | Eq => if Z.even f then f else (f + 1)%Z
  end.

(** The values of column [c] in partition [p] of a combined table. *)
Definition partition_column (p : partition) (d : DataFrame) (c : string)
  : exn + list fnum :=
  let? t := xs p d in
  let? s := getitem t c in
  inr (s_values s).

Definition part_of (p : partition) (tr te : Table) : Table :=
  match p with train => tr | test => te end.

(** The world after a call has been logged, and after an object has been
    written. *)
Definition logged (c : call) (w : world) : world :=
  {| heap := heap w; calls := calls w ++ [c] |}.

Definition stored (l : loc) (o : pyobj) (w : world) : world :=
  {| heap := <[l := o]> (heap w); calls := calls w |}.

(** The table [t] after column [c] has been written with the values [v]. *)
Definition with_column (t : Table) (c : string) (v : list fnum) : Table :=
  {| t_index := t_index t; t_columns := store_col c v (t_columns t) |}.

(** Every column of the table has one value per row. *)
Definition well_formed (t : Table) : Prop :=
  Forall (fun cv : string * list fnum => length (snd cv) = nrows t)
         (t_columns t).

(** The index is [0 .. n-1], as [reset_index(drop=True)] leaves it. *)
Definition range_indexed (t : Table) : Prop :=
  t_index t = RangeIndex (nrows t).

(** [df[c].values]: the values of column [c] over all rows, the 'train'
    rows first. *)
Definition df_values (d : DataFrame) (c : string) : exn + list fnum :=
  match d with
  | Flat t => let? s := getitem t c in inr (s_values s)
  | Partitioned tr te =>
      let? a := getitem tr c in
      let? b := getitem te c in
      inr (s_values a ++ s_values b)
  end.

(** The columns that the aggregation reads from a per-arm table: the two
    sample counts and the two rates, each with one value per row. *)
Record arm_columns (t : Table) (n0 r0 n1 r1 : list fnum) : Prop :=
  { ac_n_without : lookup_col n_without (t_columns t) = Some n0;
    ac_rate_without : lookup_col rate_without (t_columns t) = Some r0;
    ac_n_with : lookup_col n_with (t_columns t) = Some n1;
    ac_rate_with : lookup_col rate_with (t_columns t) = Some r1;
    ac_len_n0 : length n0 = nrows t;
    ac_len_r0 : length r0 = nrows t;
    ac_len_n1 : length n1 = nrows t;
    ac_len_r1 : length r1 = nrows t }.

(** The count-weighted mean [(n_t * r_t + n_u * r_u) / (n_t + n_u)] of two
    rate columns, row by row. *)
Definition weighted_rate (n_t r_t n_u r_u : list fnum) : list fnum :=
  zip_with fdiv
    (zip_with fadd (zip_with fmul n_t r_t) (zip_with fmul n_u r_u))
    (zip_with fadd n_t n_u).

(** [o] lies between [x] and [y], in either order. *)
Definition lies_between (o x y : fnum) : bool :=
  (fle x o && fle o y) || (fle y o && fle o x).

(** The reading of the weighted-average property for all per-arm tables:
    in every row in which the observed rates of the two arms are numbers,
    the overall observed rate lies between them. *)
Definition observed_rate_between_arms (t u : Table) : Prop :=
  forall e r_t r_u observed i (x y : Q) o,
    aggregate_impact t u = inr e ->
    lookup_col rate_without (t_columns t) = Some r_t ->
    lookup_col rate_without (t_columns u) = Some r_u ->
    lookup_col rate_without (t_columns e) = Some observed ->
    r_t !! i = Some (Fin x) -> r_u !! i = Some (Fin y) ->
    observed !! i = Some o ->
    lies_between o (Fin x) (Fin y) = true.

Definition is_DataFrame (o : pyobj) : bool :=
  match o with PyDataFrame _ => true | PyOther _ => false end.

(** The set of column names of an object that is a table. *)
Definition column_set (o : pyobj) : option (gset string) :=
  match o with
  | PyDataFrame d => Some (set_columns_of d)
  | PyOther _ => None
  end.

(** The constructor's condition for estimating propensities. *)
Definition propensity_needed (a : Args) (d : DataFrame) : Prop :=
  enable_ipw a = true /\ col_propensity a ∉ df_columns d.

(** [estimate_propensity] works on the two tables it is given (and on
    objects it creates): every other object of the store is left alone. *)
Definition touches_only_its_tables : Prop :=
  forall l1 l2 a h r h',
    estimate_propensity l1 l2 a h = (r, h') ->
    forall l o, l <> l1 -> l <> l2 -> h !! l = Some o -> h' !! l = Some o.

(** Two tables with the same index that agree on every column whose name
    is not in [cs]. *)
Definition table_differs_only_in (cs : list string) (t t' : Table) : Prop :=
  t_index t' = t_index t /\
  forall c, ~ In c cs ->
    lookup_col c (t_columns t') = lookup_col c (t_columns t).

Definition differs_only_in (cs : list string) (d d' : DataFrame) : Prop :=
  match d, d' with
  | Flat t, Flat t' => table_differs_only_in cs t t'
  | Partitioned tr te, Partitioned tr' te' =>
      table_differs_only_in cs tr tr' /\ table_differs_only_in cs te te'
  | _, _ => False
  end.

(** The session holds what the collaborators returned for the table [d]
    under the session's options: the two fitted models with their score
    tables, and the treatment fractions, which the two older attributes
    repeat. *)
Definition fitted_on (self : CausalLift) (d : DataFrame) : Prop :=
  fit Treated (args self) d
  = inr (model_treated self, score_original_treatment_treated_df self) /\
  fit Untreated (args self) d
  = inr (model_untreated self, score_original_treatment_untreated_df self) /\
  treatment_fractions_ d (col_treatment (args self))
  = inr (treatment_fractions self) /\
  treatment_fraction_train self = tf_train (treatment_fractions self) /\
  treatment_fraction_test self = tf_test (treatment_fractions self).

(** The calls that the second half of the constructor makes when it
    returns. *)
Definition fitting_calls : list call :=
  [call_concat_train_test_df; call_fit Treated; call_fit Untreated;
   call_treatment_fractions_].

(** The two public methods, as operations on a session. *)
Inductive operation : Type :=
| op_estimate_cate_by_2_models (verbose : option Z)
| op_estimate_recommendation_impact
    (cate : option Series) (fraction_train fraction_test : option fnum)
    (verbose : option Z).

Definition perform (o : operation) (self : CausalLift)
  : ME (exn * CausalLift) CausalLift :=
  match o with
  | op_estimate_cate_by_2_models v =>
      let* r := estimate_cate_by_2_models self v in ret (fst r)
  | op_estimate_recommendation_impact c ft fe v =>
      let* r := estimate_recommendation_impact self c ft fe v in ret (fst r)
  end.

(** [session_run s w s' w']: a sequence of method calls leads from session
    [s] and world [w] to [s'] and [w'].  A call that raises leaves the
    session [s0] with the attributes assigned before the failing statement;
    the run goes on from it, or from any other state of the session around
    the same combined table (attributes can be assigned between calls). *)
Inductive session_run : CausalLift -> world -> CausalLift -> world -> Prop :=
| run_done (s : CausalLift) (w : world) : session_run s w s w
| run_returns (o : operation) (s s1 s' : CausalLift) (w w1 w' : world) :
    perform o s w = (inr s1, w1) ->
    session_run s1 w1 s' w' ->
    session_run s w s' w'
| run_raises (o : operation) (e : exn) (s s0 s1 s' : CausalLift)
    (w w1 w' : world) :
    perform o s w = (inl (e, s0), w1) ->
    df s1 = df s ->
    session_run s1 w1 s' w' ->
    session_run s w s' w'.

(** The treatment fractions that [estimate_recommendation_impact] stores
    and uses, for the arguments [fraction_train] and [fraction_test]. *)
Definition fractions_used (self : CausalLift)
  (fraction_train fraction_test : option fnum) : TreatmentFractions :=
  {| tf_train := py_or fraction_train (tf_train (treatment_fractions self));
     tf_test := py_or fraction_test (tf_test (treatment_fractions self)) |}.

Definition calls_estimate_propensity (cs : list call) : Prop :=
  exists l1 l2, In (call_estimate_propensity l1 l2) cs.

Definition fraction_of (p : partition) (f : TreatmentFractions) : fnum :=
  match p with train => tf_train f | test => tf_test f end.

(** The number of rows that a recommendation array marks with [1.0]. *)
Definition n_recommended (r : list fnum) : nat :=
  countb (fun x => feq x one) r.

(** The reading of the budget for all combined tables: in each partition
    with a treatment fraction [q] in [0, 1] the number of recommended rows
    is within one of [round (q * N)]. *)
Definition recommendation_within_budget (d : DataFrame) (a : Args)
  (fractions : TreatmentFractions) : Prop :=
  forall (p : partition) (cate : list fnum) (q : Q) d' (rec : list fnum),
    partition_column p d (col_cate a) = inr cate ->
    fraction_of p fractions = Fin q ->
    (0 <= q)%Q -> (q <= 1)%Q ->
    recommendation_by_cate d a fractions = inr d' ->
    partition_column p d' (col_recommendation a) = inr rec ->
    (Z.abs (Z.of_nat (n_recommended rec)
            - py_round (q * inject_Z (Z.of_nat (length cate)))) <= 1)%Z.

(** ** Properties *)

(** *** Rounding *)

Lemma rnd_zero : (rnd 0 == 0)%Q.
Proof.
  pose proof (rnd_error 0) as H. rewrite Qabs_Qle_condition in H.
  change (Qabs 0) with 0%Q in H. destruct H as [H1 H2]. lra.
Qed.

Lemma rnd_bounds (x : Q) :
  (0 <= x)%Q ->
  (x * (1 - unit_roundoff) <= rnd x /\ rnd x <= x * (1 + unit_roundoff))%Q.
Proof.
  intros Hx. pose proof (rnd_error x) as H.
  rewrite Qabs_Qle_condition in H. rewrite (Qabs_pos x Hx) in H.
  destruct H as [H1 H2]. split; lra.
Qed.

Lemma rnd_nonneg (x : Q) : (0 <= x)%Q -> (0 <= rnd x)%Q.
Proof.
  intros Hx. apply Qle_trans with (rnd 0); [|now apply rnd_monotone].
  pose proof rnd_zero. lra.
Qed.

Lemma rnd_pos (x : Q) : (0 < x)%Q -> (0 < rnd x)%Q.
Proof.
  intros Hx. destruct (rnd_bounds x) as [H _]; [lra|].
  destruct unit_roundoff_range as [U0 U1].
  assert (0 < x * (1 - unit_roundoff))%Q by nra. lra.
Qed.

Lemma rnd_le_one (x : Q) : (x <= 1)%Q -> (rnd x <= 1)%Q.
Proof.
  intros Hx. apply Qle_trans with (rnd 1); [now apply rnd_monotone|].
  pose proof rnd_one. lra.
Qed.

Lemma rnd_ge_one (x : Q) : (1 <= x)%Q -> (1 <= rnd x)%Q.
Proof.
  intros Hx. apply Qle_trans with (rnd 1); [|now apply rnd_monotone].
  pose proof rnd_one. lra.
Qed.

Lemma inject_nat_pos (n : nat) : 0 < n -> (0 < inject_Z (Z.of_nat n))%Q.
Proof.
  intros Hn. replace 0%Q with (inject_Z 0) by reflexivity.
  rewrite <- Zlt_Qlt. lia.
Qed.

Lemma inject_nat_nonneg (n : nat) : (0 <= inject_Z (Z.of_nat n))%Q.
Proof.
  replace 0%Q with (inject_Z 0) by reflexivity. rewrite <- Zle_Qle. lia.
Qed.

(** *** Order on floats *)

Lemma fle_trans (x y z : fnum) :
  fle x y = true -> fle y z = true -> fle x z = true.
Proof.
  destruct x as [a|[]|], y as [b|[]|], z as [c|[]|]; simpl; try done.
  rewrite !Qle_bool_iff. apply Qle_trans.
Qed.

Lemma countb_le_pointwise {A : Type} (p q : A -> bool) (l : list A) :
  (forall x, In x l -> p x = true -> q x = true) ->
  countb p l <= countb q l.
Proof.
  induction l as [|x l IH]; intros H; simpl; [lia|].
  assert (IH' : countb p l <= countb q l).
  { apply IH. intros y Hy. apply H. now right. }
  destruct (p x) eqn:Hp.
  - rewrite (H x (or_introl eq_refl) Hp). lia.
  - destruct (q x); lia.
Qed.

Lemma countb_map {A B : Type} (f : A -> B) (p : B -> bool) (l : list A) :
  countb p (map f l) = countb (fun x => p (f x)) l.
Proof. induction l as [|x l IH]; simpl; [done|]. now rewrite IH. Qed.

Lemma countb_ext {A : Type} (p q : A -> bool) (l : list A) :
  (forall x, In x l -> p x = q x) -> countb p l = countb q l.
Proof.
  induction l as [|x l IH]; intros H; simpl; [done|].
  rewrite (H x (or_introl eq_refl)), IH; [done|].
  intros y Hy. apply H. now right.
Qed.

Lemma n_recommended_np_where (cond : list bool) :
  n_recommended (np_where cond one zero) = countb (fun b => b) cond.
Proof.
  unfold n_recommended, np_where. rewrite countb_map.
  apply countb_ext. intros [] _; reflexivity.
Qed.

(** *** Ranking *)

Lemma fle_total (x y : fnum) :
  is_nan x = false -> is_nan y = false -> fle x y = true \/ fle y x = true.
Proof.
  destruct x as [a|[]|], y as [b|[]|]; simpl; auto; intros _ _.
  rewrite !Qle_bool_iff. destruct (Qlt_le_dec a b) as [H|H]; [left|right]; auto.
  now apply Qlt_le_weak.
Qed.

Lemma feq_iff_fle (x y : fnum) :
  feq x y = true <-> fle x y = true /\ fle y x = true.
Proof.
  destruct x as [a|[]|], y as [b|[]|]; simpl; try (split; [done|intros []; done]); try done.
  rewrite !Qle_bool_iff, Qeq_bool_iff. split.
  - intros H. rewrite H. split; apply Qle_refl.
  - intros [H1 H2]. now apply Qle_antisym.
Qed.

Lemma fle_refl (x : fnum) : is_nan x = false -> fle x x = true.
Proof. destruct x as [a|[]|]; simpl; try done. intros _. apply Qle_bool_iff, Qle_refl. Qed.

Lemma flt_iff (x y : fnum) :
  flt x y = true <-> fle x y = true /\ fle y x <> true.
Proof.
  unfold flt. rewrite andb_true_iff, negb_true_iff.
  split.
  - intros [H1 H2]. split; [done|]. intros H3.
    assert (feq x y = true) by (apply feq_iff_fle; done). congruence.
  - intros [H1 H2]. split; [done|]. destruct (feq x y) eqn:E; [|done].
    apply feq_iff_fle in E. tauto.
Qed.

Lemma precedes_iff (v : list fnum) (j i : nat) :
  precedes v j i = true <->
  (fle (nth i v NaN) (nth j v NaN) = true /\
   (fle (nth j v NaN) (nth i v NaN) = true -> j < i)).
Proof.
  unfold precedes. rewrite orb_true_iff, andb_true_iff, flt_iff, feq_iff_fle, Nat.ltb_lt.
  destruct (fle (nth j v NaN) (nth i v NaN)); intuition congruence.
Qed.

Lemma precedes_irrefl (v : list fnum) (i : nat) : precedes v i i = false.
Proof.
  destruct (precedes v i i) eqn:E; [|done].
  apply precedes_iff in E as [H1 H2]. specialize (H2 H1). lia.
Qed.

Lemma precedes_trans (v : list fnum) (k j i : nat) :
  precedes v k j = true -> precedes v j i = true -> precedes v k i = true.
Proof.
  rewrite !precedes_iff. intros [A1 A2] [B1 B2]. split.
  - now apply fle_trans with (nth j v NaN).
  - intros C.
    assert (k < j) by (apply A2; now apply fle_trans with (nth i v NaN)).
    assert (j < i) by (apply B2; now apply fle_trans with (nth k v NaN)).
    lia.
Qed.

Lemma precedes_total (v : list fnum) (i j : nat) :
  valid (nth i v NaN) -> valid (nth j v NaN) -> i <> j ->
  precedes v i j = true \/ precedes v j i = true.
Proof.
  intros Hi Hj Hne. rewrite !precedes_iff.
  destruct (fle (nth i v NaN) (nth j v NaN)) eqn:E1,
           (fle (nth j v NaN) (nth i v NaN)) eqn:E2.
  - destruct (Nat.lt_ge_cases i j); [left|right]; split; auto; intros _; lia.
  - right. split; [done|]. intros ?; done.
  - left. split; [done|]. intros ?; done.
  - destruct (fle_total _ _ Hi Hj); congruence.
Qed.

Lemma nth_valid (v : list fnum) (i : nat) :
  Forall valid v -> i < length v -> valid (nth i v NaN).
Proof.
  intros Hv Hi. rewrite Forall_forall in Hv. apply Hv.
  apply list_elem_of_In. now apply nth_In.
Qed.

Lemma countb_le_length {A} (p : A -> bool) l : countb p l <= length l.
Proof. induction l as [|x l IH]; simpl; [lia|]. destruct (p x); lia. Qed.

Lemma countb_lt_pointwise {A} (p q : A -> bool) (l : list A) (x : A) :
  In x l -> p x = false -> q x = true ->
  (forall y, In y l -> p y = true -> q y = true) ->
  countb p l < countb q l.
Proof.
  induction l as [|y l IH]; intros Hin Hp Hq Hpq; simpl; [destruct Hin|].
  destruct Hin as [->|Hin].
  - rewrite Hp, Hq.
    assert (countb p l <= countb q l).
    { apply countb_le_pointwise. intros z Hz. apply Hpq. now right. }
    lia.
  - assert (countb p l < countb q l).
    { apply IH; auto. intros z Hz. apply Hpq. now right. }
    destruct (p y) eqn:E.
    + rewrite (Hpq y (or_introl eq_refl) E). lia.
    + destruct (q y); lia.
Qed.

Lemma countb_lt_length {A} (p : A -> bool) (l : list A) (x : A) :
  In x l -> p x = false -> countb p l < length l.
Proof.
  induction l as [|y l IH]; intros Hin Hp; simpl; [destruct Hin|].
  destruct Hin as [->|Hin].
  - rewrite Hp. pose proof (countb_le_length p l). lia.
  - specialize (IH Hin Hp). destruct (p y); lia.
Qed.

Lemma rank_number_range (v : list fnum) (i : nat) :
  i < length v -> 1 <= rank_number v i <= length v.
Proof.
  intros Hi. unfold rank_number. split; [lia|].
  assert (countb (fun j => precedes v j i) (seq 0 (length v)) < length (seq 0 (length v))).
  { apply countb_lt_length with i; [apply in_seq; lia | apply precedes_irrefl]. }
  rewrite length_seq in H. lia.
Qed.

Lemma rank_number_lt (v : list fnum) (i j : nat) :
  i < length v -> precedes v i j = true -> rank_number v i < rank_number v j.
Proof.
  intros Hi Hij. unfold rank_number.
  assert (countb (fun k => precedes v k i) (seq 0 (length v))
          < countb (fun k => precedes v k j) (seq 0 (length v))); [|lia].
  apply countb_lt_pointwise with i.
  - apply in_seq; lia.
  - apply precedes_irrefl.
  - done.
  - intros k _ Hk. now apply precedes_trans with i.
Qed.

Lemma rank_number_inj (v : list fnum) (i j : nat) :
  Forall valid v -> i < length v -> j < length v ->
  rank_number v i = rank_number v j -> i = j.
Proof.
  intros Hv Hi Hj Heq. destruct (decide (i = j)) as [|Hne]; [done|].
  destruct (precedes_total v i j) as [H|H]; auto using nth_valid.
  - pose proof (rank_number_lt v i j Hi H). lia.
  - pose proof (rank_number_lt v j i Hj H). lia.
Qed.

Lemma rank_numbers_permutation (v : list fnum) :
  Forall valid v -> Permutation (rank_numbers v) (seq 1 (length v)).
Proof.
  intros Hv. apply NoDup_Permutation_bis.
  - apply NoDup_ListNoDup. apply (NoDup_fmap_2_strong (rank_number v)).
    + intros x y Hx Hy. apply list_elem_of_In, in_seq in Hx, Hy.
      apply rank_number_inj; auto; lia.
    + apply NoDup_ListNoDup, seq_NoDup.
  - unfold rank_numbers. rewrite length_map, !length_seq. lia.
  - intros r Hr. unfold rank_numbers in Hr. apply in_map_iff in Hr as (i & <- & Hi).
    apply in_seq in Hi. apply in_seq. pose proof (rank_number_range v i). lia.
Qed.

Lemma py_round_floor (x : Q) : (Qfloor x <= py_round x <= Qfloor x + 1)%Z.
Proof.
  unfold py_round. destruct (Qcompare _ _); [destruct (Z.even _)| |]; lia.
Qed.

Lemma exact_percentile_times (r n : nat) :
  0 < n ->
  (exact_percentile r n * inject_Z (Z.of_nat n) == inject_Z (Z.of_nat r))%Q.
Proof.
  intros Hn. pose proof (inject_nat_pos n Hn). unfold exact_percentile.
  field. lra.
Qed.

Lemma exact_percentile_range (r n : nat) :
  0 < n -> r <= n ->
  (0 <= exact_percentile r n /\ exact_percentile r n <= 1)%Q.
Proof.
  intros Hn Hr. pose proof (inject_nat_pos n Hn) as Hp.
  pose proof (inject_nat_nonneg r) as Hr0.
  assert (Hrn : (inject_Z (Z.of_nat r) <= inject_Z (Z.of_nat n))%Q)
    by (rewrite <- Zle_Qle; lia).
  unfold exact_percentile. split.
  - apply Qle_shift_div_l; [done|]. lra.
  - apply Qle_shift_div_r; [done|]. lra.
Qed.

Lemma exact_percentile_le_iff (r n : nat) (q : Q) :
  0 < n ->
  (exact_percentile r n <= q)%Q <->
  (Z.of_nat r <= Qfloor (q * inject_Z (Z.of_nat n)))%Z.
Proof.
  intros Hn. pose proof (inject_nat_pos n Hn) as Hpos.
  pose proof (exact_percentile_times r n Hn) as E.
  split.
  - intros H.
    assert (H' : (inject_Z (Z.of_nat r) <= q * inject_Z (Z.of_nat n))%Q) by nra.
    apply Qfloor_resp_le in H'. now rewrite Qfloor_Z in H'.
  - intros H.
    assert (H' : (inject_Z (Z.of_nat r) <= q * inject_Z (Z.of_nat n))%Q).
    { eapply Qle_trans; [|apply Qfloor_le]. now rewrite <- Zle_Qle. }
    nra.
Qed.

Lemma exact_percentile_mono (r r' n : nat) :
  0 < n -> r <= r' -> (exact_percentile r n <= exact_percentile r' n)%Q.
Proof.
  intros Hn Hr. pose proof (inject_nat_pos n Hn) as Hpos.
  pose proof (exact_percentile_times r n Hn).
  pose proof (exact_percentile_times r' n Hn).
  assert ((inject_Z (Z.of_nat r) <= inject_Z (Z.of_nat r'))%Q)
    by (rewrite <- Zle_Qle; lia).
  nra.
Qed.

(** The percentile of pandas is the rounded quotient. *)
Lemma percentile_rnd (r n : nat) :
  0 < n -> percentile r n = Fin (rnd (exact_percentile r n)).
Proof.
  intros Hn. unfold percentile, of_nat, fdiv, exact_percentile.
  destruct (Qeq_bool (inject_Z (Z.of_nat n)) 0) eqn:E; [|done].
  apply Qeq_bool_iff in E. unfold Qeq in E. simpl in E. lia.
Qed.

(** A rank within the exact budget is within the budget of the floats. *)
Lemma percentile_within (r n : nat) (q : Q) :
  0 < n -> representable q ->
  (Z.of_nat r <= Qfloor (q * inject_Z (Z.of_nat n)))%Z ->
  fle (percentile r n) (Fin q) = true.
Proof.
  intros Hn Hq Hr. rewrite percentile_rnd by done. cbn [fle].
  apply Qle_bool_iff. unfold representable in Hq.
  apply Qle_trans with (rnd q); [|lra].
  apply rnd_monotone. now apply exact_percentile_le_iff.
Qed.

(** Rounding lets at most one more rank into the budget. *)
Lemma percentile_beyond (r n : nat) (q : Q) :
  0 < n -> r <= n -> ranks_are_exact n ->
  fle (percentile r n) (Fin q) = true ->
  (Z.of_nat r <= Qfloor (q * inject_Z (Z.of_nat n)) + 1)%Z.
Proof.
  intros Hn Hr Hu H. rewrite percentile_rnd in H by done. cbn [fle] in H.
  apply Qle_bool_iff in H. unfold ranks_are_exact in Hu.
  pose proof (inject_nat_pos n Hn) as Hpos.
  pose proof (exact_percentile_times r n Hn) as E.
  destruct (exact_percentile_range r n Hn Hr) as [P0 P1].
  destruct (rnd_bounds _ P0) as [Hlow _].
  destruct unit_roundoff_range as [U0 U1].
  assert (H' : (inject_Z (Z.of_nat r) - 1 <= q * inject_Z (Z.of_nat n))%Q).
  { assert ((exact_percentile r n * (1 - unit_roundoff) <= q)%Q) by lra.
    assert ((exact_percentile r n * unit_roundoff * inject_Z (Z.of_nat n)
             <= 1)%Q).
    { assert ((exact_percentile r n * (inject_Z (Z.of_nat n) * unit_roundoff)
               <= 1 * 1)%Q).
      { apply Qmult_le_compat_nonneg; split; try assumption.
        apply Qmult_le_0_compat; lra. }
      lra. }
    nra. }
  apply Qfloor_resp_le in H'.
  assert (E1 : (inject_Z (Z.of_nat r) - 1 == inject_Z (Z.of_nat r - 1))%Q).
  { unfold Qeq. simpl. lia. }
  rewrite E1, Qfloor_Z in H'. lia.
Qed.

Lemma percentile_mono (r r' n : nat) :
  0 < n -> r <= r' -> fle (percentile r n) (percentile r' n) = true.
Proof.
  intros Hn Hr. rewrite !percentile_rnd by done. cbn [fle].
  apply Qle_bool_iff, rnd_monotone. now apply exact_percentile_mono.
Qed.

Lemma countb_permutation {A} (p : A -> bool) (l l' : list A) :
  Permutation l l' -> countb p l = countb p l'.
Proof.
  induction 1; simpl; try lia.
Qed.

Lemma countb_leb_seq (m a n : nat) :
  countb (fun r => Nat.leb r m) (seq a n) = Nat.min n (S m - a).
Proof.
  revert a. induction n as [|n IH]; intros a; [done|].
  cbn [seq countb]. rewrite IH. destruct (Nat.leb_spec a m); lia.
Qed.

(** A predicate on ranks that holds up to [m] and fails beyond [m + 1]
    holds of [m] or of [m + 1] of the ranks [1 .. n]. *)
Lemma countb_budget (P : nat -> bool) (m n : nat) :
  (forall r, 1 <= r <= n -> r <= m -> P r = true) ->
  (forall r, 1 <= r <= n -> P r = true -> r <= S m) ->
  Nat.min n m <= countb P (seq 1 n) <= Nat.min n (S m).
Proof.
  intros Hin Hout. split.
  - pose proof (countb_leb_seq m 1 n) as H.
    replace (S m - 1) with m in H by lia. rewrite <- H.
    apply countb_le_pointwise. intros r Hr Hle.
    apply in_seq in Hr. apply Nat.leb_le in Hle. apply Hin; lia.
  - pose proof (countb_leb_seq (S m) 1 n) as H.
    replace (S (S m) - 1) with (S m) in H by lia. rewrite <- H.
    apply countb_le_pointwise. intros r Hr HP.
    apply in_seq in Hr. apply Nat.leb_le. apply Hout; [lia|done].
Qed.

Lemma count_valid_length (v : list fnum) :
  Forall valid v -> count_valid v = length v.
Proof.
  unfold count_valid. induction 1 as [|x l Hx _ IH]; simpl; [done|].
  rewrite Hx, IH. done.
Qed.

Lemma recommendation_by_rank_numbers (s : Series) (f : fnum) :
  Forall valid (s_values s) ->
  recommendation s f =
  map (fun r => if fle (percentile r (length (s_values s))) f
                then one else zero)
      (rank_numbers (s_values s)).
Proof.
  intros Hv. unfold recommendation, np_where, series_le, rank, rank_numbers,
    rank_first_descending. cbn [s_values].
  rewrite !map_map. apply map_ext_in. intros i Hi. apply in_seq in Hi.
  rewrite count_valid_length by done.
  unfold rank_at. rewrite (nth_valid _ _ Hv) by lia. cbn [pct_of].
  reflexivity.
Qed.

Lemma n_recommended_if {A} (c : A -> bool) (l : list A) :
  n_recommended (map (fun r => if c r then one else zero) l) = countb c l.
Proof.
  unfold n_recommended. rewrite countb_map. apply countb_ext.
  intros x _. destruct (c x); reflexivity.
Qed.

Lemma budget_floor_range (q : Q) (n : nat) :
  (0 <= q)%Q -> (q <= 1)%Q ->
  (0 <= Qfloor (q * inject_Z (Z.of_nat n)) <= Z.of_nat n)%Z.
Proof.
  intros H0 H1. pose proof (inject_nat_nonneg n) as Hn0. split.
  - rewrite <- (Qfloor_Z 0). apply Qfloor_resp_le.
    now apply Qmult_le_0_compat.
  - assert (Hq : (q * inject_Z (Z.of_nat n) <= inject_Z (Z.of_nat n))%Q) by nra.
    apply Qfloor_resp_le in Hq. now rewrite Qfloor_Z in Hq.
Qed.

(** The number of recommended rows of a series without NaN: the exact
    budget, or one more where the float percentile of the next rank rounds
    down to the fraction. *)
Lemma n_recommended_budget (s : Series) (q : Q) :
  Forall valid (s_values s) -> (0 <= q)%Q -> (q <= 1)%Q ->
  representable q -> ranks_are_exact (length (s_values s)) ->
  (Qfloor (q * inject_Z (Z.of_nat (length (s_values s))))
   <= Z.of_nat (n_recommended (recommendation s (Fin q)))
   <= Qfloor (q * inject_Z (Z.of_nat (length (s_values s)))) + 1)%Z.
Proof.
  intros Hv H0 H1 Hq Hu. rewrite recommendation_by_rank_numbers by done.
  rewrite n_recommended_if.
  rewrite (countb_permutation _ _ _ (rank_numbers_permutation _ Hv)).
  set (n := length (s_values s)) in *.
  set (m := Qfloor (q * inject_Z (Z.of_nat n))).
  pose proof (budget_floor_range q n H0 H1) as Hm. fold m in Hm.
  pose proof (countb_budget
                (fun r => fle (percentile r n) (Fin q)) (Z.to_nat m) n) as Hc.
  destruct Hc as [Hc1 Hc2].
  - intros r Hr Hle. apply percentile_within; [lia|done|]. fold m. lia.
  - intros r Hr HP.
    pose proof (percentile_beyond r n q ltac:(lia) ltac:(lia) Hu HP) as Hb.
    fold m in Hb. lia.
  - lia.
Qed.

(** C3. For a fixed CATE series and treatment fractions [f1 <= f2], the
    inner function [recommendation] marks at least as many rows with 1.0
    under [f2] as under [f1]. *)
Theorem recommendation_monotone_in_fraction
  (cate_series : Series) (f1 f2 : fnum) :
  fle f1 f2 = true ->
  n_recommended (recommendation cate_series f1)
  <= n_recommended (recommendation cate_series f2).
Proof.
  intros Hle. unfold recommendation.
  rewrite !n_recommended_np_where. unfold series_le.
  rewrite !countb_map. apply countb_le_pointwise.
  intros r _ Hr. now apply fle_trans with f1.
Qed.

(** *** Columns of a table *)

Lemma lookup_store_col_eq (c : string) (v : list fnum) cols :
  lookup_col c (store_col c v cols) = Some v.
Proof.
  induction cols as [|[k w] cols IH]; simpl.
  - now rewrite decide_True.
  - destruct (decide (k = c)) as [->|Hne]; simpl.
    + now rewrite decide_True.
    + now rewrite decide_False.
Qed.

Lemma lookup_store_col_ne (c c' : string) (v : list fnum) cols :
  c <> c' -> lookup_col c' (store_col c v cols) = lookup_col c' cols.
Proof.
  intros Hne. induction cols as [|[k w] cols IH]; simpl.
  - now rewrite decide_False.
  - destruct (decide (k = c)) as [->|Hkc]; simpl.
    + now rewrite !decide_False.
    + destruct (decide (k = c')); [done|apply IH].
Qed.

Lemma well_formed_lookup (t : Table) (c : string) (v : list fnum) :
  well_formed t -> lookup_col c (t_columns t) = Some v -> length v = nrows t.
Proof.
  unfold well_formed. generalize (nrows t). intros n.
  induction (t_columns t) as [|[k w] cols IH]; simpl; [done|].
  intros Hwf. apply Forall_cons in Hwf as [Hw Hwf].
  destruct (decide (k = c)); [intros [= <-]; done|auto].
Qed.

Lemma partition_column_inr (p : partition) (tr te : Table) (c : string) v :
  partition_column p (Partitioned tr te) c = inr v <->
  lookup_col c (t_columns (part_of p tr te)) = Some v.
Proof.
  unfold partition_column, getitem.
  destruct p; simpl; destruct (lookup_col c _); simpl; split; congruence.
Qed.

Lemma recommendation_length (s : Series) (f : fnum) :
  length (recommendation s f) = length (s_values s).
Proof.
  unfold recommendation, np_where, series_le, rank, rank_first_descending.
  cbn [s_values]. now rewrite !length_map, length_seq.
Qed.

Lemma length_RangeIndex n : length (RangeIndex n) = n.
Proof. unfold RangeIndex. now rewrite length_map, length_seq. Qed.

Lemma rank_numbers_lookup (v : list fnum) (i r : nat) :
  rank_numbers v !! i = Some r -> i < length v /\ r = rank_number v i.
Proof.
  unfold rank_numbers. change (map ?f ?l) with (f <$> l).
  rewrite list_lookup_fmap. intros H.
  destruct (seq 0 (length v) !! i) as [k|] eqn:E; [|done].
  apply lookup_seq in E as [-> Hi]. simpl in H. split; [done|congruence].
Qed.

Lemma rank_numbers_order (v : list fnum) (i j : nat) vi vj ri rj :
  v !! i = Some vi -> v !! j = Some vj ->
  rank_numbers v !! i = Some ri -> rank_numbers v !! j = Some rj ->
  (flt vj vi = true -> ri < rj) /\ (feq vi vj = true -> i < j -> ri < rj).
Proof.
  intros Hvi Hvj Hri Hrj.
  apply rank_numbers_lookup in Hri as [Hi ->], Hrj as [Hj ->].
  assert (Hp : precedes v i j =
               (flt vj vi || (feq vi vj && Nat.ltb i j))).
  { unfold precedes. now rewrite (nth_lookup_Some _ _ NaN _ Hvi),
      (nth_lookup_Some _ _ NaN _ Hvj). }
  split.
  - intros H. apply rank_number_lt; [done|]. rewrite Hp, H. done.
  - intros H1 H2. apply rank_number_lt; [done|]. rewrite Hp, H1.
    apply Nat.ltb_lt in H2. rewrite H2. apply orb_true_r.
Qed.

(** C2 (as amended), for partitions whose CATE values are all numbers.
    [recommendation_by_cate] treats each partition on its own: the rows of a
    partition are ranked by CATE in descending order, equal values in their
    original order; a row is marked 1.0 exactly when its rank percentile,
    the float quotient [rank / N] that pandas computes, is at most the
    partition's treatment fraction [q]; and for a fraction in [0, 1] on a
    partition of at most 2^53 rows the number of marked rows differs from
    [round (q * N)] by at most one.  (With NaN among the CATE values the
    budget fails, see [recommendation_budget_fails_with_nan].) *)
Theorem recommendation_by_cate_budget
  (tr te : Table) (a : Args) (fractions : TreatmentFractions)
  (cate_train cate_test : list fnum) :
  range_indexed tr -> range_indexed te ->
  well_formed tr -> well_formed te ->
  partition_column train (Partitioned tr te) (col_cate a) = inr cate_train ->
  partition_column test (Partitioned tr te) (col_cate a) = inr cate_test ->
  exists d',
    recommendation_by_cate (Partitioned tr te) a fractions = inr d' /\
    forall (p : partition) (cate : list fnum) (q : Q),
      partition_column p (Partitioned tr te) (col_cate a) = inr cate ->
      Forall valid cate ->
      fraction_of p fractions = Fin q ->
      exists (ranks : list nat) (rec : list fnum),
        partition_column p d' (col_recommendation a) = inr rec /\
        Permutation ranks (seq 1 (length cate)) /\
        (forall i j vi vj ri rj,
            cate !! i = Some vi -> cate !! j = Some vj ->
            ranks !! i = Some ri -> ranks !! j = Some rj ->
            (flt vj vi = true -> ri < rj) /\
            (feq vi vj = true -> i < j -> ri < rj)) /\
        rec = map (fun r => if fle (percentile r (length cate)) (Fin q)
                            then one else zero) ranks /\
        ((0 <= q)%Q -> (q <= 1)%Q ->
         representable q -> ranks_are_exact (length cate) ->
         (Z.abs (Z.of_nat (n_recommended rec)
                 - py_round (q * inject_Z (Z.of_nat (length cate)))) <= 1)%Z).
Proof.
  intros Itr Ite Wtr Wte Htr Hte.
  apply partition_column_inr in Htr, Hte. simpl in Htr, Hte.
  pose proof (well_formed_lookup _ _ _ Wtr Htr) as Ltr.
  pose proof (well_formed_lookup _ _ _ Wte Hte) as Lte.
  set (str := {| s_index := t_index tr; s_values := cate_train |}).
  set (ste := {| s_index := t_index te; s_values := cate_test |}).
  set (rtr := recommendation str (tf_train fractions)).
  set (rte := recommendation ste (tf_test fractions)).
  exists (Partitioned
            {| t_index := t_index tr;
               t_columns := store_col (col_recommendation a) rtr (t_columns tr) |}
            {| t_index := t_index te;
               t_columns := store_col (col_recommendation a) rte (t_columns te) |}).
  split.
  - unfold recommendation_by_cate, df_getitem, getitem.
    rewrite Htr, Hte. cbn [ebind series_xs]. fold str ste rtr rte.
    unfold concat_train_test, df_set_series. cbn [s_index s_values].
    assert (Lr1 : length rtr = nrows tr)
      by (unfold rtr; now rewrite recommendation_length).
    assert (Lr2 : length rte = nrows te)
      by (unfold rte; now rewrite recommendation_length).
    rewrite decide_True by (rewrite Lr1, Lr2; done).
    unfold set_values. rewrite !decide_True by done. done.
  - intros p cate q Hc Hv Hq.
    apply partition_column_inr in Hc.
    assert (Hrec : exists s, s_values s = cate /\
              fraction_of p fractions = Fin q /\
              partition_column p
                (Partitioned
                   {| t_index := t_index tr;
                      t_columns := store_col (col_recommendation a) rtr (t_columns tr) |}
                   {| t_index := t_index te;
                      t_columns := store_col (col_recommendation a) rte (t_columns te) |})
                (col_recommendation a) = inr (recommendation s (fraction_of p fractions))).
    { destruct p; simpl in Hc.
      - exists str. split; [simpl; congruence|]. split; [done|].
        apply partition_column_inr. simpl. apply lookup_store_col_eq.
      - exists ste. split; [simpl; congruence|]. split; [done|].
        apply partition_column_inr. simpl. apply lookup_store_col_eq. }
    destruct Hrec as (s & Hs & Hf & Hcol). rewrite Hf in Hcol.
    subst cate.
    exists (rank_numbers (s_values s)), (recommendation s (Fin q)).
    split; [done|]. split; [now apply rank_numbers_permutation|].
    split; [intros *; apply rank_numbers_order|].
    split; [now apply recommendation_by_rank_numbers|].
    intros H0 H1 Hrep Hexact.
    pose proof (n_recommended_budget s q Hv H0 H1 Hrep Hexact).
    pose proof (py_round_floor (q * inject_Z (Z.of_nat (length (s_values s))))).
    lia.
Qed.

(** *** Running the method monad *)

Lemma run_bind {E A B : Type} (m : ME E A) (k : A -> ME E B) (w w' : world)
  (a : A) :
  m w = (inr a, w') -> bind m k w = k a w'.
Proof. unfold bind. now intros ->. Qed.

Lemma run_bind_raise {E A B : Type} (m : ME E A) (k : A -> ME E B)
  (w w' : world) (e : E) :
  m w = (inl e, w') -> bind m k w = (inl e, w').
Proof. unfold bind. now intros ->. Qed.

Lemma run_during {S A : Type} (s : S) (m : M A) (w w' : world) (a : A) :
  m w = (inr a, w') -> during s m w = (inr a, w').
Proof. unfold during. now intros ->. Qed.

Lemma run_during_raise {S A : Type} (s : S) (m : M A) (w w' : world) (e : exn) :
  m w = (inl e, w') -> during s m w = (inl (e, s), w').
Proof. unfold during. now intros ->. Qed.

Lemma run_deref_df (l : loc) (w : world) (d : DataFrame) :
  heap w !! l = Some (PyDataFrame d) -> deref_df l w = (inr d, w).
Proof. unfold deref_df, deref, bind. now intros ->. Qed.

Lemma run_invoke {A : Type} (c : call) (r : exn + A) (w : world) :
  invoke c r w = (r, logged c w).
Proof. reflexivity. Qed.

Lemma run_store (l : loc) (o : pyobj) (w : world) :
  store l o w = (inr tt, stored l o w).
Proof. reflexivity. Qed.

Lemma set_values_inr (t : Table) (c : string) (v : list fnum) :
  length v = nrows t ->
  set_values t c v =
  inr {| t_index := t_index t; t_columns := store_col c v (t_columns t) |}.
Proof. intros H. unfold set_values. now rewrite decide_True. Qed.

(** One step of a method whose first action returns. *)
Ltac run_step :=
  erewrite run_bind;
  [| first [ apply run_deref_df; eassumption
           | apply run_invoke
           | apply run_store
           | apply run_during;
             first [ apply run_deref_df; eassumption
                   | apply run_invoke
                   | apply run_store
                   | reflexivity ]
           | reflexivity ] ].

(** C1. After [estimate_cate_by_2_models], the CATE column of the combined
    table holds, for every row, the probability predicted by the treated-arm
    model minus the probability predicted by the untreated-arm model; the
    row's own treatment plays no part. *)
Theorem estimate_cate_by_2_models_difference
  (self : CausalLift) (verbose : option Z) (w : world) (tr te : Table)
  (pt pu : Series) :
  heap w !! df self = Some (PyDataFrame (Partitioned tr te)) ->
  predict_proba Treated (args self) (Partitioned tr te) (model_treated self)
    = inr pt ->
  predict_proba Untreated (args self) (Partitioned tr te) (model_untreated self)
    = inr pu ->
  s_index pt = s_index pu ->
  length (s_values pt) = nrows tr + nrows te ->
  length (s_values pu) = nrows tr + nrows te ->
  exists self' tables w' d' cate,
    estimate_cate_by_2_models self verbose w = (inr (self', tables), w') /\
    df self' = df self /\
    heap w' !! df self = Some (PyDataFrame d') /\
    xs train d' = inr (fst tables) /\
    xs test d' = inr (snd tables) /\
    df_values d' (col_cate (args self)) = inr cate /\
    length cate = nrows tr + nrows te /\
    forall i x y,
      s_values pt !! i = Some x -> s_values pu !! i = Some y ->
      cate !! i = Some (fsub x y).
Proof.
  intros Hdf Hpt Hpu Hidx Lpt Lpu.
  set (cate := zip_with fsub (s_values pt) (s_values pu)).
  assert (Lc : length cate = nrows tr + nrows te).
  { unfold cate. rewrite length_zip_with. lia. }
  set (tr' := {| t_index := t_index tr;
                 t_columns := store_col (col_cate (args self))
                                (firstn (nrows tr) cate) (t_columns tr) |}).
  set (te' := {| t_index := t_index te;
                 t_columns := store_col (col_cate (args self))
                                (skipn (nrows tr) cate) (t_columns te) |}).
  set (c := {| s_index := s_index pt; s_values := cate |}).
  exists (set_train_test (set_cate_estimated self c) tr' te'), (tr', te').
  eexists. exists (Partitioned tr' te'), cate.
  split.
  - unfold estimate_cate_by_2_models.
    run_step. rewrite Hpt, Hpu. do 2 run_step.
    unfold series_binop. rewrite decide_True by done. fold cate c.
    run_step.
    cbn [set_cate_estimated df args s_values c].
    unfold df_set_values. rewrite decide_True by done.
    rewrite !set_values_inr
      by (rewrite ?length_take, ?length_drop; unfold nrows in *; lia).
    fold tr' te'. do 2 run_step.
    unfold _separate_train_test. cbn [df].
    erewrite run_bind
      by (apply run_during, run_deref_df; cbn [stored heap];
          apply lookup_insert_eq).
    do 2 run_step. reflexivity.
  - split; [reflexivity|]. split; [cbn; apply lookup_insert_eq|].
    split; [reflexivity|]. split; [reflexivity|].
    split.
    + unfold df_values, getitem. cbn [tr' te' t_columns].
      rewrite !lookup_store_col_eq. cbn. now rewrite firstn_skipn.
    + split; [done|]. intros i x y Hx Hy. unfold cate.
      rewrite lookup_zip_with, Hx, Hy. reflexivity.
Qed.

(** *** The aggregated impact table *)

Lemma setitem_series_columns (t : Table) (c : string) (s : Series) :
  t_columns t <> [] -> s_index s = t_index t ->
  length (s_values s) = nrows t ->
  setitem_series t c s =
  inr {| t_index := t_index t;
         t_columns := store_col c (s_values s) (t_columns t) |}.
Proof.
  intros Hne Hidx Hlen. unfold setitem_series.
  destruct (t_index t) eqn:Ei, (t_columns t) eqn:Ec; try done;
    rewrite decide_True by done; rewrite <- ?Ei, <- ?Ec;
    unfold set_values; rewrite decide_True by done; now rewrite ?Ei, ?Ec.
Qed.

Lemma series_binop_inr (op : fnum -> fnum -> fnum) (a b : Series) :
  s_index a = s_index b ->
  series_binop op a b =
  inr {| s_index := s_index a;
         s_values := zip_with op (s_values a) (s_values b) |}.
Proof. intros H. unfold series_binop. now rewrite decide_True. Qed.

Lemma aggregate_impact_inr (t u : Table) tn0 tr0 tn1 tr1 un0 ur0 un1 ur1 :
  arm_columns t tn0 tr0 tn1 tr1 -> arm_columns u un0 ur0 un1 ur1 ->
  t_index t = t_index u ->
  aggregate_impact t u =
  inr {| t_index := t_index t;
         t_columns :=
           [(n_samples, zip_with fadd tn0 un0);
            (rate_without, weighted_rate tn0 tr0 un0 ur0);
            (rate_with, weighted_rate tn1 tr1 un1 ur1);
            (improvement_rate,
             zip_with fdiv (weighted_rate tn1 tr1 un1 ur1)
                           (weighted_rate tn0 tr0 un0 ur0))] |}.
Proof.
  intros [T1 T2 T3 T4 L1 L2 L3 L4] [U1 U2 U3 U4 M1 M2 M3 M4] Hidx.
  assert (Hn : nrows u = nrows t) by (unfold nrows; now rewrite Hidx).
  rewrite Hn in *.
  unfold aggregate_impact, getitem.
  rewrite T1, T2, T3, T4, U1, U2, U3, U4.
  repeat (cbn [ebind s_index s_values];
          rewrite series_binop_inr by (cbn [s_index]; congruence)).
  cbn [ebind s_index s_values].
  unfold setitem_series at 1. cbn [t_index t_columns ebind s_index s_values].
  fold (weighted_rate tn0 tr0 un0 ur0) (weighted_rate tn1 tr1 un1 ur1).
  assert (W0 : length (weighted_rate tn0 tr0 un0 ur0) = nrows t)
    by (unfold weighted_rate; rewrite !length_zip_with; lia).
  assert (W1 : length (weighted_rate tn1 tr1 un1 ur1) = nrows t)
    by (unfold weighted_rate; rewrite !length_zip_with; lia).
  rewrite setitem_series_columns by done.
  cbn [ebind t_index t_columns s_values store_col].
  case_decide; [done|].
  rewrite setitem_series_columns by done.
  cbn [ebind t_index t_columns s_values store_col].
  repeat (case_decide; [done|]).
  cbn [lookup_col].
  repeat (case_decide; try done).
  cbn [ebind]. rewrite series_binop_inr by done.
  cbn [ebind s_index s_values].
  rewrite setitem_series_columns;
    [| done | done
     | unfold nrows in *; cbn [s_values t_index]; rewrite length_zip_with; lia].
  cbn [ebind t_index t_columns s_values store_col].
  repeat (case_decide; [done|]). reflexivity.
Qed.

Lemma weighted_mean_bounds (a b x y : Q) :
  (0 <= a)%Q -> (0 <= b)%Q -> (0 < a + b)%Q -> (x <= y)%Q ->
  (x <= (a * x + b * y) / (a + b))%Q /\ ((a * x + b * y) / (a + b) <= y)%Q.
Proof.
  intros Ha Hb Hab Hxy. split.
  - apply Qle_shift_div_l; [done|]. nra.
  - apply Qle_shift_div_r; [done|]. nra.
Qed.

Lemma weighted_mean_min_max (a b x y : Q) :
  (0 <= a)%Q -> (0 <= b)%Q -> (0 < a + b)%Q ->
  (Qmin x y <= (a * x + b * y) / (a + b))%Q /\
  ((a * x + b * y) / (a + b) <= Qmax x y)%Q.
Proof.
  intros Ha Hb Hab. destruct (Qlt_le_dec y x) as [H|H].
  - apply Qlt_le_weak in H.
    rewrite (Q.min_r x y H), (Q.max_l x y H).
    assert (E : ((a * x + b * y) / (a + b) == (b * y + a * x) / (b + a))%Q).
    { field. intros E. lra. }
    rewrite E. apply weighted_mean_bounds; try done. lra.
  - rewrite (Q.min_l x y H), (Q.max_r x y H).
    now apply weighted_mean_bounds.
Qed.

(** The float value of a count-weighted mean of two rates that lie in
    [lo, hi], [0 <= lo]: each of the five operations rounds, and the result
    stays within a few unit roundoffs of the interval. *)
Lemma rounded_mean_bounds (a b x y lo hi : Q) :
  (0 <= a)%Q -> (0 <= b)%Q -> (0 < a + b)%Q -> (0 <= lo)%Q ->
  (lo <= x <= hi)%Q -> (lo <= y <= hi)%Q ->
  (lo * (1 - 4 * unit_roundoff)
   <= rnd (rnd (rnd (a * x) + rnd (b * y)) / rnd (a + b))
   /\ rnd (rnd (rnd (a * x) + rnd (b * y)) / rnd (a + b))
      <= hi * (1 + 5 * unit_roundoff))%Q.
Proof.
  intros Ha Hb Hab Hlo [Hx1 Hx2] [Hy1 Hy2].
  destruct unit_roundoff_range as [U0 U1].
  set (u := unit_roundoff) in *.
  assert (Hax : (0 <= a * x)%Q) by nra.
  assert (Hby : (0 <= b * y)%Q) by nra.
  destruct (rnd_bounds _ Hax) as [P1 P2]. fold u in P1, P2.
  destruct (rnd_bounds _ Hby) as [Q1 Q2]. fold u in Q1, Q2.
  set (p := rnd (a * x)) in *. set (q := rnd (b * y)) in *.
  assert (Hp : (0 <= p)%Q) by nra. assert (Hq : (0 <= q)%Q) by nra.
  assert (Hpq : (0 <= p + q)%Q) by lra.
  destruct (rnd_bounds _ Hpq) as [S1 S2]. fold u in S1, S2.
  set (s := rnd (p + q)) in *.
  assert (Hs : (0 <= s)%Q) by nra.
  destruct (rnd_bounds (a + b)) as [D1 D2]; [lra|]. fold u in D1, D2.
  set (d := rnd (a + b)) in *.
  assert (Hd : (0 < d)%Q) by nra.
  assert (Hw : (0 <= s / d)%Q) by (apply Qle_shift_div_l; [done|lra]).
  assert (Ew : (s / d * d == s)%Q) by (field; lra).
  destruct (rnd_bounds _ Hw) as [Z1 Z2]. fold u in Z1, Z2.
  set (w := (s / d)%Q) in *. set (z := rnd w) in *.
  assert (E1 : (lo * (a + b) <= a * x + b * y)%Q) by nra.
  assert (E2 : (a * x + b * y <= hi * (a + b))%Q) by nra.
  assert (Hhi : (0 <= hi)%Q) by lra.
  assert (F1 : (lo * (a + b) * ((1 - u) * (1 - u)) <= s)%Q).
  { assert ((a * x + b * y) * (1 - u) <= p + q)%Q by nra.
    assert (lo * (a + b) * (1 - u) <= p + q)%Q by nra.
    nra. }
  assert (F2 : (s <= hi * (a + b) * ((1 + u) * (1 + u)))%Q).
  { assert (p + q <= (a * x + b * y) * (1 + u))%Q by nra.
    assert (p + q <= hi * (a + b) * (1 + u))%Q by nra.
    nra. }
  assert (G1 : (lo * ((1 - u) * (1 - u)) <= w * (1 + u))%Q).
  { assert (w * ((a + b) * (1 + u)) >= s)%Q by nra.
    assert (lo * ((1 - u) * (1 - u)) * (a + b) <= w * (1 + u) * (a + b))%Q
      by nra.
    apply (Qmult_le_r _ _ (a + b)); [done|]. lra. }
  assert (G2 : (w * (1 - u) <= hi * ((1 + u) * (1 + u)))%Q).
  { assert (w * ((a + b) * (1 - u)) <= s)%Q by nra.
    assert (w * (1 - u) * (a + b) <= hi * ((1 + u) * (1 + u)) * (a + b))%Q
      by nra.
    apply (Qmult_le_r _ _ (a + b)); [done|]. lra. }
  split.
  - assert (lo * ((1 - u) * (1 - u) * (1 - u)) <= z * (1 + u))%Q by nra.
    assert (lo * (1 - 4 * u) * (1 + u)
            <= lo * ((1 - u) * (1 - u) * (1 - u)))%Q.
    { assert ((1 - 4 * u) * (1 + u) <= (1 - u) * (1 - u) * (1 - u))%Q by nra.
      nra. }
    apply (Qmult_le_r _ _ (1 + u)); [lra|]. lra.
  - assert (z * (1 - u) <= hi * ((1 + u) * (1 + u) * (1 + u)))%Q by nra.
    assert (hi * ((1 + u) * (1 + u) * (1 + u))
            <= hi * (1 + 5 * u) * (1 - u))%Q.
    { assert ((1 + u) * (1 + u) * (1 + u) <= (1 + 5 * u) * (1 - u))%Q by nra.
      nra. }
    apply (Qmult_le_r _ _ (1 - u)); [lra|]. lra.
Qed.

(** The float mean of one row, for counts and rates that are numbers. *)
Lemma rounded_mean_row (a b x y : Q) :
  (0 <= a)%Q -> (0 <= b)%Q -> (0 < a + b)%Q -> (0 <= x)%Q -> (0 <= y)%Q ->
  exists z,
    fdiv (fadd (fmul (Fin a) (Fin x)) (fmul (Fin b) (Fin y)))
         (fadd (Fin a) (Fin b)) = Fin z /\
    (Qmin x y * (1 - 4 * unit_roundoff) <= z)%Q /\
    (z <= Qmax x y * (1 + 5 * unit_roundoff))%Q.
Proof.
  intros Ha Hb Hab Hx Hy.
  exists (rnd (rnd (rnd (a * x) + rnd (b * y)) / rnd (a + b))). split.
  - cbn [fmul fadd fdiv].
    destruct (Qeq_bool (rnd (a + b)) 0) eqn:E; [|done].
    apply Qeq_bool_iff in E. pose proof (rnd_pos _ Hab). lra.
  - apply rounded_mean_bounds; try done.
    + apply Q.min_glb; done.
    + split; [apply Q.le_min_l|apply Q.le_max_l].
    + split; [apply Q.le_min_r|apply Q.le_max_r].
Qed.

Lemma weighted_rate_lookup (n_t r_t n_u r_u : list fnum) (i : nat) a x b y :
  n_t !! i = Some a -> r_t !! i = Some x ->
  n_u !! i = Some b -> r_u !! i = Some y ->
  weighted_rate n_t r_t n_u r_u !! i =
  Some (fdiv (fadd (fmul a x) (fmul b y)) (fadd a b)).
Proof.
  intros Ha Hx Hb Hy. unfold weighted_rate.
  rewrite !lookup_zip_with, Ha, Hx, Hb, Hy. reflexivity.
Qed.

(** C4 (as amended). In the aggregated impact table, '# samples' is the
    float sum of the two arms' sample counts, exactly their sum wherever
    that is a float (counts below 2^53), and the overall observed rate is
    the count-weighted mean of the two arms' observed rates as the five
    float operations compute it.  In a row where the counts are non-negative
    numbers with a positive sum and both rates are non-negative numbers, it
    lies between the smaller and the larger of the two up to rounding: not
    below [min * (1 - 4u)] and not above [max * (1 + 5u)], for the unit
    roundoff [u]. *)
Theorem aggregate_impact_weighted_average
  (t u : Table) (tn0 tr0 tn1 tr1 un0 ur0 un1 ur1 : list fnum) :
  arm_columns t tn0 tr0 tn1 tr1 -> arm_columns u un0 ur0 un1 ur1 ->
  t_index t = t_index u ->
  exists e samples observed,
    aggregate_impact t u = inr e /\
    lookup_col n_samples (t_columns e) = Some samples /\
    lookup_col rate_without (t_columns e) = Some observed /\
    length samples = nrows t /\ length observed = nrows t /\
    (forall i a b,
        tn0 !! i = Some a -> un0 !! i = Some b ->
        samples !! i = Some (fadd a b)) /\
    (forall i (a b : Q),
        tn0 !! i = Some (Fin a) -> un0 !! i = Some (Fin b) ->
        representable (a + b) ->
        exists n, samples !! i = Some (Fin n) /\ (n == a + b)%Q) /\
    (forall i a x b y,
        tn0 !! i = Some a -> tr0 !! i = Some x ->
        un0 !! i = Some b -> ur0 !! i = Some y ->
        observed !! i = Some (fdiv (fadd (fmul a x) (fmul b y)) (fadd a b))) /\
    (forall i (a x b y : Q),
        tn0 !! i = Some (Fin a) -> tr0 !! i = Some (Fin x) ->
        un0 !! i = Some (Fin b) -> ur0 !! i = Some (Fin y) ->
        (0 <= a)%Q -> (0 <= b)%Q -> (0 < a + b)%Q ->
        (0 <= x)%Q -> (0 <= y)%Q ->
        exists z,
          observed !! i = Some (Fin z) /\
          (Qmin x y * (1 - 4 * unit_roundoff) <= z)%Q /\
          (z <= Qmax x y * (1 + 5 * unit_roundoff))%Q).
Proof.
  intros Ht Hu Hidx.
  pose proof (aggregate_impact_inr _ _ _ _ _ _ _ _ _ _ Ht Hu Hidx) as He.
  destruct Ht as [T1 T2 T3 T4 L1 L2 L3 L4], Hu as [U1 U2 U3 U4 M1 M2 M3 M4].
  assert (Hn : nrows u = nrows t) by (unfold nrows; now rewrite Hidx).
  eexists. exists (zip_with fadd tn0 un0), (weighted_rate tn0 tr0 un0 ur0).
  split; [exact He|]. cbn [t_columns lookup_col].
  split; [now rewrite decide_True|].
  split; [repeat (case_decide; try done)|].
  split; [rewrite length_zip_with; lia|].
  split; [unfold weighted_rate; rewrite !length_zip_with; lia|].
  split; [|split; [|split]].
  - intros i a b Ha Hb. now rewrite lookup_zip_with, Ha, Hb.
  - intros i a b Ha Hb Hrep. exists (rnd (a + b)).
    split; [now rewrite lookup_zip_with, Ha, Hb|exact Hrep].
  - intros i a x b y Ha Hx Hb Hy. now apply weighted_rate_lookup.
  - intros i a x b y Ha Hx Hb Hy A0 B0 AB X0 Y0.
    destruct (rounded_mean_row a b x y A0 B0 AB X0 Y0) as (z & Ez & Hz).
    exists z. split; [|exact Hz].
    now rewrite (weighted_rate_lookup _ _ _ _ _ _ _ _ _ Ha Hx Hb Hy), Ez.
Qed.

(** C5. The aggregation returns a table (no exception) in which the
    predicted and the observed rate have one value per row, each the
    count-weighted mean of the two arms' rates, and the predicted
    improvement rate is the predicted rate divided by the observed rate, row
    by row; where the observed rate is zero the entry is not a finite
    number: an infinity, or NaN. *)
Theorem improvement_rate_undefined_on_zero_baseline
  (t u : Table) (tn0 tr0 tn1 tr1 un0 ur0 un1 ur1 : list fnum) :
  arm_columns t tn0 tr0 tn1 tr1 -> arm_columns u un0 ur0 un1 ur1 ->
  t_index t = t_index u ->
  exists e predicted observed improvement,
    aggregate_impact t u = inr e /\
    lookup_col rate_with (t_columns e) = Some predicted /\
    lookup_col rate_without (t_columns e) = Some observed /\
    lookup_col improvement_rate (t_columns e) = Some improvement /\
    length predicted = nrows t /\ length observed = nrows t /\
    length improvement = nrows t /\
    (forall i a x b y,
        tn1 !! i = Some a -> tr1 !! i = Some x ->
        un1 !! i = Some b -> ur1 !! i = Some y ->
        predicted !! i = Some (fdiv (fadd (fmul a x) (fmul b y)) (fadd a b))) /\
    (forall i a x b y,
        tn0 !! i = Some a -> tr0 !! i = Some x ->
        un0 !! i = Some b -> ur0 !! i = Some y ->
        observed !! i = Some (fdiv (fadd (fmul a x) (fmul b y)) (fadd a b))) /\
    (forall i, i < nrows t ->
        exists p o,
          predicted !! i = Some p /\ observed !! i = Some o /\
          improvement !! i = Some (fdiv p o) /\
          (feq o zero = true -> is_finite (fdiv p o) = false)).
Proof.
  intros Ht Hu Hidx.
  pose proof (aggregate_impact_inr _ _ _ _ _ _ _ _ _ _ Ht Hu Hidx) as He.
  destruct Ht as [T1 T2 T3 T4 L1 L2 L3 L4], Hu as [U1 U2 U3 U4 M1 M2 M3 M4].
  assert (Hn : nrows u = nrows t) by (unfold nrows; now rewrite Hidx).
  assert (Lp : length (weighted_rate tn1 tr1 un1 ur1) = nrows t)
    by (unfold weighted_rate; rewrite !length_zip_with; lia).
  assert (Lo : length (weighted_rate tn0 tr0 un0 ur0) = nrows t)
    by (unfold weighted_rate; rewrite !length_zip_with; lia).
  eexists. exists (weighted_rate tn1 tr1 un1 ur1),
    (weighted_rate tn0 tr0 un0 ur0),
    (zip_with fdiv (weighted_rate tn1 tr1 un1 ur1)
                   (weighted_rate tn0 tr0 un0 ur0)).
  split; [exact He|]. cbn [t_columns lookup_col].
  split; [repeat (case_decide; try done)|].
  split; [repeat (case_decide; try done)|].
  split; [repeat (case_decide; try done)|].
  split; [exact Lp|]. split; [exact Lo|].
  split; [rewrite length_zip_with; lia|].
  split; [intros i a x b y; apply weighted_rate_lookup|].
  split; [intros i a x b y; apply weighted_rate_lookup|].
  intros i Hi.
  destruct (lookup_lt_is_Some_2 (weighted_rate tn1 tr1 un1 ur1) i) as [p Hp];
    [lia|].
  destruct (lookup_lt_is_Some_2 (weighted_rate tn0 tr0 un0 ur0) i) as [o Ho];
    [lia|].
  exists p, o. split; [exact Hp|]. split; [exact Ho|].
  split; [now rewrite lookup_zip_with, Hp, Ho|].
  intros Hz. destruct o as [b|s|]; try discriminate Hz. cbn in Hz.
  destruct p as [a|s|]; cbn; [|done|done].
  rewrite Hz. now destruct (Qeq_bool a 0).
Qed.

(** *** The constructor *)

Lemma run_deref (l : loc) (w : world) (o : pyobj) :
  heap w !! l = Some o -> deref l w = (inr o, w).
Proof. unfold deref. now intros ->. Qed.

(** C6. When either argument of the constructor is not a [pd.DataFrame],
    or the two tables have different sets of column names, construction
    fails with [AssertionError] at once: nothing is called, and the store is
    left as it was. *)
Theorem init_rejects_schema_mismatch
  (train_ref test_ref : loc) (kwargs : list kwarg) (w : world)
  (o1 o2 : pyobj) :
  heap w !! train_ref = Some o1 ->
  heap w !! test_ref = Some o2 ->
  is_DataFrame o1 = false \/ is_DataFrame o2 = false
  \/ column_set o1 <> column_set o2 ->
  __init__ train_ref test_ref kwargs w = (inl AssertionError, w).
Proof.
  intros H1 H2 Hbad. unfold __init__.
  erewrite run_bind by (apply run_deref; eassumption).
  erewrite run_bind by (apply run_deref; eassumption).
  destruct o1 as [d1|], o2 as [d2|]; try reflexivity.
  destruct Hbad as [Hb|[Hb|Hb]]; try discriminate Hb.
  rewrite bool_decide_eq_false_2; [reflexivity|].
  intros E. apply Hb. cbn. now rewrite E.
Qed.

Lemma fresh_lookup_None (h : gmap loc pyobj) : h !! fresh (dom h) = None.
Proof. apply not_elem_of_dom, is_fresh. Qed.

Lemma alloc_subseteq (h : gmap loc pyobj) (o : pyobj) :
  h ⊆ <[fresh (dom h) := o]> h.
Proof. apply insert_subseteq, fresh_lookup_None. Qed.

Lemma no_estimate_propensity_in (cs : list call) :
  Forall (fun c => match c with
                   | call_estimate_propensity _ _ => False
                   | _ => True
                   end) cs ->
  ~ calls_estimate_propensity cs.
Proof.
  intros H (l1 & l2 & Hin). rewrite Forall_forall in H.
  apply (H _ (proj2 (list_elem_of_In _ _) Hin)).
Qed.

(** What the second half of the constructor does to the store and the log. *)
Lemma init_session_effect (args1 : Args) (l1 l2 : loc) (w w' : world)
  (r : exn + CausalLift) :
  init_session args1 l1 l2 w = (r, w') ->
  (exists cs, calls w' = calls w ++ cs /\ ~ calls_estimate_propensity cs) /\
  heap w ⊆ heap w' /\
  (forall self, r = inr self ->
     exists t1 t2,
       heap w !! l1 = Some (PyDataFrame (Flat t1)) /\
       heap w !! l2 = Some (PyDataFrame (Flat t2)) /\
       df self = fresh (dom (heap w)) /\
       heap w' = <[df self := PyDataFrame (Partitioned t1 t2)]> (heap w) /\
       train_df self = t1 /\ test_df self = t2 /\ args self = args1).
Proof.
  unfold init_session, concat_train_test_df, deref_df, deref, invoke, bind,
    log, lift, alloc, ret, raise.
  intros H. cbn [heap calls] in H.
  repeat (case_match; simplify_eq/=);
    (split;
     [ eexists; split;
       [ rewrite <- ?app_assoc; reflexivity
       | apply no_estimate_propensity_in; repeat constructor ]
     | split; [ first [ reflexivity | apply alloc_subseteq ] | ] ]);
    try (by intros ? [=]).
  intros self [= <-]. cbn.
  match goal with
  | H : <[_ := _]> _ !! _ = Some _ |- _ =>
      rewrite lookup_insert_eq in H; injection H as <-
  end.
  simplify_eq/=. eauto 10.
Qed.

Lemma set_kwarg_cols_features (a : Args) (v : option (list string)) :
  enable_ipw (set_kwarg a (kw_cols_features v)) = enable_ipw a /\
  col_propensity (set_kwarg a (kw_cols_features v)) = col_propensity a.
Proof. now destruct a. Qed.

Lemma columns_df_reset_index (d : DataFrame) :
  columns (df_reset_index d) = df_columns d.
Proof.
  destruct d as [t|tr te]; [reflexivity|].
  unfold df_reset_index, reset_index, vstack, columns. cbn.
  rewrite map_map. apply map_ext. now intros [c v].
Qed.

Lemma propensity_needed_bool (a : Args) (v : option (list string))
  (d : DataFrame) :
  enable_ipw (set_kwarg a (kw_cols_features v))
  && negb (bool_decide (col_propensity (set_kwarg a (kw_cols_features v))
                          ∈ columns (df_reset_index d))) = true
  <-> propensity_needed a d.
Proof.
  destruct (set_kwarg_cols_features a v) as [-> ->].
  rewrite columns_df_reset_index. unfold propensity_needed.
  rewrite andb_true_iff, negb_true_iff, bool_decide_eq_false. reflexivity.
Qed.

Lemma propensity_needed_same_columns (a : Args) (d1 d2 : DataFrame) :
  set_columns_of d1 = set_columns_of d2 ->
  propensity_needed a d1 <-> propensity_needed a d2.
Proof.
  intros H. unfold propensity_needed.
  assert (E : col_propensity a ∈ df_columns d1 <->
              col_propensity a ∈ df_columns d2).
  { rewrite <- !(elem_of_list_to_set (C := gset string)).
    unfold set_columns_of in H. now rewrite H. }
  tauto.
Qed.


Lemma subseteq_fresh_ne (h0 h : gmap loc pyobj) (l : loc) (o : pyobj) :
  h0 ⊆ h -> h0 !! l = Some o -> l <> fresh (dom h).
Proof.
  intros Hsub Hl ->.
  pose proof (lookup_weaken _ _ _ _ Hl Hsub) as H.
  now rewrite fresh_lookup_None in H.
Qed.

Lemma calls_estimate_propensity_app (cs cs' : list call) :
  ~ calls_estimate_propensity cs' ->
  calls_estimate_propensity (cs ++ cs') <-> calls_estimate_propensity cs.
Proof.
  intros Hno. unfold calls_estimate_propensity in *. split.
  - intros (l1 & l2 & Hin). apply in_app_or in Hin as [Hin|Hin]; [eauto|].
    exfalso. eauto.
  - intros (l1 & l2 & Hin). exists l1, l2. apply in_or_app. now left.
Qed.

(** What the middle of the constructor does to the store and the log. *)
Lemma init_tables_effect (args1 : Args) (d1 d2 : DataFrame) (w w' : world)
  (r : exn + CausalLift) :
  init_tables args1 d1 d2 w = (r, w') ->
  let needed := enable_ipw args1 = true /\ col_propensity args1 ∉ df_columns d1 in
  (exists cs, calls w' = calls w ++ cs /\
              (calls_estimate_propensity cs <-> needed)) /\
  (~ needed ->
   heap w ⊆ heap w' /\
   forall self, r = inr self ->
     heap w' !! df self =
       Some (PyDataFrame (Partitioned (df_reset_index d1) (df_reset_index d2))) /\
     train_df self = df_reset_index d1 /\
     test_df self = df_reset_index d2 /\
     heap w !! df self = None) /\
  (touches_only_its_tables ->
   heap w ⊆ heap w' /\
   forall self, r = inr self -> heap w !! df self = None).
Proof.
  intros Hrun needed. unfold init_tables in Hrun.
  erewrite run_bind in Hrun by reflexivity.
  erewrite run_bind in Hrun by reflexivity.
  assert (Hcond : enable_ipw args1
                  && negb (bool_decide
                             (col_propensity args1 ∈ columns (df_reset_index d1)))
                  = true <-> needed).
  { rewrite columns_df_reset_index. unfold needed.
    rewrite andb_true_iff, negb_true_iff, bool_decide_eq_false. reflexivity. }
  destruct (enable_ipw args1
            && negb (bool_decide
                       (col_propensity args1 ∈ columns (df_reset_index d1))))
    eqn:Eb.
  - (* estimate_propensity is called *)
    assert (Hn : needed) by now apply Hcond.
    unfold bind at 1, invoke_estimate_propensity, bind, log in Hrun.
    cbn [heap calls] in Hrun.
    set (train1 := fresh (dom (heap w))) in *.
    set (h2 := <[train1 := PyDataFrame (Flat (df_reset_index d1))]> (heap w)) in *.
    set (test1 := fresh (dom h2)) in *.
    set (h3 := <[test1 := PyDataFrame (Flat (df_reset_index d2))]> h2) in *.
    assert (H02 : heap w ⊆ h2) by apply alloc_subseteq.
    assert (H23 : h2 ⊆ h3) by apply alloc_subseteq.
    assert (H03 : heap w ⊆ h3) by (etrans; eassumption).
    destruct (estimate_propensity train1 test1 args1 h3) as [res h4] eqn:Eep.
    assert (Hframe : touches_only_its_tables -> heap w ⊆ h4).
    { intros Hf. apply map_subseteq_spec. intros l o Hl.
      apply (Hf _ _ _ _ _ _ Eep).
      - unfold train1. eapply subseteq_fresh_ne; [reflexivity|eassumption].
      - unfold test1. eapply subseteq_fresh_ne; eassumption.
      - eapply lookup_weaken; eassumption. }
    destruct res as [e|refs]; cbv beta iota in Hrun.
    + injection Hrun as <- <-. cbn [heap calls].
      split; [|split].
      * eexists. split; [reflexivity|]. split; [done|].
        intros _. exists train1, test1. now left.
      * intros Hnot. now destruct Hnot.
      * intros Hf. split; [now apply Hframe|]. intros ? [=].
    + apply init_session_effect in Hrun as ((cs & Hcs & Hno) & Hsub & Hself).
      cbn [heap calls] in *.
      split; [|split].
      * exists ([call_estimate_propensity train1 test1] ++ cs).
        split; [now rewrite Hcs, <- app_assoc|].
        rewrite calls_estimate_propensity_app by done.
        split; [done|]. intros _. exists train1, test1. now left.
      * intros Hnot. now destruct Hnot.
      * intros Hf. specialize (Hframe Hf).
        split; [etrans; eassumption|].
        intros self Hr. destruct (Hself self Hr) as (t1 & t2 & _ & _ & Hdf & _).
        rewrite Hdf. destruct (heap w !! fresh (dom h4)) as [o|] eqn:E; [|done].
        exfalso. eapply (subseteq_fresh_ne (heap w) h4); eauto.
  - (* the tables go on as they are *)
    assert (Hn : ~ needed) by (intros Hn; apply Hcond in Hn; congruence).
    erewrite run_bind in Hrun by reflexivity. cbn [fst snd heap calls] in Hrun.
    set (train1 := fresh (dom (heap w))) in *.
    set (h2 := <[train1 := PyDataFrame (Flat (df_reset_index d1))]> (heap w)) in *.
    set (test1 := fresh (dom h2)) in *.
    set (h3 := <[test1 := PyDataFrame (Flat (df_reset_index d2))]> h2) in *.
    assert (H02 : heap w ⊆ h2) by apply alloc_subseteq.
    assert (H23 : h2 ⊆ h3) by apply alloc_subseteq.
    assert (H03 : heap w ⊆ h3) by (etrans; eassumption).
    apply init_session_effect in Hrun as ((cs & Hcs & Hno) & Hsub & Hself).
    cbn [heap calls] in *.
    assert (Hfresh : forall self, r = inr self -> heap w !! df self = None).
    { intros self Hr. destruct (Hself self Hr) as (t1 & t2 & _ & _ & Hdf & _).
      rewrite Hdf. destruct (heap w !! fresh (dom h3)) as [o|] eqn:E; [|done].
      exfalso. eapply (subseteq_fresh_ne (heap w) h3); eauto. }
    split; [|split].
    + exists cs. split; [done|]. tauto.
    + intros _. split; [etrans; eassumption|].
      intros self Hr.
      destruct (Hself self Hr) as (t1 & t2 & Ht1 & Ht2 & Hdf & Hh & Htr & Hte & _).
      assert (test1 <> train1).
      { unfold test1. intros E. pose proof (fresh_lookup_None h2) as Hnone.
        rewrite E in Hnone. unfold h2 in Hnone.
        now rewrite lookup_insert_eq in Hnone. }
      unfold h3 in Ht1, Ht2. rewrite lookup_insert_ne in Ht1 by done.
      unfold h2 in Ht1. rewrite lookup_insert_eq in Ht1, Ht2.
      injection Ht1 as <-. injection Ht2 as <-.
      rewrite Hh, lookup_insert_eq. auto.
    + intros _. split; [etrans; eassumption|done].
Qed.

(** With two tables over the same column names the constructor gets past
    its assertions and goes on with [init_tables]. *)
Lemma init_unfold (train_ref test_ref : loc) (kwargs : list kwarg) (w : world)
  (d1 d2 : DataFrame) :
  heap w !! train_ref = Some (PyDataFrame d1) ->
  heap w !! test_ref = Some (PyDataFrame d2) ->
  set_columns_of d1 = set_columns_of d2 ->
  exists feats cs0,
    ~ calls_estimate_propensity cs0 /\
    __init__ train_ref test_ref kwargs w =
    init_tables
      (set_kwarg (update default_args kwargs) (kw_cols_features (Some feats)))
      d1 d2 {| heap := heap w; calls := calls w ++ cs0 |}.
Proof.
  intros H1 H2 Hcols. unfold __init__.
  erewrite run_bind by (apply run_deref; eassumption).
  erewrite run_bind by (apply run_deref; eassumption).
  cbv beta iota. rewrite bool_decide_eq_true_2 by done. cbn [negb].
  destruct (cols_features (update default_args kwargs)) as [[|c l]|].
  - eexists _, [call_get_cols_features]. split.
    + apply no_estimate_propensity_in. repeat constructor.
    + erewrite run_bind by reflexivity. reflexivity.
  - exists (c :: l), []. split.
    + apply no_estimate_propensity_in. constructor.
    + erewrite run_bind by reflexivity. rewrite app_nil_r. now destruct w.
  - eexists _, [call_get_cols_features]. split.
    + apply no_estimate_propensity_in. repeat constructor.
    + erewrite run_bind by reflexivity. reflexivity.
Qed.

(** The constructor either stops before it has done anything, or goes on
    with [init_tables] on the caller's two tables. *)
Lemma init_cases (train_ref test_ref : loc) (kwargs : list kwarg)
  (w w' : world) (r : exn + CausalLift) :
  __init__ train_ref test_ref kwargs w = (r, w') ->
  (w' = w /\ exists e, r = inl e) \/
  exists args1 d1 d2 cs0,
    init_tables args1 d1 d2 {| heap := heap w; calls := calls w ++ cs0 |}
    = (r, w').
Proof.
  intros Hrun.
  destruct (heap w !! train_ref) as [o1|] eqn:H1;
    [|unfold __init__, bind, deref in Hrun; rewrite H1 in Hrun;
      injection Hrun as <- <-; left; eauto].
  destruct (heap w !! test_ref) as [o2|] eqn:H2;
    [|unfold __init__, bind, deref in Hrun; rewrite H1, H2 in Hrun;
      injection Hrun as <- <-; left; eauto].
  destruct o1 as [d1|], o2 as [d2|];
    try (unfold __init__, bind, deref in Hrun; rewrite H1, H2 in Hrun;
         injection Hrun as <- <-; left; eauto).
  destruct (decide (set_columns_of d1 = set_columns_of d2)) as [Hcols|Hne].
  - right.
    destruct (init_unfold _ _ kwargs _ _ _ H1 H2 Hcols) as (feats & cs0 & _ & E).
    rewrite E in Hrun. eauto.
  - left. unfold __init__ in Hrun.
    erewrite run_bind in Hrun by (apply run_deref; eassumption).
    erewrite run_bind in Hrun by (apply run_deref; eassumption).
    cbv beta iota in Hrun. rewrite bool_decide_eq_false_2 in Hrun by done.
    injection Hrun as <- <-. eauto.
Qed.

Lemma calls_estimate_propensity_app_l (cs cs' : list call) :
  ~ calls_estimate_propensity cs ->
  calls_estimate_propensity (cs ++ cs') <-> calls_estimate_propensity cs'.
Proof.
  intros Hno. unfold calls_estimate_propensity in *. split.
  - intros (l1 & l2 & Hin). apply in_app_or in Hin as [Hin|Hin]; [|eauto].
    exfalso. eauto.
  - intros (l1 & l2 & Hin). exists l1, l2. apply in_or_app. now right.
Qed.

(** C7. During construction [estimate_propensity] is called exactly when
    inverse-propensity weighting is enabled and the input tables have no
    propensity column; in every other case the session's combined table is
    made of the re-indexed copies of the caller's two tables, with all
    columns (the propensity column among them) as the caller supplied
    them. *)
Theorem init_estimates_propensity_iff
  (train_ref test_ref : loc) (kwargs : list kwarg) (w w' : world)
  (d1 d2 : DataFrame) (r : exn + CausalLift) :
  heap w !! train_ref = Some (PyDataFrame d1) ->
  heap w !! test_ref = Some (PyDataFrame d2) ->
  set_columns_of d1 = set_columns_of d2 ->
  __init__ train_ref test_ref kwargs w = (r, w') ->
  let a := update default_args kwargs in
  (exists cs, calls w' = calls w ++ cs /\
              (calls_estimate_propensity cs <-> propensity_needed a d1)) /\
  (propensity_needed a d1 <-> propensity_needed a d2) /\
  (~ propensity_needed a d1 ->
   forall self, r = inr self ->
     heap w' !! df self =
       Some (PyDataFrame (Partitioned (df_reset_index d1) (df_reset_index d2))) /\
     train_df self = df_reset_index d1 /\
     test_df self = df_reset_index d2 /\
     (forall t1, d1 = Flat t1 -> t_columns (train_df self) = t_columns t1) /\
     (forall t2, d2 = Flat t2 -> t_columns (test_df self) = t_columns t2)).
Proof.
  intros H1 H2 Hcols Hrun a.
  destruct (init_unfold _ _ kwargs _ _ _ H1 H2 Hcols) as (feats & cs0 & Hno & E).
  rewrite E in Hrun. fold a in Hrun.
  apply init_tables_effect in Hrun as ((cs & Hcs & Hiff) & Hnot & _).
  cbn [heap calls] in *.
  destruct (set_kwarg_cols_features a (Some feats)) as [Eipw Ecol].
  rewrite Eipw, Ecol in Hiff, Hnot. fold (propensity_needed a d1) in Hiff, Hnot.
  split; [|split; [now apply propensity_needed_same_columns|]].
  - exists (cs0 ++ cs). split; [now rewrite Hcs, app_assoc|].
    now rewrite calls_estimate_propensity_app_l.
  - intros Hn self Hr.
    destruct (Hnot Hn) as [_ Hself].
    destruct (Hself self Hr) as (Hdf & Htr & Hte & _).
    repeat split; try done.
    + intros t1 ->. now rewrite Htr.
    + intros t2 ->. now rewrite Hte.
Qed.

(** *** Methods write only the session's own table *)

Lemma perform_effect (o : operation) (self : CausalLift) (w w' : world)
  (r : exn * CausalLift + CausalLift) :
  perform o self w = (r, w') ->
  (forall l, l <> df self -> heap w' !! l = heap w !! l) /\
  (forall s, r = inr s -> df s = df self) /\
  (forall e s, r = inl (e, s) -> df s = df self).
Proof.
  destruct o as [v|c ft fe v]; unfold perform.
  - unfold estimate_cate_by_2_models, _separate_train_test, during, deref_df,
      deref, invoke, bind, log, lift, store, ret, raise.
    intros H. cbn [heap calls] in H.
    repeat (case_match; simplify_eq);
      cbn [heap calls df set_train_test set_cate_estimated] in *;
      (split; [intros l Hl; now rewrite ?lookup_insert_ne by done
              | split; intros; simplify_eq; reflexivity ]).
  - unfold estimate_recommendation_impact, during, deref_df, deref,
      invoke, bind, log, lift, store, ret, raise.
    intros H. cbn [heap calls] in H.
    repeat (case_match; simplify_eq);
      cbn [heap calls df set_impact set_simulated set_treatment_fractions
             set_cate_estimated] in *;
      (split; [intros l Hl; now rewrite ?lookup_insert_ne by done
              | split; intros; simplify_eq; reflexivity ]).
Qed.

Lemma session_run_preserves (s s' : CausalLift) (w w' : world) :
  session_run s w s' w' ->
  forall h0 : gmap loc pyobj,
    h0 ⊆ heap w -> h0 !! df s = None -> h0 ⊆ heap w'.
Proof.
  induction 1 as [s w|o s s1 s' w w1 w' Hp _ IH
                  |o e s s0 s1 s' w w1 w' Hp Hdf _ IH];
    intros h0 Hsub Hnone; [done| |].
  - apply perform_effect in Hp as (Hheap & Hsame & _).
    apply IH.
    + apply map_subseteq_spec. intros l x Hl.
      rewrite Hheap by (intros ->; congruence).
      eapply lookup_weaken; eassumption.
    + now rewrite (Hsame s1 eq_refl).
  - apply perform_effect in Hp as (Hheap & _).
    apply IH.
    + apply map_subseteq_spec. intros l x Hl.
      rewrite Hheap by (intros ->; congruence).
      eapply lookup_weaken; eassumption.
    + now rewrite Hdf.
Qed.

(** C10. The constructor works on new copies of the caller's two tables,
    so that, as long as [estimate_propensity] changes only the tables it is
    handed, no object of the caller's store (the original train and test
    tables among them) is changed by the construction or by any later
    sequence of calls of [estimate_cate_by_2_models] and
    [estimate_recommendation_impact], whether they return or raise. *)
Theorem callers_tables_never_mutated
  (train_ref test_ref : loc) (kwargs : list kwarg) (w w1 : world)
  (r : exn + CausalLift) :
  touches_only_its_tables ->
  __init__ train_ref test_ref kwargs w = (r, w1) ->
  (forall l o, heap w !! l = Some o -> heap w1 !! l = Some o) /\
  (forall self s' w',
      r = inr self -> session_run self w1 s' w' ->
      heap w !! df self = None /\
      forall l o, heap w !! l = Some o -> heap w' !! l = Some o).
Proof.
  intros Hf Hrun.
  assert (H : heap w ⊆ heap w1 /\
              forall self, r = inr self -> heap w !! df self = None).
  { apply init_cases in Hrun as [[-> [e ->]]|(args1 & d1 & d2 & cs0 & Hrun)].
    - split; [done|]. intros ? [=].
    - apply init_tables_effect in Hrun as (_ & _ & Hframe).
      now apply Hframe. }
  destruct H as [Hsub Hfresh]. split.
  - intros l o Hl. eapply lookup_weaken; eassumption.
  - intros self s' w' Hr Hs. split; [now apply Hfresh|].
    intros l o Hl.
    eapply lookup_weaken; [eassumption|].
    eapply session_run_preserves; eauto.
Qed.

(** *** [estimate_recommendation_impact] with an explicit CATE series *)

Lemma estimate_recommendation_impact_inv
  (self self' : CausalLift) (c : Series) (ft fe : option fnum)
  (v : option Z) (w w' : world) (e : Table) :
  estimate_recommendation_impact self (Some c) ft fe v w = (inr (self', e), w') ->
  exists d0 d1 d2 t u,
    heap w !! df self = Some (PyDataFrame d0) /\
    df_set_values d0 (col_cate (args self)) (s_values c) = inr d1 /\
    recommendation_by_cate d1 (args self) (fractions_used self ft fe) = inr d2 /\
    simulate_recommendation Treated (args self) d2 (model_treated self)
      (score_original_treatment_treated_df self) = inr t /\
    simulate_recommendation Untreated (args self) d2 (model_untreated self)
      (score_original_treatment_untreated_df self) = inr u /\
    aggregate_impact t u = inr e /\
    self' = set_impact
              (set_treatment_fractions (set_cate_estimated self c)
                 (fractions_used self ft fe)) t u e /\
    heap w' = <[df self := PyDataFrame d2]> (heap w).
Proof.
  unfold estimate_recommendation_impact, deref_df, deref,
    during, invoke, bind, log, lift, store, ret, raise.
  intros H.
  cbn [heap calls df args set_cate_estimated set_treatment_fractions
         treatment_fractions model_treated model_untreated
         score_original_treatment_treated_df
         score_original_treatment_untreated_df] in H.
  fold (fractions_used self ft fe) in H.
  repeat (case_match; simplify_eq).
  cbn [heap calls df args set_cate_estimated set_treatment_fractions
         treatment_fractions model_treated model_untreated
         score_original_treatment_treated_df
         score_original_treatment_untreated_df] in *.
  fold (fractions_used self ft fe) in *.
  match goal with
  | H : <[_ := _]> _ !! _ = Some _ |- _ =>
      rewrite lookup_insert_eq in H; injection H as <-
  end.
  eexists _, _, _, _, _. repeat (split; [eassumption || reflexivity|]).
  now rewrite insert_insert_eq.
Qed.

Lemma estimate_recommendation_impact_run
  (self : CausalLift) (c : Series) (ft fe : option fnum) (v : option Z)
  (w : world) (d0 d1 d2 : DataFrame) (t u e : Table) :
  heap w !! df self = Some (PyDataFrame d0) ->
  df_set_values d0 (col_cate (args self)) (s_values c) = inr d1 ->
  recommendation_by_cate d1 (args self) (fractions_used self ft fe) = inr d2 ->
  simulate_recommendation Treated (args self) d2 (model_treated self)
    (score_original_treatment_treated_df self) = inr t ->
  simulate_recommendation Untreated (args self) d2 (model_untreated self)
    (score_original_treatment_untreated_df self) = inr u ->
  aggregate_impact t u = inr e ->
  exists w',
    estimate_recommendation_impact self (Some c) ft fe v w =
    (inr (set_impact
            (set_treatment_fractions (set_cate_estimated self c)
               (fractions_used self ft fe)) t u e, e), w') /\
    heap w' = <[df self := PyDataFrame d2]> (heap w).
Proof.
  intros Hdf Hc Hr Ht Hu He. eexists. split.
  - unfold estimate_recommendation_impact.
    erewrite run_bind.
    2:{ cbn [df args set_cate_estimated]. run_step. rewrite Hc.
        do 2 run_step. reflexivity. }
    cbv zeta.
    cbn [df args set_cate_estimated set_treatment_fractions
           treatment_fractions model_treated model_untreated
           score_original_treatment_treated_df
           score_original_treatment_untreated_df].
    fold (fractions_used self ft fe).
    erewrite run_bind
      by (apply run_during, run_deref_df; cbn [stored heap];
          apply lookup_insert_eq).
    rewrite Hr. do 2 run_step. rewrite Ht. run_step. rewrite Hu. run_step.
    rewrite He. run_step. reflexivity.
  - cbn [logged stored heap]. now rewrite insert_insert_eq.
Qed.

Lemma store_col_overwrite (c : string) (v v' : list fnum) cols :
  store_col c v (store_col c v' cols) = store_col c v cols.
Proof.
  induction cols as [|[k x] cols IH]; simpl.
  - now rewrite decide_True.
  - destruct (decide (k = c)) as [->|Hne]; simpl.
    + now rewrite decide_True.
    + rewrite decide_False by done. now rewrite IH.
Qed.

Lemma store_col_same (c : string) (v : list fnum) cols :
  lookup_col c cols = Some v -> store_col c v cols = cols.
Proof.
  induction cols as [|[k x] cols IH]; simpl; [done|].
  destruct (decide (k = c)) as [->|Hne].
  - now intros [= ->].
  - intros H. now rewrite IH.
Qed.

Lemma store_col_twice (a b : string) (x y : list fnum) cols :
  store_col b y (store_col a x (store_col b y (store_col a x cols)))
  = store_col b y (store_col a x cols).
Proof.
  destruct (decide (a = b)) as [->|Hne].
  - now rewrite !store_col_overwrite.
  - rewrite (store_col_same a x).
    + apply store_col_same, lookup_store_col_eq.
    + rewrite lookup_store_col_ne by done. apply lookup_store_col_eq.
Qed.

Lemma set_values_inv (t t' : Table) (c : string) (v : list fnum) :
  set_values t c v = inr t' <-> length v = nrows t /\ t' = with_column t c v.
Proof.
  unfold set_values, with_column. case_decide; split.
  - intros [= <-]. done.
  - intros [_ ->]. done.
  - done.
  - intros [? _]. done.
Qed.

Lemma df_set_values_inv (d0 d1 : DataFrame) (c : string) (v : list fnum)
  (a : Args) (fr : TreatmentFractions) (d2 : DataFrame) :
  df_set_values d0 c v = inr d1 ->
  recommendation_by_cate d1 a fr = inr d2 ->
  exists tr te,
    d0 = Partitioned tr te /\
    length v = nrows tr + nrows te /\
    d1 = Partitioned (with_column tr c (take (nrows tr) v))
                     (with_column te c (drop (nrows tr) v)).
Proof.
  destruct d0 as [t|tr te]; unfold df_set_values.
  - destruct (set_values t c v) as [|t'] eqn:E; [done|]. intros [= <-].
    unfold recommendation_by_cate, df_getitem.
    destruct (getitem t' (col_cate a)); done.
  - case_decide; [|done].
    destruct (set_values tr c (take (nrows tr) v)) as [|tr'] eqn:E1; [done|].
    destruct (set_values te c (drop (nrows tr) v)) as [|te'] eqn:E2; [done|].
    apply set_values_inv in E1 as [_ ->], E2 as [_ ->].
    intros [= <-] _. eauto.
Qed.

Lemma df_set_values_partitioned (tr te : Table) (c : string) (v : list fnum) :
  length v = nrows tr + nrows te ->
  df_set_values (Partitioned tr te) c v =
  inr (Partitioned (with_column tr c (take (nrows tr) v))
                   (with_column te c (drop (nrows tr) v))).
Proof.
  intros H. unfold df_set_values. rewrite decide_True by done.
  rewrite !set_values_inr
    by (rewrite ?length_take, ?length_drop; lia).
  reflexivity.
Qed.

Lemma recommendation_by_cate_partitioned (tr te : Table) (a : Args)
  (fr : TreatmentFractions) (ctr cte : list fnum) :
  lookup_col (col_cate a) (t_columns tr) = Some ctr ->
  lookup_col (col_cate a) (t_columns te) = Some cte ->
  recommendation_by_cate (Partitioned tr te) a fr =
  df_set_series (Partitioned tr te) (col_recommendation a)
    (concat_train_test
       (recommendation {| s_index := t_index tr; s_values := ctr |} (tf_train fr))
       (recommendation {| s_index := t_index te; s_values := cte |} (tf_test fr))).
Proof.
  intros H1 H2. unfold recommendation_by_cate, df_getitem, getitem.
  now rewrite H1, H2.
Qed.

Lemma df_set_series_partitioned_inv (tr te : Table) (c : string)
  (rtr rte : list fnum) (d2 : DataFrame) :
  df_set_series (Partitioned tr te) c (concat_train_test rtr rte) = inr d2 ->
  RangeIndex (length rtr) = t_index tr /\
  RangeIndex (length rte) = t_index te /\
  d2 = Partitioned (with_column tr c rtr) (with_column te c rte).
Proof.
  unfold df_set_series, concat_train_test. cbn [s_index s_values].
  case_decide as Hidx; [|done]. destruct Hidx as [H1 H2].
  destruct (set_values tr c rtr) as [|tr'] eqn:E1; [done|].
  destruct (set_values te c rte) as [|te'] eqn:E2; [done|].
  apply set_values_inv in E1 as [_ ->], E2 as [_ ->].
  now intros [= <-].
Qed.

Lemma df_set_series_partitioned (tr te : Table) (c : string)
  (rtr rte : list fnum) :
  RangeIndex (length rtr) = t_index tr ->
  RangeIndex (length rte) = t_index te ->
  df_set_series (Partitioned tr te) c (concat_train_test rtr rte) =
  inr (Partitioned (with_column tr c rtr) (with_column te c rte)).
Proof.
  intros H1 H2. unfold df_set_series, concat_train_test.
  cbn [s_index s_values]. rewrite decide_True by done.
  rewrite !set_values_inr; [reflexivity| |];
    unfold nrows; rewrite <- ?H1, <- ?H2; now rewrite length_RangeIndex.
Qed.

(** Writing the same CATE values and recommending again changes nothing. *)
Lemma recommend_again (d0 d1 d2 : DataFrame) (a : Args)
  (fr : TreatmentFractions) (v : list fnum) :
  df_set_values d0 (col_cate a) v = inr d1 ->
  recommendation_by_cate d1 a fr = inr d2 ->
  exists d1',
    df_set_values d2 (col_cate a) v = inr d1' /\
    recommendation_by_cate d1' a fr = inr d2.
Proof.
  intros H1 H2.
  destruct (df_set_values_inv _ _ _ _ _ _ _ H1 H2) as (tr & te & -> & Hlen & ->).
  set (ctr := take (nrows tr) v) in *. set (cte := drop (nrows tr) v) in *.
  rewrite (recommendation_by_cate_partitioned _ _ _ _ ctr cte) in H2
    by (cbn; apply lookup_store_col_eq).
  cbn [with_column t_index] in H2.
  apply df_set_series_partitioned_inv in H2 as (I1 & I2 & ->).
  cbn [with_column t_index] in I1, I2.
  eexists. split.
  - rewrite df_set_values_partitioned by done. reflexivity.
  - cbn [nrows with_column t_index]. fold (nrows tr). fold ctr cte.
    rewrite (recommendation_by_cate_partitioned _ _ _ _ ctr cte)
      by (cbn; apply lookup_store_col_eq).
    cbn [with_column t_index t_columns].
    rewrite df_set_series_partitioned by done.
    unfold with_column. cbn [t_index t_columns].
    now rewrite !store_col_twice.
Qed.

Lemma py_or_idem (x : option fnum) (d : fnum) :
  py_or x (py_or x d) = py_or x d.
Proof.
  destruct x as [v|]; [|reflexivity]. unfold py_or.
  destruct (truthy v); reflexivity.
Qed.

(** C9. A second call of [estimate_recommendation_impact] with the same
    explicit CATE series and the same treatment fractions returns the same
    impact table as the first call, and leaves the session and its combined
    table as the first call left them. *)
Theorem estimate_recommendation_impact_idempotent
  (self self1 : CausalLift) (cate : Series) (fraction_train fraction_test : fnum)
  (verbose : option Z) (w w1 : world) (e1 : Table) :
  estimate_recommendation_impact self (Some cate)
    (Some fraction_train) (Some fraction_test) verbose w
  = (inr (self1, e1), w1) ->
  exists w2,
    estimate_recommendation_impact self1 (Some cate)
      (Some fraction_train) (Some fraction_test) verbose w1
    = (inr (self1, e1), w2) /\
    heap w2 = heap w1.
Proof.
  intros H1.
  apply estimate_recommendation_impact_inv in H1
    as (d0 & d1 & d2 & t & u & Hdf & Hc & Hr & Ht & Hu & He & -> & Hheap).
  set (ft := Some fraction_train) in *. set (fe := Some fraction_test) in *.
  destruct (recommend_again _ _ _ _ _ _ Hc Hr) as (d1' & Hc' & Hr').
  set (self1 := set_impact
                  (set_treatment_fractions (set_cate_estimated self cate)
                     (fractions_used self ft fe)) t u e1).
  assert (Hfr : fractions_used self1 ft fe = fractions_used self ft fe).
  { unfold self1, fractions_used.
    cbn [treatment_fractions set_impact set_treatment_fractions
           set_cate_estimated tf_train tf_test].
    now rewrite !py_or_idem. }
  destruct (estimate_recommendation_impact_run self1 cate ft fe verbose w1
              d2 d1' d2 t u e1) as (w2 & Hrun & Hh2); try done.
  - rewrite Hheap. apply lookup_insert_eq.
  - now rewrite Hfr.
  - exists w2. split.
    + rewrite Hrun, Hfr. reflexivity.
    + rewrite Hh2, Hheap. cbn [df self1 set_impact set_treatment_fractions
                                  set_cate_estimated].
      now rewrite insert_insert_eq.
Qed.

(** *** The treatment fractions that a call uses *)

Lemma py_or_truthy (v d : fnum) : truthy v = true -> py_or (Some v) d = v.
Proof. unfold py_or. now intros ->. Qed.

Lemma py_or_zero (d : fnum) : py_or (Some (Fin 0)) d = d.
Proof. reflexivity. Qed.

(** A call that returns has stored [fractions_used] in the session and has
    written the recommendation for these fractions into the combined
    table. *)
Lemma estimate_recommendation_impact_fractions
  (self self' : CausalLift) (cate : option Series) (ft fe : option fnum)
  (v : option Z) (w w' : world) (e : Table) :
  estimate_recommendation_impact self cate ft fe v w = (inr (self', e), w') ->
  treatment_fractions self' = fractions_used self ft fe /\
  exists d1 d2,
    recommendation_by_cate d1 (args self) (fractions_used self ft fe) = inr d2 /\
    heap w' !! df self = Some (PyDataFrame d2).
Proof.
  unfold estimate_recommendation_impact, deref_df, deref,
    during, invoke, bind, log, lift, store, ret, raise.
  intros H. destruct cate as [c|];
    repeat (case_match; simplify_eq);
    cbn [heap calls df args set_cate_estimated set_treatment_fractions
           set_impact treatment_fractions] in *;
    fold (fractions_used self ft fe) in *;
    (split; [reflexivity|]);
    eexists _, _; (split; [eassumption|apply lookup_insert_eq]).
Qed.

(** *** Ranking a series that has NaN values *)

Lemma recommendation_by_rows (s : Series) (f : fnum) :
  recommendation s f =
  map (fun i => if fle (pct_of (count_valid (s_values s))
                          (rank_at (s_values s) i)) f
                then one else zero)
      (seq 0 (length (s_values s))).
Proof.
  unfold recommendation, np_where, series_le, rank, rank_first_descending.
  cbn [s_values]. now rewrite !map_map.
Qed.

Lemma recommendation_lookup (s : Series) (f : fnum) (i : nat) (x : fnum) :
  s_values s !! i = Some x ->
  recommendation s f !! i =
  Some (if fle (pct_of (count_valid (s_values s)) (rank_at (s_values s) i)) f
        then one else zero).
Proof.
  intros Hx. apply lookup_lt_Some in Hx.
  rewrite recommendation_by_rows. change (map ?g ?l) with (g <$> l).
  rewrite list_lookup_fmap.
  now rewrite (proj2 (lookup_seq 0 (length (s_values s)) i i) (conj eq_refl Hx)).
Qed.

Lemma precedes_valid (v : list fnum) (j i : nat) :
  precedes v j i = true -> valid (nth j v NaN) /\ valid (nth i v NaN).
Proof.
  unfold precedes, flt, valid.
  destruct (nth i v NaN) as [a|[]|], (nth j v NaN) as [b|[]|]; cbn;
    rewrite ?andb_false_r; intros H; try discriminate H; done.
Qed.

Lemma countb_nth {A : Type} (p : A -> bool) (d : A) (l : list A) :
  countb p l = countb (fun i => p (nth i l d)) (seq 0 (length l)).
Proof.
  induction l as [|x l IH]; [done|].
  cbn [length seq countb nth]. rewrite <- seq_shift, countb_map.
  now rewrite IH.
Qed.

Lemma countb_filter {A : Type} (p q : A -> bool) (l : list A) :
  countb p (List.filter q l) = countb (fun x => q x && p x) l.
Proof.
  induction l as [|x l IH]; [done|]. cbn [List.filter countb].
  destruct (q x); cbn [countb andb]; now rewrite IH.
Qed.

Lemma countb_true_length {A : Type} (l : list A) :
  countb (fun _ => true) l = length l.
Proof. induction l as [|x l IH]; [done|]. cbn. now rewrite IH. Qed.

(** The positions of the values that are numbers. *)
Lemma valid_rows_length (v : list fnum) :
  length (List.filter (fun i => negb (is_nan (nth i v NaN)))
            (seq 0 (length v)))
  = count_valid v.
Proof.
  rewrite <- countb_true_length, countb_filter. unfold count_valid.
  rewrite (countb_nth _ NaN). apply countb_ext. intros i _.
  now rewrite andb_true_r.
Qed.

Lemma rank_number_le_valid (v : list fnum) (i : nat) :
  i < length v -> valid (nth i v NaN) ->
  1 <= rank_number v i <= count_valid v.
Proof.
  intros Hi Hv. unfold rank_number. split; [lia|].
  unfold count_valid. rewrite (countb_nth _ NaN).
  apply (countb_lt_pointwise _ _ _ i).
  - apply in_seq; lia.
  - apply precedes_irrefl.
  - unfold valid in Hv. now rewrite Hv.
  - intros j _ Hj. apply precedes_valid in Hj as [Hj _].
    unfold valid in Hj. now rewrite Hj.
Qed.

Lemma rank_number_inj_valid (v : list fnum) (i j : nat) :
  i < length v -> j < length v ->
  valid (nth i v NaN) -> valid (nth j v NaN) ->
  rank_number v i = rank_number v j -> i = j.
Proof.
  intros Hi Hj Vi Vj Heq. destruct (decide (i = j)) as [|Hne]; [done|].
  destruct (precedes_total v i j) as [H|H]; auto.
  - pose proof (rank_number_lt v i j Hi H). lia.
  - pose proof (rank_number_lt v j i Hj H). lia.
Qed.

Lemma valid_ranks_permutation (v : list fnum) :
  Permutation
    (map (rank_number v)
       (List.filter (fun i => negb (is_nan (nth i v NaN))) (seq 0 (length v))))
    (seq 1 (count_valid v)).
Proof.
  apply NoDup_Permutation_bis.
  - apply NoDup_ListNoDup. apply (NoDup_fmap_2_strong (rank_number v)).
    + intros x y Hx Hy.
      apply list_elem_of_In, filter_In in Hx as [Hx Vx].
      apply list_elem_of_In, filter_In in Hy as [Hy Vy].
      apply in_seq in Hx, Hy. apply negb_true_iff in Vx, Vy.
      apply rank_number_inj_valid; auto; lia.
    + apply NoDup_ListNoDup, List.NoDup_filter, seq_NoDup.
  - rewrite length_map, valid_rows_length, length_seq. lia.
  - intros r Hr. apply in_map_iff in Hr as (i & <- & Hi).
    apply filter_In in Hi as [Hi Vi]. apply in_seq in Hi.
    apply negb_true_iff in Vi. apply in_seq.
    pose proof (rank_number_le_valid v i ltac:(lia) Vi). lia.
Qed.

(** X1. For a treatment fraction [q] in [0, 1] the number of rows that
    [recommendation] marks with 1.0 is [floor (q * V)] or one more, where
    [V] is the number of CATE values that are not NaN: rows with a NaN value
    are left out of the budget.  The one more row is the next rank when its
    float percentile rounds down to [q]; [V] is at most 2^53. *)
Theorem recommendation_budget_counts_numbers_only (s : Series) (q : Q) :
  (0 <= q)%Q -> (q <= 1)%Q ->
  representable q -> ranks_are_exact (count_valid (s_values s)) ->
  (Qfloor (q * inject_Z (Z.of_nat (count_valid (s_values s))))
   <= Z.of_nat (n_recommended (recommendation s (Fin q)))
   <= Qfloor (q * inject_Z (Z.of_nat (count_valid (s_values s)))) + 1)%Z.
Proof.
  intros H0 H1 Hrep Hexact. set (v := s_values s) in *.
  set (V := count_valid v) in *.
  rewrite recommendation_by_rows. fold v V. rewrite n_recommended_if.
  set (ok := fun i => negb (is_nan (nth i v NaN))).
  set (m := Qfloor (q * inject_Z (Z.of_nat V))).
  pose proof (budget_floor_range q V H0 H1) as Hm. fold m in Hm.
  set (P := fun r => fle (percentile r V) (Fin q)).
  rewrite (countb_ext _ (fun i => ok i && P (rank_number v i))).
  - rewrite <- countb_filter.
    rewrite <- (countb_map (rank_number v) P).
    rewrite (countb_permutation _ _ _ (valid_ranks_permutation v)).
    fold V.
    destruct (countb_budget P (Z.to_nat m) V) as [Hc1 Hc2].
    + intros r Hr Hle. apply percentile_within; [lia|done|]. fold m. lia.
    + intros r Hr HP.
      pose proof (percentile_beyond r V q ltac:(lia) ltac:(lia) Hexact HP)
        as Hb.
      fold m in Hb. lia.
    + lia.
  - intros i Hi. unfold ok, rank_at, P.
    destruct (is_nan (nth i v NaN)) eqn:En; reflexivity.
Qed.

(** X2. A row whose CATE is NaN is never recommended, whatever the
    treatment fraction. *)
Theorem nan_row_is_never_recommended
  (s : Series) (f : fnum) (i : nat) (x : fnum) :
  s_values s !! i = Some x -> is_nan x = true ->
  recommendation s f !! i = Some zero.
Proof.
  intros Hx Hn. rewrite (recommendation_lookup _ _ _ _ Hx).
  unfold rank_at. now rewrite (nth_lookup_Some _ _ NaN _ Hx), Hn.
Qed.

(** X3. [recommendation] never prefers a row to a better one: when a row
    is recommended, so is every row with a larger CATE, and every earlier
    row with the same CATE. *)
Theorem recommendation_is_upward_closed
  (s : Series) (f : fnum) (i j : nat) (vi vj : fnum) :
  s_values s !! i = Some vi -> s_values s !! j = Some vj ->
  flt vj vi = true \/ (feq vi vj = true /\ i < j) ->
  recommendation s f !! j = Some one ->
  recommendation s f !! i = Some one.
Proof.
  intros Hi Hj Hbetter.
  rewrite (recommendation_lookup _ _ _ _ Hi), (recommendation_lookup _ _ _ _ Hj).
  set (v := s_values s) in *. set (V := count_valid v).
  assert (Hp : precedes v i j = true).
  { unfold precedes. rewrite (nth_lookup_Some _ _ NaN _ Hi),
      (nth_lookup_Some _ _ NaN _ Hj).
    destruct Hbetter as [->|[-> Hlt]]; [done|].
    apply Nat.ltb_lt in Hlt. rewrite Hlt. apply orb_true_r. }
  pose proof (precedes_valid _ _ _ Hp) as [Vi Vj].
  pose proof (lookup_lt_Some _ _ _ Hi) as Li.
  pose proof (lookup_lt_Some _ _ _ Hj) as Lj.
  pose proof (rank_number_lt v i j Li Hp) as Hlt.
  pose proof (rank_number_le_valid v i Li Vi) as Hri. fold V in Hri.
  unfold rank_at. unfold valid in Vi, Vj. rewrite Vi, Vj. cbn [pct_of].
  fold (percentile (rank_number v i) V) (percentile (rank_number v j) V).
  destruct (fle (percentile (rank_number v j) V) f) eqn:Ej;
    [|intros [= E]; discriminate E].
  intros _.
  rewrite (fle_trans _ (percentile (rank_number v j) V) f); [done| |done].
  apply percentile_mono; lia.
Qed.

(** X4. At the ends of the range: with a treatment fraction of at least 1
    every row whose CATE is a number is recommended, and with a fraction of
    0 or less no row is. *)
Theorem recommendation_at_the_bounds
  (s : Series) (q : Q) (i : nat) (x : fnum) :
  s_values s !! i = Some x ->
  ((1 <= q)%Q -> is_nan x = false -> recommendation s (Fin q) !! i = Some one)
  /\ ((q <= 0)%Q -> recommendation s (Fin q) !! i = Some zero).
Proof.
  intros Hx. rewrite (recommendation_lookup _ _ _ _ Hx).
  set (v := s_values s) in *. set (V := count_valid v).
  pose proof (lookup_lt_Some _ _ _ Hx) as Li.
  unfold rank_at. rewrite (nth_lookup_Some _ _ NaN _ Hx).
  split.
  - intros Hq Hn. rewrite Hn. cbn [pct_of].
    assert (Vx : valid (nth i v NaN))
      by (now rewrite (nth_lookup_Some _ _ NaN _ Hx)).
    pose proof (rank_number_le_valid v i Li Vx) as Hr. fold V in Hr.
    fold (percentile (rank_number v i) V).
    rewrite percentile_rnd by lia. cbn [fle].
    destruct (exact_percentile_range (rank_number v i) V) as [_ P1]; [lia..|].
    rewrite (proj2 (Qle_bool_iff _ _)); [done|].
    pose proof (rnd_le_one _ P1). lra.
  - intros Hq. destruct (is_nan x) eqn:Hn; [reflexivity|]. cbn [pct_of].
    assert (Vx : valid (nth i v NaN))
      by (now rewrite (nth_lookup_Some _ _ NaN _ Hx)).
    pose proof (rank_number_le_valid v i Li Vx) as Hr. fold V in Hr.
    fold (percentile (rank_number v i) V).
    rewrite percentile_rnd by lia. cbn [fle].
    destruct (Qle_bool (rnd (exact_percentile (rank_number v i) V)) q) eqn:E;
      [|done].
    exfalso. apply Qle_bool_iff in E.
    assert (Hpos : (0 < exact_percentile (rank_number v i) V)%Q).
    { pose proof (exact_percentile_times (rank_number v i) V ltac:(lia)).
      pose proof (inject_nat_pos V ltac:(lia)).
      pose proof (inject_nat_pos (rank_number v i) ltac:(lia)).
      destruct (exact_percentile_range (rank_number v i) V) as [P0 _];
        [lia..|].
      destruct (Qle_lt_or_eq _ _ P0) as [|E0]; [done|]. rewrite <- E0 in *.
      lra. }
    pose proof (rnd_pos _ Hpos). lra.
Qed.

(** *** What the methods write *)

Lemma with_column_differs (t : Table) (c : string) (v : list fnum) :
  table_differs_only_in [c] t (with_column t c v).
Proof.
  split; [reflexivity|]. intros c' Hc'. cbn.
  apply lookup_store_col_ne. intros ->. apply Hc'. now left.
Qed.

Lemma table_differs_weaken (cs cs' : list string) (t t' : Table) :
  incl cs cs' -> table_differs_only_in cs t t' ->
  table_differs_only_in cs' t t'.
Proof. intros Hi [H1 H2]. split; [done|]. intros c Hc. apply H2. auto. Qed.

Lemma table_differs_trans (cs : list string) (t t' t'' : Table) :
  table_differs_only_in cs t t' -> table_differs_only_in cs t' t'' ->
  table_differs_only_in cs t t''.
Proof.
  intros [H1 H2] [H3 H4]. split; [congruence|].
  intros c Hc. now rewrite H4, H2.
Qed.

Lemma differs_refl (cs : list string) (d : DataFrame) : differs_only_in cs d d.
Proof. destruct d; cbn; repeat split. Qed.

Lemma differs_weaken (cs cs' : list string) (d d' : DataFrame) :
  incl cs cs' -> differs_only_in cs d d' -> differs_only_in cs' d d'.
Proof.
  intros Hi. destruct d, d'; cbn; try done.
  - now apply table_differs_weaken.
  - intros [? ?]. split; eapply table_differs_weaken; eauto.
Qed.

Lemma differs_trans (cs : list string) (d d' d'' : DataFrame) :
  differs_only_in cs d d' -> differs_only_in cs d' d'' ->
  differs_only_in cs d d''.
Proof.
  destruct d, d', d''; cbn; try done.
  - apply table_differs_trans.
  - intros [? ?] [? ?]. split; eapply table_differs_trans; eauto.
Qed.

Lemma df_set_values_differs (d d' : DataFrame) (c : string) (v : list fnum) :
  df_set_values d c v = inr d' -> differs_only_in [c] d d'.
Proof.
  destruct d as [t|tr te]; unfold df_set_values.
  - destruct (set_values t c v) as [|t'] eqn:E; [done|]. intros [= <-].
    apply set_values_inv in E as [_ ->]. apply with_column_differs.
  - case_decide; [|done].
    destruct (set_values tr c (take (nrows tr) v)) as [|tr'] eqn:E1; [done|].
    destruct (set_values te c (drop (nrows tr) v)) as [|te'] eqn:E2; [done|].
    apply set_values_inv in E1 as [_ ->], E2 as [_ ->].
    intros [= <-]. split; apply with_column_differs.
Qed.

(** A call of [recommendation_by_cate] that returns has read the CATE column
    of both partitions and written the two recommendation arrays. *)
Lemma recommendation_by_cate_inv (d d' : DataFrame) (a : Args)
  (fr : TreatmentFractions) :
  recommendation_by_cate d a fr = inr d' ->
  exists tr te ctr cte,
    d = Partitioned tr te /\
    lookup_col (col_cate a) (t_columns tr) = Some ctr /\
    lookup_col (col_cate a) (t_columns te) = Some cte /\
    d' = Partitioned
           (with_column tr (col_recommendation a)
              (recommendation {| s_index := t_index tr; s_values := ctr |}
                 (tf_train fr)))
           (with_column te (col_recommendation a)
              (recommendation {| s_index := t_index te; s_values := cte |}
                 (tf_test fr))).
Proof.
  destruct d as [t|tr te].
  - unfold recommendation_by_cate, df_getitem.
    destruct (getitem t (col_cate a)); done.
  - destruct (lookup_col (col_cate a) (t_columns tr)) as [ctr|] eqn:E1;
      [|unfold recommendation_by_cate, df_getitem, getitem; now rewrite E1].
    destruct (lookup_col (col_cate a) (t_columns te)) as [cte|] eqn:E2;
      [|unfold recommendation_by_cate, df_getitem, getitem; now rewrite E1, E2].
    rewrite (recommendation_by_cate_partitioned _ _ _ _ _ _ E1 E2).
    intros H. apply df_set_series_partitioned_inv in H as (_ & _ & ->).
    eauto 10.
Qed.

Lemma recommendation_by_cate_differs (d d' : DataFrame) (a : Args)
  (fr : TreatmentFractions) :
  recommendation_by_cate d a fr = inr d' ->
  differs_only_in [col_recommendation a] d d'.
Proof.
  intros H. apply recommendation_by_cate_inv in H
    as (tr & te & ctr & cte & -> & _ & _ & ->).
  split; apply with_column_differs.
Qed.

Lemma estimate_cate_by_2_models_inv
  (self self' : CausalLift) (v : option Z) (w w' : world)
  (tables : Table * Table) :
  estimate_cate_by_2_models self v w = (inr (self', tables), w') ->
  exists d pt pu cate d',
    heap w !! df self = Some (PyDataFrame d) /\
    predict_proba Treated (args self) d (model_treated self) = inr pt /\
    predict_proba Untreated (args self) d (model_untreated self) = inr pu /\
    series_binop fsub pt pu = inr cate /\
    df_set_values d (col_cate (args self)) (s_values cate) = inr d' /\
    xs train d' = inr (fst tables) /\ xs test d' = inr (snd tables) /\
    self' = set_train_test (set_cate_estimated self cate)
              (fst tables) (snd tables) /\
    heap w' = <[df self := PyDataFrame d']> (heap w) /\
    calls w' = calls w ++ [call_predict_proba Treated;
                           call_predict_proba Untreated].
Proof.
  unfold estimate_cate_by_2_models, _separate_train_test, deref_df, deref,
    during, invoke, bind, log, lift, store, ret, raise.
  intros H. repeat (case_match; simplify_eq).
  cbn [heap calls df args set_cate_estimated model_treated model_untreated
         fst snd] in *.
  match goal with
  | H : <[_ := _]> _ !! _ = Some _ |- _ =>
      rewrite lookup_insert_eq in H; injection H as <-
  end.
  eexists _, _, _, _, _.
  repeat (split; [eassumption || reflexivity|]).
  now rewrite <- app_assoc.
Qed.

Lemma estimate_recommendation_impact_inv_any
  (self self' : CausalLift) (cate : option Series) (ft fe : option fnum)
  (v : option Z) (w w' : world) (e : Table) :
  estimate_recommendation_impact self cate ft fe v w = (inr (self', e), w') ->
  exists d0 d1 d2 t u,
    heap w !! df self = Some (PyDataFrame d0) /\
    match cate with
    | Some c => df_set_values d0 (col_cate (args self)) (s_values c)
    | None => inr d0
    end = inr d1 /\
    recommendation_by_cate d1 (args self) (fractions_used self ft fe) = inr d2 /\
    simulate_recommendation Treated (args self) d2 (model_treated self)
      (score_original_treatment_treated_df self) = inr t /\
    simulate_recommendation Untreated (args self) d2 (model_untreated self)
      (score_original_treatment_untreated_df self) = inr u /\
    aggregate_impact t u = inr e /\
    self' = set_impact
              (set_treatment_fractions
                 (match cate with
                  | Some c => set_cate_estimated self c
                  | None => self
                  end)
                 (fractions_used self ft fe)) t u e /\
    heap w' = <[df self := PyDataFrame d2]> (heap w) /\
    calls w' = calls w ++ [call_simulate_recommendation Treated;
                           call_simulate_recommendation Untreated].
Proof.
  unfold estimate_recommendation_impact, deref_df, deref,
    during, invoke, bind, log, lift, store, ret, raise.
  intros H. destruct cate as [c|];
    repeat (case_match; simplify_eq);
    cbn [heap calls df args set_cate_estimated set_treatment_fractions
           treatment_fractions model_treated model_untreated
           score_original_treatment_treated_df
           score_original_treatment_untreated_df] in *;
    fold (fractions_used self ft fe) in *;
    try match goal with
    | H : <[_ := _]> _ !! _ = Some _ |- _ =>
        rewrite lookup_insert_eq in H; injection H as <-
    end;
    eexists _, _, _, _, _;
    repeat (split; [eassumption || reflexivity|]);
    rewrite ?insert_insert_eq, <- ?app_assoc; split; reflexivity.
Qed.

(** X5. A call of [estimate_cate_by_2_models] that returns has written the
    CATE column of the combined table and nothing else: the index and every
    other column are as before, and the returned tables are the two
    partitions of the updated table. *)
Theorem estimate_cate_by_2_models_writes_only_cate
  (self self' : CausalLift) (verbose : option Z) (w w' : world)
  (tables : Table * Table) :
  estimate_cate_by_2_models self verbose w = (inr (self', tables), w') ->
  exists d d',
    heap w !! df self = Some (PyDataFrame d) /\
    heap w' !! df self = Some (PyDataFrame d') /\
    differs_only_in [col_cate (args self)] d d' /\
    d' = Partitioned (fst tables) (snd tables) /\
    train_df self' = fst tables /\ test_df self' = snd tables.
Proof.
  intros H. apply estimate_cate_by_2_models_inv in H
    as (d & pt & pu & cate & d' & Hd & _ & _ & _ & Hset & Htr & Hte & -> & Hh & _).
  exists d, d'. split; [done|]. split; [rewrite Hh; apply lookup_insert_eq|].
  split; [exact (df_set_values_differs _ _ _ _ Hset)|].
  split; [|done].
  destruct d' as [t|tr te]; [discriminate Htr|].
  cbn in Htr, Hte. now injection Htr as <-; injection Hte as <-.
Qed.

(** X6. A call of [estimate_recommendation_impact] that returns has written
    the recommendation column of the combined table (and the CATE column,
    when a CATE series was passed) and nothing else. *)
Theorem estimate_recommendation_impact_writes_only_its_columns
  (self self' : CausalLift) (cate : option Series) (ft fe : option fnum)
  (verbose : option Z) (w w' : world) (e : Table) :
  estimate_recommendation_impact self cate ft fe verbose w
  = (inr (self', e), w') ->
  exists d d',
    heap w !! df self = Some (PyDataFrame d) /\
    heap w' !! df self = Some (PyDataFrame d') /\
    differs_only_in
      (match cate with
       | Some _ => [col_cate (args self); col_recommendation (args self)]
       | None => [col_recommendation (args self)]
       end) d d'.
Proof.
  intros H. apply estimate_recommendation_impact_inv_any in H
    as (d0 & d1 & d2 & t & u & Hd & Hc & Hr & _ & _ & _ & _ & Hh & _).
  exists d0, d2. split; [done|]. split; [rewrite Hh; apply lookup_insert_eq|].
  apply recommendation_by_cate_differs in Hr.
  destruct cate as [c|]; cbv beta iota in Hc.
  - apply df_set_values_differs in Hc.
    eapply differs_trans; eapply differs_weaken; try eassumption;
      intros x [<-|[]]; cbn; auto.
  - now injection Hc as <-.
Qed.

(** *** Errors of [estimate_recommendation_impact] *)

(** X7. Without a CATE series, on a combined table that has no CATE column
    yet (no [estimate_cate_by_2_models] before), the call raises [KeyError]
    for the CATE column name.  No table of the store is touched and no
    collaborator is called, but the session is not as before: its treatment
    fractions have already been replaced by the fractions passed. *)
Theorem estimate_recommendation_impact_needs_cate
  (self : CausalLift) (ft fe : option fnum) (verbose : option Z)
  (w : world) (tr te : Table) :
  heap w !! df self = Some (PyDataFrame (Partitioned tr te)) ->
  lookup_col (col_cate (args self)) (t_columns tr) = None ->
  estimate_recommendation_impact self None ft fe verbose w
  = (inl (KeyError (col_cate (args self)),
          set_treatment_fractions self (fractions_used self ft fe)), w).
Proof.
  intros Hd Hc. unfold estimate_recommendation_impact.
  erewrite run_bind by reflexivity. cbv zeta.
  cbn [df args set_treatment_fractions].
  run_step.
  unfold recommendation_by_cate, df_getitem, getitem.
  rewrite Hc. reflexivity.
Qed.

(** X8. With a CATE series whose number of values is not the number of rows
    of the combined table, the call raises [ValueError].  No table of the
    store is touched and no collaborator is called, but the session is not
    as before: [cate_estimated] already holds the series passed. *)
Theorem estimate_recommendation_impact_rejects_wrong_length
  (self : CausalLift) (cate : Series) (ft fe : option fnum)
  (verbose : option Z) (w : world) (tr te : Table) :
  heap w !! df self = Some (PyDataFrame (Partitioned tr te)) ->
  length (s_values cate) <> nrows tr + nrows te ->
  estimate_recommendation_impact self (Some cate) ft fe verbose w
  = (inl (ValueError "Length of values does not match length of index",
          set_cate_estimated self cate), w).
Proof.
  intros Hd Hlen. unfold estimate_recommendation_impact.
  erewrite run_bind_raise; [reflexivity|].
  cbn [df args set_cate_estimated]. run_step.
  unfold df_set_values. rewrite decide_False by done. reflexivity.
Qed.

(** X9. A treatment fraction for 'train' that is not zero is used as it
    is passed: it is stored in the session, and the recommendation column of
    the 'train' partition is [recommendation] of that partition's CATE
    column for this fraction. *)
Theorem nonzero_fraction_is_used_as_passed
  (self self' : CausalLift) (cate : option Series) (v : fnum)
  (fe : option fnum) (verbose : option Z) (w w' : world) (e : Table) :
  truthy v = true ->
  estimate_recommendation_impact self cate (Some v) fe verbose w
  = (inr (self', e), w') ->
  tf_train (treatment_fractions self') = v /\
  exists d' s,
    heap w' !! df self = Some (PyDataFrame d') /\
    partition_column train d' (col_recommendation (args self))
    = inr (recommendation s v) /\
    (col_recommendation (args self) <> col_cate (args self) ->
     partition_column train d' (col_cate (args self)) = inr (s_values s)).
Proof.
  intros Hv H.
  pose proof (estimate_recommendation_impact_fractions _ _ _ _ _ _ _ _ _ H)
    as [Hfr _].
  apply estimate_recommendation_impact_inv_any in H
    as (d0 & d1 & d2 & t & u & _ & _ & Hr & _ & _ & _ & _ & Hh & _).
  assert (Ev : tf_train (fractions_used self (Some v) fe) = v)
    by (cbn; now apply py_or_truthy).
  split; [now rewrite Hfr|].
  apply recommendation_by_cate_inv in Hr
    as (tr & te & ctr & cte & -> & Hctr & _ & ->).
  rewrite Ev in Hh.
  eexists _, {| s_index := t_index tr; s_values := ctr |}.
  split; [rewrite Hh; apply lookup_insert_eq|].
  split.
  - apply partition_column_inr. cbn [part_of with_column t_columns].
    apply lookup_store_col_eq.
  - intros Hne. apply partition_column_inr.
    cbn [part_of with_column t_columns s_values].
    now rewrite lookup_store_col_ne.
Qed.

(** X10. Fractions passed to [estimate_recommendation_impact] replace the
    stored ones: a later call without fractions uses them again.  The
    attributes [treatment_fraction_train] and [treatment_fraction_test] are
    not assigned by either call: they keep the values they had. *)
Theorem fraction_override_persists
  (self self1 self2 : CausalLift) (cate cate2 : option Series)
  (ft fe : option fnum) (verbose verbose2 : option Z)
  (w w1 w1' w2 : world) (e1 e2 : Table) :
  estimate_recommendation_impact self cate ft fe verbose w
  = (inr (self1, e1), w1) ->
  estimate_recommendation_impact self1 cate2 None None verbose2 w1'
  = (inr (self2, e2), w2) ->
  treatment_fractions self2 = fractions_used self ft fe /\
  treatment_fraction_train self2 = treatment_fraction_train self /\
  treatment_fraction_test self2 = treatment_fraction_test self.
Proof.
  intros H1 H2.
  apply estimate_recommendation_impact_inv_any in H1
    as (? & ? & ? & ? & ? & _ & _ & _ & _ & _ & _ & -> & _ & _).
  apply estimate_recommendation_impact_inv_any in H2
    as (? & ? & ? & ? & ? & _ & _ & _ & _ & _ & _ & -> & _ & _).
  destruct cate, cate2; repeat split.
Qed.

(** *** More on the aggregated impact table *)

(** X11. The table that the aggregation returns has the index of the
    per-arm tables and exactly four columns, in this order: '# samples', the
    observed rate, the predicted rate and the improvement rate, each with one
    value per row. *)
Theorem aggregate_impact_schema
  (t u : Table) (tn0 tr0 tn1 tr1 un0 ur0 un1 ur1 : list fnum) :
  arm_columns t tn0 tr0 tn1 tr1 -> arm_columns u un0 ur0 un1 ur1 ->
  t_index t = t_index u ->
  exists e,
    aggregate_impact t u = inr e /\
    t_index e = t_index t /\
    columns e = [n_samples; rate_without; rate_with; improvement_rate] /\
    well_formed e.
Proof.
  intros Ht Hu Hidx.
  pose proof (aggregate_impact_inr _ _ _ _ _ _ _ _ _ _ Ht Hu Hidx) as He.
  destruct Ht as [T1 T2 T3 T4 L1 L2 L3 L4], Hu as [U1 U2 U3 U4 M1 M2 M3 M4].
  assert (Hn : nrows u = nrows t) by (unfold nrows; now rewrite Hidx).
  eexists. split; [exact He|]. split; [reflexivity|]. split; [reflexivity|].
  unfold well_formed, weighted_rate, nrows in *. cbn [t_columns t_index].
  repeat (apply List.Forall_cons;
          [cbn [snd]; rewrite !length_zip_with; lia|]).
  apply List.Forall_nil.
Qed.

(** X12. The overall predicted conversion rate is the mean of the two arms'
    predicted rates weighted by the numbers of recommended samples, as the
    five float operations compute it; in a row where these counts are
    non-negative numbers with a positive sum and both rates are
    non-negative numbers, it lies between the smaller and the larger of the
    two up to rounding: not below [min * (1 - 4u)] and not above
    [max * (1 + 5u)], for the unit roundoff [u]. *)
Theorem aggregate_impact_predicted_rate
  (t u : Table) (tn0 tr0 tn1 tr1 un0 ur0 un1 ur1 : list fnum)
  (i : nat) (a x b y : Q) :
  arm_columns t tn0 tr0 tn1 tr1 -> arm_columns u un0 ur0 un1 ur1 ->
  t_index t = t_index u ->
  tn1 !! i = Some (Fin a) -> tr1 !! i = Some (Fin x) ->
  un1 !! i = Some (Fin b) -> ur1 !! i = Some (Fin y) ->
  (0 <= a)%Q -> (0 <= b)%Q -> (0 < a + b)%Q -> (0 <= x)%Q -> (0 <= y)%Q ->
  exists e predicted z,
    aggregate_impact t u = inr e /\
    lookup_col rate_with (t_columns e) = Some predicted /\
    predicted !! i = Some (Fin z) /\
    Fin z = fdiv (fadd (fmul (Fin a) (Fin x)) (fmul (Fin b) (Fin y)))
                 (fadd (Fin a) (Fin b)) /\
    (Qmin x y * (1 - 4 * unit_roundoff) <= z)%Q /\
    (z <= Qmax x y * (1 + 5 * unit_roundoff))%Q.
Proof.
  intros Ht Hu Hidx Ha Hx Hb Hy A0 B0 AB X0 Y0.
  pose proof (aggregate_impact_inr _ _ _ _ _ _ _ _ _ _ Ht Hu Hidx) as He.
  destruct (rounded_mean_row a b x y A0 B0 AB X0 Y0) as (z & Ez & Hz1 & Hz2).
  eexists. exists (weighted_rate tn1 tr1 un1 ur1), z.
  split; [exact He|]. cbn [t_columns lookup_col].
  split; [repeat (case_decide; try done)|].
  split; [|split; [now rewrite Ez|split; done]].
  now rewrite (weighted_rate_lookup _ _ _ _ _ _ _ _ _ Ha Hx Hb Hy), Ez.
Qed.

(** A finite quotient is a float. *)
Lemma fdiv_representable (x y : fnum) (p : Q) :
  fdiv x y = Fin p -> representable p.
Proof.
  destruct x as [a|s|], y as [b|s'|]; cbn; try done.
  - destruct (Qeq_bool b 0); [destruct (Qeq_bool a 0); done|].
    intros [= <-]. apply rnd_idempotent.
  - intros [= <-]. apply rnd_zero.
Qed.

Lemma weighted_rate_representable (n_t r_t n_u r_u : list fnum) (i : nat)
  (p : Q) :
  weighted_rate n_t r_t n_u r_u !! i = Some (Fin p) -> representable p.
Proof.
  unfold weighted_rate. intros H.
  apply lookup_zip_with_Some in H as (x & y & E & _ & _).
  symmetry in E. now apply fdiv_representable in E.
Qed.

(** The quotient of a float by a larger positive float is below 1. *)
Lemma rounded_quotient_ge_one (p o : Q) :
  representable p -> representable o -> (0 < o)%Q ->
  (1 <= rnd (p / o))%Q <-> (o <= p)%Q.
Proof.
  intros Hp Ho Hpos. split.
  - intros Hge. destruct (Qlt_le_dec p o) as [Hlt|]; [|done]. exfalso.
    destruct (Qlt_le_dec 0 p) as [Hp0|Hp0].
    + pose proof (rnd_quotient p o Hp Ho Hp0 Hlt). lra.
    + assert (Hq : (p / o <= 0)%Q).
      { apply Qle_shift_div_r; [done|]. lra. }
      pose proof (rnd_monotone _ _ Hq). pose proof rnd_zero. lra.
  - intros Hge. apply rnd_ge_one. apply Qle_shift_div_l; [done|]. lra.
Qed.

(** X13. In a row where the overall observed rate is a positive number and
    the overall predicted rate is a number, the improvement rate is their
    float quotient, and it is at least 1 exactly when the predicted rate is
    at least the observed rate. *)
Theorem improvement_rate_compares_the_rates
  (t u : Table) (tn0 tr0 tn1 tr1 un0 ur0 un1 ur1 : list fnum)
  (e : Table) (predicted observed : list fnum) (i : nat) (p o : Q) :
  arm_columns t tn0 tr0 tn1 tr1 -> arm_columns u un0 ur0 un1 ur1 ->
  t_index t = t_index u ->
  aggregate_impact t u = inr e ->
  lookup_col rate_with (t_columns e) = Some predicted ->
  lookup_col rate_without (t_columns e) = Some observed ->
  predicted !! i = Some (Fin p) -> observed !! i = Some (Fin o) ->
  (0 < o)%Q ->
  exists improvement r,
    lookup_col improvement_rate (t_columns e) = Some improvement /\
    improvement !! i = Some (Fin r) /\
    Fin r = fdiv (Fin p) (Fin o) /\
    ((1 <= r)%Q <-> (o <= p)%Q).
Proof.
  intros Ht Hu Hidx He Hp Ho Hpi Hoi Hpos.
  rewrite (aggregate_impact_inr _ _ _ _ _ _ _ _ _ _ Ht Hu Hidx) in He.
  injection He as <-. cbn [t_columns lookup_col] in *.
  repeat (case_decide; try done).
  injection Hp as <-. injection Ho as <-.
  assert (Ediv : fdiv (Fin p) (Fin o) = Fin (rnd (p / o))).
  { cbn [fdiv]. destruct (Qeq_bool o 0) eqn:E; [|done].
    apply Qeq_bool_iff in E. lra. }
  eexists. exists (rnd (p / o)). split; [reflexivity|]. split; [|split].
  - rewrite lookup_zip_with, Hpi, Hoi. cbn [mbind option_bind].
    now rewrite Ediv.
  - now rewrite Ediv.
  - apply rounded_quotient_ge_one; [| |done].
    + now apply weighted_rate_representable in Hpi.
    + now apply weighted_rate_representable in Hoi.
Qed.

(** *** Failure and composition of the two methods *)

Lemma df_set_values_partitioned_inv (tr te : Table) (c : string)
  (v : list fnum) (d' : DataFrame) :
  df_set_values (Partitioned tr te) c v = inr d' ->
  length v = nrows tr + nrows te /\
  d' = Partitioned (with_column tr c (take (nrows tr) v))
                   (with_column te c (drop (nrows tr) v)).
Proof.
  intros H.
  assert (Hlen : length v = nrows tr + nrows te)
    by (unfold df_set_values in H; case_decide; done).
  split; [done|]. rewrite df_set_values_partitioned in H by done. congruence.
Qed.

(** X14. A call of [estimate_cate_by_2_models] that raises, whatever the
    exception and wherever it comes from, leaves every table of the store
    as it was: the CATE column of the combined table is written only after
    both predictions and their difference have been obtained.  The session
    is as before as well, unless it is the write of the column that raised:
    then [cate_estimated] already holds the new series. *)
Theorem estimate_cate_by_2_models_failure_leaves_table
  (self self' : CausalLift) (verbose : option Z) (w w' : world)
  (tr te : Table) (e : exn) :
  heap w !! df self = Some (PyDataFrame (Partitioned tr te)) ->
  estimate_cate_by_2_models self verbose w = (inl (e, self'), w') ->
  heap w' = heap w /\
  (self' = self \/
   exists cate,
     self' = set_cate_estimated self cate /\
     df_set_values (Partitioned tr te) (col_cate (args self)) (s_values cate)
     = inl e).
Proof.
  intros Hd Hrun. unfold estimate_cate_by_2_models in Hrun.
  erewrite run_bind in Hrun by (apply run_during, run_deref_df; eassumption).
  destruct (predict_proba Treated (args self) (Partitioned tr te)
              (model_treated self)) as [e1|pt] eqn:Ept.
  { erewrite run_bind_raise in Hrun by (apply run_during_raise, run_invoke).
    injection Hrun as _ <- <-. split; [reflexivity|now left]. }
  erewrite run_bind in Hrun by (apply run_during, run_invoke).
  destruct (predict_proba Untreated (args self) (Partitioned tr te)
              (model_untreated self)) as [e2|pu] eqn:Epu.
  { erewrite run_bind_raise in Hrun by (apply run_during_raise, run_invoke).
    injection Hrun as _ <- <-. split; [reflexivity|now left]. }
  erewrite run_bind in Hrun by (apply run_during, run_invoke).
  destruct (series_binop fsub pt pu) as [e3|cate] eqn:Ec.
  { erewrite run_bind_raise in Hrun by reflexivity.
    injection Hrun as _ <- <-. split; [reflexivity|now left]. }
  erewrite run_bind in Hrun by reflexivity.
  cbv zeta in Hrun. cbn [df args set_cate_estimated] in Hrun.
  destruct (df_set_values (Partitioned tr te) (col_cate (args self))
              (s_values cate)) as [e4|d'] eqn:Es.
  { erewrite run_bind_raise in Hrun by reflexivity.
    injection Hrun as <- <- <-. split; [reflexivity|]. right. eauto. }
  apply df_set_values_partitioned_inv in Es as [_ ->].
  erewrite run_bind in Hrun by reflexivity.
  erewrite run_bind in Hrun by (apply run_during, run_store).
  unfold _separate_train_test in Hrun.
  cbn [df args set_cate_estimated] in Hrun.
  erewrite run_bind in Hrun
    by (apply run_during, run_deref_df; cbn [stored heap];
          apply lookup_insert_eq).
  cbn [xs] in Hrun.
  do 2 (erewrite run_bind in Hrun by reflexivity).
  discriminate Hrun.
Qed.

(** What [estimate_recommendation_impact] without a CATE argument does once
    the recommendation column can be written. *)
Lemma estimate_recommendation_impact_after_recommendation
  (self : CausalLift) (ft fe : option fnum) (v : option Z) (w : world)
  (d1 d2 : DataFrame) :
  heap w !! df self = Some (PyDataFrame d1) ->
  recommendation_by_cate d1 (args self) (fractions_used self ft fe) = inr d2 ->
  exists r w' cs,
    estimate_recommendation_impact self None ft fe v w = (r, w') /\
    heap w' = <[df self := PyDataFrame d2]> (heap w) /\
    calls w' = calls w ++ call_simulate_recommendation Treated :: cs /\
    forall e s, r = inl (e, s) ->
      simulate_recommendation Treated (args self) d2 (model_treated self)
        (score_original_treatment_treated_df self) = inl e
      \/ simulate_recommendation Untreated (args self) d2
           (model_untreated self)
           (score_original_treatment_untreated_df self) = inl e
      \/ exists t u,
           simulate_recommendation Treated (args self) d2
             (model_treated self)
             (score_original_treatment_treated_df self) = inr t /\
           simulate_recommendation Untreated (args self) d2
             (model_untreated self)
             (score_original_treatment_untreated_df self) = inr u /\
           aggregate_impact t u = inl e.
Proof.
  intros Hd Hr. unfold estimate_recommendation_impact.
  erewrite run_bind by reflexivity. cbv zeta.
  cbn [df args set_treatment_fractions treatment_fractions model_treated
         model_untreated score_original_treatment_treated_df
         score_original_treatment_untreated_df].
  fold (fractions_used self ft fe).
  run_step. rewrite Hr. do 2 run_step.
  destruct (simulate_recommendation Treated (args self) d2
              (model_treated self)
              (score_original_treatment_treated_df self)) as [e1|t] eqn:Et.
  { erewrite run_bind_raise by (apply run_during_raise, run_invoke).
    eexists _, _, []. split; [reflexivity|]. split; [reflexivity|].
    split; [reflexivity|]. intros e s [= <- _]. now left. }
  run_step.
  destruct (simulate_recommendation Untreated (args self) d2
              (model_untreated self)
              (score_original_treatment_untreated_df self)) as [e2|u] eqn:Eu.
  { erewrite run_bind_raise by (apply run_during_raise, run_invoke).
    eexists _, _, [_]. split; [reflexivity|]. split; [reflexivity|].
    split; [cbn [logged stored calls]; now rewrite <- app_assoc|].
    intros e s [= <- _]. right. now left. }
  run_step. cbv zeta.
  destruct (aggregate_impact t u) as [e3|eff] eqn:Ea.
  { erewrite run_bind_raise by reflexivity.
    eexists _, _, [_]. split; [reflexivity|]. split; [reflexivity|].
    split; [cbn [logged stored calls]; now rewrite <- app_assoc|].
    intros e s [= <- _]. right. right. eauto. }
  run_step.
  eexists _, _, [_]. split; [reflexivity|]. split; [reflexivity|].
  split; [cbn [logged stored calls]; now rewrite <- app_assoc|].
  intros e s [=].
Qed.

(** X15. The two methods compose: after [estimate_cate_by_2_models] has
    returned on a session whose partitions are indexed [0 .. n-1] (as the
    constructor's [reset_index] leaves them), a call of
    [estimate_recommendation_impact] without a CATE argument finds the CATE
    column, writes one recommendation per row in both partitions and calls
    [simulate_recommendation]; an exception can then come only from one of
    the two simulations, or from the aggregation of the two tables that they
    have returned. *)
Theorem recommendation_follows_cate
  (self self1 : CausalLift) (verbose verbose' : option Z)
  (ft fe : option fnum) (w w1 : world) (tr te : Table)
  (tables : Table * Table) :
  heap w !! df self = Some (PyDataFrame (Partitioned tr te)) ->
  range_indexed tr -> range_indexed te ->
  estimate_cate_by_2_models self verbose w = (inr (self1, tables), w1) ->
  exists r w2 cs d2 rtr rte,
    estimate_recommendation_impact self1 None ft fe verbose' w1 = (r, w2) /\
    calls w2 = calls w1 ++ call_simulate_recommendation Treated :: cs /\
    heap w2 !! df self = Some (PyDataFrame d2) /\
    partition_column train d2 (col_recommendation (args self)) = inr rtr /\
    partition_column test d2 (col_recommendation (args self)) = inr rte /\
    length rtr = nrows tr /\ length rte = nrows te /\
    forall e s, r = inl (e, s) ->
      simulate_recommendation Treated (args self) d2 (model_treated self)
        (score_original_treatment_treated_df self) = inl e
      \/ simulate_recommendation Untreated (args self) d2
           (model_untreated self)
           (score_original_treatment_untreated_df self) = inl e
      \/ exists t u,
           simulate_recommendation Treated (args self) d2
             (model_treated self)
             (score_original_treatment_treated_df self) = inr t /\
           simulate_recommendation Untreated (args self) d2
             (model_untreated self)
             (score_original_treatment_untreated_df self) = inr u /\
           aggregate_impact t u = inl e.
Proof.
  intros Hd Rtr Rte Hrun.
  apply estimate_cate_by_2_models_inv in Hrun
    as (d & pt & pu & cate & d' & Hd' & _ & _ & _ & Hset & _ & _ & -> & Hh & _).
  rewrite Hd in Hd'. injection Hd' as <-.
  apply df_set_values_partitioned_inv in Hset as [Hlen ->].
  set (c := col_cate (args self)) in *.
  set (v := s_values cate) in *.
  set (tr' := with_column tr c (take (nrows tr) v)) in *.
  set (te' := with_column te c (drop (nrows tr) v)) in *.
  set (self1 := set_train_test (set_cate_estimated self cate)
                  (fst tables) (snd tables)).
  assert (Ltr : length (take (nrows tr) v) = nrows tr)
    by (rewrite length_take; lia).
  assert (Lte : length (drop (nrows tr) v) = nrows te)
    by (rewrite length_drop; lia).
  set (rtr := recommendation
                {| s_index := t_index tr; s_values := take (nrows tr) v |}
                (tf_train (fractions_used self1 ft fe))).
  set (rte := recommendation
                {| s_index := t_index te; s_values := drop (nrows tr) v |}
                (tf_test (fractions_used self1 ft fe))).
  assert (Hrec : recommendation_by_cate (Partitioned tr' te') (args self1)
                   (fractions_used self1 ft fe)
                 = inr (Partitioned
                          (with_column tr' (col_recommendation (args self)) rtr)
                          (with_column te' (col_recommendation (args self)) rte))).
  { erewrite recommendation_by_cate_partitioned
      by (cbn [args self1 set_train_test set_cate_estimated tr' te'
                 with_column t_columns]; apply lookup_store_col_eq).
    cbn [tr' te' with_column t_index].
    apply df_set_series_partitioned;
      unfold rtr, rte; rewrite recommendation_length; cbn [s_values t_index];
      rewrite ?Ltr, ?Lte; symmetry; assumption. }
  destruct (estimate_recommendation_impact_after_recommendation
              self1 ft fe verbose' w1 _ _
              ltac:(rewrite Hh; apply lookup_insert_eq) Hrec)
    as (r & w2 & cs & Hrun & Hh2 & Hc2 & Hfail).
  exists r, w2, cs. eexists. exists rtr, rte.
  split; [exact Hrun|]. split; [exact Hc2|].
  split; [rewrite Hh2; apply lookup_insert_eq|].
  split; [apply partition_column_inr, lookup_store_col_eq|].
  split; [apply partition_column_inr, lookup_store_col_eq|].
  split; [unfold rtr; now rewrite recommendation_length|].
  split; [unfold rte; now rewrite recommendation_length|].
  exact Hfail.
Qed.

(** X16. Unlike [estimate_cate_by_2_models], a failing
    [estimate_recommendation_impact] does not leave the table as it was:
    when the simulation for the treated arm raises, the exception is passed
    on and the simulation for the untreated arm is not called, but the
    recommendation column has already been written, and the session already
    holds the fractions of this call. *)
Theorem failed_simulation_keeps_recommendation
  (self : CausalLift) (ft fe : option fnum) (verbose : option Z) (w : world)
  (d1 d2 : DataFrame) (e : exn) :
  heap w !! df self = Some (PyDataFrame d1) ->
  recommendation_by_cate d1 (args self) (fractions_used self ft fe) = inr d2 ->
  simulate_recommendation Treated (args self) d2 (model_treated self)
    (score_original_treatment_treated_df self) = inl e ->
  exists w',
    estimate_recommendation_impact self None ft fe verbose w
    = (inl (e, set_treatment_fractions self (fractions_used self ft fe)), w') /\
    heap w' = <[df self := PyDataFrame d2]> (heap w) /\
    calls w' = calls w ++ [call_simulate_recommendation Treated].
Proof.
  intros Hd Hr He. unfold estimate_recommendation_impact.
  erewrite run_bind by reflexivity. cbv zeta.
  cbn [df args set_treatment_fractions treatment_fractions model_treated
         model_untreated score_original_treatment_treated_df
         score_original_treatment_untreated_df].
  fold (fractions_used self ft fe).
  run_step. rewrite Hr. do 2 run_step. rewrite He.
  erewrite run_bind_raise by (apply run_during_raise, run_invoke).
  eexists. repeat split; reflexivity.
Qed.

(** *** More on the constructor *)

Lemma init_session_returns (args1 : Args) (l1 l2 : loc) (w w' : world)
  (self : CausalLift) :
  init_session args1 l1 l2 w = (inr self, w') ->
  calls w' = calls w ++ fitting_calls /\
  args self = args1 /\
  cate_estimated self = None /\
  exists d, heap w' !! df self = Some (PyDataFrame d) /\ fitted_on self d.
Proof.
  unfold init_session, concat_train_test_df, deref_df, deref, invoke, bind,
    log, lift, alloc, ret, raise, fitted_on, fitting_calls.
  intros H. cbn [heap calls] in H.
  repeat (case_match; simplify_eq/=).
  split; [now rewrite <- !app_assoc|]. do 2 (split; [done|]).
  eexists. split; [eassumption|].
  repeat match goal with p : (_ * _)%type |- _ => destruct p end.
  cbn [fst snd]. auto.
Qed.

Lemma init_tables_returns (args1 : Args) (d1 d2 : DataFrame) (w w' : world)
  (self : CausalLift) :
  init_tables args1 d1 d2 w = (inr self, w') ->
  (exists cs,
     calls w' = calls w ++ cs ++ fitting_calls /\
     (cs = [] \/
      exists l1 l2, cs = [call_estimate_propensity l1 l2] /\ l1 <> l2 /\
                    heap w !! l1 = None /\ heap w !! l2 = None)) /\
  args self = args1 /\
  cate_estimated self = None /\
  exists d, heap w' !! df self = Some (PyDataFrame d) /\ fitted_on self d.
Proof.
  intros Hrun. unfold init_tables in Hrun.
  erewrite run_bind in Hrun by reflexivity.
  erewrite run_bind in Hrun by reflexivity.
  destruct (enable_ipw args1
            && negb (bool_decide
                       (col_propensity args1 ∈ columns (df_reset_index d1)))).
  - unfold bind at 1, invoke_estimate_propensity, bind, log in Hrun.
    cbn [heap calls] in Hrun.
    set (train1 := fresh (dom (heap w))) in *.
    set (h2 := <[train1 := PyDataFrame (Flat (df_reset_index d1))]> (heap w)) in *.
    set (test1 := fresh (dom h2)) in *.
    destruct (estimate_propensity train1 test1 args1 _) as [[e|refs] h4];
      cbv beta iota in Hrun; [done|].
    apply init_session_returns in Hrun as (Hc & Ha & Hn & Hd).
    cbn [heap calls] in Hc. split; [|done].
    exists [call_estimate_propensity train1 test1].
    split; [now rewrite Hc, <- app_assoc|]. right.
    exists train1, test1. split; [done|].
    split; [|split].
    + intros E. pose proof (fresh_lookup_None h2) as Hnone.
      fold test1 in Hnone. rewrite <- E in Hnone. unfold h2 in Hnone.
      now rewrite lookup_insert_eq in Hnone.
    + apply fresh_lookup_None.
    + eapply (lookup_weaken_None (heap w) h2);
        [apply fresh_lookup_None|apply alloc_subseteq].
  - erewrite run_bind in Hrun by reflexivity. cbn [fst snd heap calls] in Hrun.
    apply init_session_returns in Hrun as (Hc & Ha & Hn & Hd).
    cbn [heap calls] in Hc. split; [|done].
    exists []. split; [done|now left].
Qed.

(** X17. A construction that returns has made its outside calls in this
    order: [get_cols_features] unless a non-empty list of feature columns
    was passed, then at most one call of [estimate_propensity], then
    [concat_train_test_df], the fit of the treated arm, the fit of the
    untreated arm and [treatment_fractions_].  The two tables handed to
    [estimate_propensity] are objects that did not exist before the call:
    the copies, never the caller's tables. *)
Theorem init_call_sequence
  (train_ref test_ref : loc) (kwargs : list kwarg) (w w' : world)
  (self : CausalLift) :
  __init__ train_ref test_ref kwargs w = (inr self, w') ->
  exists cs,
    calls w' =
      calls w
      ++ match cols_features (update default_args kwargs) with
         | Some (_ :: _) => []
         | _ => [call_get_cols_features]
         end
      ++ cs ++ fitting_calls /\
    (cs = [] \/
     exists l1 l2, cs = [call_estimate_propensity l1 l2] /\ l1 <> l2 /\
                   heap w !! l1 = None /\ heap w !! l2 = None).
Proof.
  intros Hrun. unfold __init__ in Hrun.
  destruct (heap w !! train_ref) as [o1|] eqn:H1;
    [|unfold bind, deref in Hrun; now rewrite H1 in Hrun].
  destruct (heap w !! test_ref) as [o2|] eqn:H2;
    [|unfold bind, deref in Hrun; now rewrite H1, H2 in Hrun].
  erewrite run_bind in Hrun by (apply run_deref; eassumption).
  erewrite run_bind in Hrun by (apply run_deref; eassumption).
  destruct o1 as [d1|], o2 as [d2|]; try done.
  destruct (negb (bool_decide (set_columns_of d1 = set_columns_of d2)));
    [done|].
  destruct (cols_features (update default_args kwargs)) as [[|c l]|];
    erewrite run_bind in Hrun by reflexivity;
    apply init_tables_returns in Hrun as ((cs & Hc & Hcs) & _);
    cbn [logged heap calls] in *;
    exists cs; (split; [|exact Hcs]);
    rewrite Hc, <- ?app_assoc; reflexivity.
Qed.

(** X18. The constructor keeps a non-empty list of feature columns exactly
    as passed; with [None] and also with an empty list it takes the result
    of [get_cols_features] for the caller's train table and the five
    reserved column names.  Every other option is as [update] left it. *)
Theorem init_feature_columns
  (train_ref test_ref : loc) (kwargs : list kwarg) (w w' : world)
  (self : CausalLift) (d1 : DataFrame) :
  heap w !! train_ref = Some (PyDataFrame d1) ->
  __init__ train_ref test_ref kwargs w = (inr self, w') ->
  let a := update default_args kwargs in
  args self = set_kwarg a (kw_cols_features (cols_features (args self))) /\
  (forall c l, cols_features a = Some (c :: l) ->
     cols_features (args self) = Some (c :: l)) /\
  (cols_features a = None \/ cols_features a = Some [] ->
     cols_features (args self)
     = Some (get_cols_features d1
               [col_treatment a; col_outcome a; col_propensity a;
                col_cate a; col_recommendation a])).
Proof.
  intros H1 Hrun a. unfold __init__ in Hrun. fold a in Hrun.
  erewrite run_bind in Hrun by (apply run_deref; eassumption).
  destruct (heap w !! test_ref) as [o2|] eqn:H2;
    [|unfold bind, deref in Hrun; now rewrite H2 in Hrun].
  erewrite run_bind in Hrun by (apply run_deref; eassumption).
  destruct o2 as [d2|]; [|done].
  destruct (negb (bool_decide (set_columns_of d1 = set_columns_of d2)));
    [done|].
  assert (Hset : forall f, cols_features (set_kwarg a (kw_cols_features f)) = f)
    by (intros f; now destruct a).
  destruct (cols_features a) as [[|c l]|] eqn:Ef;
    erewrite run_bind in Hrun by reflexivity;
    apply init_tables_returns in Hrun as (_ & -> & _);
    rewrite !Hset;
    (split; [reflexivity|split; [intros ? ? [=]; subst; done|]]);
    try (intros _; reflexivity); intros [[=]|[=]].
Qed.

(** X19. A session that the constructor returns holds what the
    collaborators returned for its combined table under its final options
    (the feature columns settled): the model and the score table of [fit] for
    each arm, and the treatment fractions of [treatment_fractions_], which
    the attributes [treatment_fraction_train] and [treatment_fraction_test]
    repeat.  No CATE has been estimated yet. *)
Theorem init_returns_fitted_session
  (train_ref test_ref : loc) (kwargs : list kwarg) (w w' : world)
  (self : CausalLift) :
  __init__ train_ref test_ref kwargs w = (inr self, w') ->
  cate_estimated self = None /\
  exists d, heap w' !! df self = Some (PyDataFrame d) /\ fitted_on self d.
Proof.
  intros Hrun. apply init_cases in Hrun as [[_ [e [=]]]|Hrun].
  destruct Hrun as (args1 & d1 & d2 & cs0 & Hrun).
  now apply init_tables_returns in Hrun as (_ & _ & Hn & Hd).
Qed.

(** X20. When the constructor does not estimate propensities, the two
    partitions of the session's combined table are indexed [0 .. n-1]
    whatever index the caller's tables had, and each has as many rows as the
    caller's table. *)
Theorem init_reindexes_partitions
  (train_ref test_ref : loc) (kwargs : list kwarg) (w w' : world)
  (self : CausalLift) (d1 d2 : DataFrame) :
  heap w !! train_ref = Some (PyDataFrame d1) ->
  heap w !! test_ref = Some (PyDataFrame d2) ->
  ~ propensity_needed (update default_args kwargs) d1 ->
  __init__ train_ref test_ref kwargs w = (inr self, w') ->
  exists tr te,
    heap w' !! df self = Some (PyDataFrame (Partitioned tr te)) /\
    range_indexed tr /\ range_indexed te /\
    nrows tr = df_nrows d1 /\ nrows te = df_nrows d2 /\
    train_df self = tr /\ test_df self = te.
Proof.
  intros H1 H2 Hn Hrun.
  assert (Hcols : set_columns_of d1 = set_columns_of d2).
  { destruct (decide (set_columns_of d1 = set_columns_of d2)); [done|].
    unfold __init__ in Hrun.
    erewrite run_bind in Hrun by (apply run_deref; eassumption).
    erewrite run_bind in Hrun by (apply run_deref; eassumption).
    cbv beta iota in Hrun. now rewrite bool_decide_eq_false_2 in Hrun. }
  destruct (init_unfold _ _ kwargs _ _ _ H1 H2 Hcols) as (feats & cs0 & _ & E).
  rewrite E in Hrun.
  apply init_tables_effect in Hrun as (_ & Hnot & _).
  destruct (set_kwarg_cols_features (update default_args kwargs) (Some feats))
    as [Eipw Ecol].
  rewrite Eipw, Ecol in Hnot.
  destruct (Hnot Hn) as [_ Hself].
  destruct (Hself self eq_refl) as (Hd & Htr & Hte & _).
  assert (Hri : forall d, range_indexed (df_reset_index d)
                          /\ nrows (df_reset_index d) = df_nrows d).
  { intros [t|tr te]; unfold range_indexed, df_reset_index, reset_index, nrows;
      cbn [t_index vstack df_nrows]; rewrite length_RangeIndex;
      rewrite ?length_app; done. }
  exists (df_reset_index d1), (df_reset_index d2).
  split; [exact Hd|].
  destruct (Hri d1), (Hri d2). repeat split; done.
Qed.

End Session.

(** ** Python's floats

    IEEE-754 binary64 with round-to-nearest, ties to even, on an unbounded
    exponent range: a positive number in the binade [2^e, 2^(e+1)) is
    rounded to the nearest multiple of [2^(e-52)].  The laws of [Rounding]
    are proved for it, and the scenarios below compute with it. *)

Module Binary64.

Local Open Scope Q_scope.

Definition pow2 (e : Z) : Q := 2 ^ e.

Definition nearest_even (x : Q) : Z :=
  let f := Qfloor x in
  match Qcompare (x - inject_Z f) (1 # 2) with
  | Lt => f
  | Gt => (f + 1)%Z
  | Eq => if Z.even f then f else (f + 1)%Z
  end.

Definition binade (x : Q) : Z :=
  let k := (Z.log2 (Qnum x) - Z.log2 (Zpos (Qden x)))%Z in
  if Qle_bool (pow2 k) x then k else (k - 1)%Z.

Definition ulp (x : Q) : Q := pow2 (binade x - 52).

Definition round_pos (x : Q) : Q :=
  inject_Z (nearest_even (x / ulp x)) * ulp x.

Definition round (x : Q) : Q :=
  match Qcompare x 0 with
  | Eq => 0
  | Gt => Qred (round_pos x)
  | Lt => Qred (- round_pos (- x))
  end.

(** The unit roundoff: half the distance from 1 to the next float. *)
Definition unit_roundoff64 : Q := 1 # 2 ^ 53.

Lemma pow2_pos (e : Z) : 0 < pow2 e.
Proof. apply Qpower_0_lt. reflexivity. Qed.

Lemma pow2_add (a b : Z) : pow2 (a + b) == pow2 a * pow2 b.
Proof. apply Qpower_plus. discriminate. Qed.

Lemma pow2_le (a b : Z) : (a <= b)%Z -> pow2 a <= pow2 b.
Proof. intros H. apply Qpower_le_compat_l; [done|discriminate]. Qed.

Lemma pow2_lt (a b : Z) : (a < b)%Z -> pow2 a < pow2 b.
Proof. intros H. apply Qpower_lt_compat_l; [done|reflexivity]. Qed.

Lemma pow2_lt_inv (a b : Z) : pow2 a < pow2 b -> (a < b)%Z.
Proof. intros H. eapply Qpower_lt_compat_l_inv; [exact H|reflexivity]. Qed.

Lemma pow2_Z (n : Z) : (0 <= n)%Z -> inject_Z (2 ^ n) == pow2 n.
Proof. intros H. now apply Zpower_Qpower. Qed.

Lemma pow2_succ (e : Z) : pow2 (e + 1) == 2 * pow2 e.
Proof. rewrite pow2_add. change (pow2 1) with 2. generalize (pow2 e). intros q. ring. Qed.

Lemma pow2_pred (e : Z) : pow2 (e - 1) == pow2 e * (1 # 2).
Proof.
  unfold Z.sub. rewrite pow2_add. change (pow2 (-1)) with (1 # 2).
  reflexivity.
Qed.

(** The binade of a positive number. *)
Lemma binade_spec (x : Q) :
  0 < x -> pow2 (binade x) <= x /\ x < pow2 (binade x + 1).
Proof.
  intros Hx. destruct x as [n d]. unfold binade. cbn [Qnum Qden].
  assert (Hn : (0 < n)%Z) by (unfold Qlt in Hx; simpl in Hx; lia).
  set (a := Z.log2 n). set (b := Z.log2 (Z.pos d)).
  destruct (Z.log2_spec n Hn) as [A1 A2]. fold a in A1, A2.
  destruct (Z.log2_spec (Z.pos d) ltac:(lia)) as [B1 B2]. fold b in B1, B2.
  assert (Ha : (0 <= a)%Z) by apply Z.log2_nonneg.
  assert (Hb : (0 <= b)%Z) by apply Z.log2_nonneg.
  assert (Ex : n # d == inject_Z n / inject_Z (Z.pos d)) by apply Qmake_Qdiv.
  assert (Dpos : 0 < inject_Z (Z.pos d)) by reflexivity.
  assert (QA1 : pow2 a <= inject_Z n) by (rewrite <- pow2_Z, <- Zle_Qle; done).
  assert (QA2 : inject_Z n < pow2 (a + 1))
    by (rewrite <- pow2_Z, <- Zlt_Qlt by lia; replace (a + 1)%Z with (Z.succ a) by lia; done).
  assert (QB1 : pow2 b <= inject_Z (Z.pos d))
    by (rewrite <- pow2_Z, <- Zle_Qle; done).
  assert (QB2 : inject_Z (Z.pos d) < pow2 (b + 1))
    by (rewrite <- pow2_Z, <- Zlt_Qlt by lia; replace (b + 1)%Z with (Z.succ b) by lia; done).
  pose proof (pow2_pos b) as Pb. pose proof (pow2_pos a) as Pa.
  (* x < 2^(a-b+1) and 2^(a-b-1) < x *)
  assert (Hup : n # d < pow2 (a - b + 1)).
  { rewrite Ex. apply Qlt_shift_div_r; [done|].
    assert (E : pow2 (a + 1) == pow2 (a - b + 1) * pow2 b).
    { rewrite <- pow2_add. now replace (a - b + 1 + b)%Z with (a + 1)%Z by lia. }
    pose proof (pow2_pos (a - b + 1)).
    apply Qlt_le_trans with (pow2 (a + 1)); [done|]. rewrite E. nra. }
  assert (Hlow : pow2 (a - b - 1) < n # d).
  { rewrite Ex. apply Qlt_shift_div_l; [done|].
    assert (E : pow2 a == pow2 (a - b - 1) * pow2 (b + 1)).
    { rewrite <- pow2_add. now replace (a - b - 1 + (b + 1))%Z with a by lia. }
    pose proof (pow2_pos (a - b - 1)).
    apply Qlt_le_trans with (pow2 a); [|done]. rewrite E. nra. }
  destruct (Qle_bool (pow2 (a - b)) (n # d)) eqn:E.
  - apply Qle_bool_iff in E. split; done.
  - split; [now apply Qlt_le_weak|].
    replace (a - b - 1 + 1)%Z with (a - b)%Z by lia.
    apply Qnot_le_lt. intros H. apply Qle_bool_iff in H. congruence.
Qed.

Lemma binade_unique (x : Q) (e : Z) :
  pow2 e <= x -> x < pow2 (e + 1) -> binade x = e.
Proof.
  intros H1 H2.
  assert (Hx : 0 < x) by (pose proof (pow2_pos e); lra).
  destruct (binade_spec x Hx) as [B1 B2].
  assert (pow2 e < pow2 (binade x + 1)) by lra.
  assert (pow2 (binade x) < pow2 (e + 1)) by lra.
  apply pow2_lt_inv in H, H0. lia.
Qed.

(** *** Rounding to the nearest integer, ties to even *)

Lemma inject_Z_succ (n : Z) : inject_Z (n + 1) == inject_Z n + 1.
Proof. rewrite inject_Z_plus. reflexivity. Qed.

Lemma nearest_even_cases (y : Q) :
  let f := Qfloor y in
  (nearest_even y = f /\ y - inject_Z f <= 1 # 2)
  \/ (nearest_even y = (f + 1)%Z /\ 1 # 2 <= y - inject_Z f).
Proof.
  intros f. unfold nearest_even. fold f.
  destruct (Qcompare (y - inject_Z f) (1 # 2)) eqn:E.
  - apply Qeq_alt in E. destruct (Z.even f); [left|right]; split; try done; lra.
  - apply Qlt_alt in E. left. split; [done|lra].
  - apply Qgt_alt in E. right. split; [done|lra].
Qed.

Lemma nearest_even_error (y : Q) :
  Qabs (inject_Z (nearest_even y) - y) <= 1 # 2.
Proof.
  pose proof (Qfloor_le y) as F1. pose proof (Qlt_floor y) as F2.
  rewrite inject_Z_succ in F2.
  apply Qabs_Qle_condition.
  destruct (nearest_even_cases y) as [[-> H]|[-> H]];
    rewrite ?inject_Z_succ; split; lra.
Qed.

Lemma nearest_even_proper (y y' : Q) :
  y == y' -> nearest_even y = nearest_even y'.
Proof.
  intros E. unfold nearest_even. rewrite (Qfloor_comp _ _ E).
  assert (E' : y - inject_Z (Qfloor y') == y' - inject_Z (Qfloor y'))
    by (rewrite E; reflexivity).
  now rewrite (Qcompare_comp _ _ E' (1 # 2) (1 # 2) (Qeq_refl _)).
Qed.

Lemma nearest_even_Z (n : Z) : nearest_even (inject_Z n) = n.
Proof.
  unfold nearest_even. rewrite Qfloor_Z.
  assert (E : Qcompare (inject_Z n - inject_Z n) (1 # 2) = Lt).
  { apply (proj1 (Qlt_alt _ _)). generalize (inject_Z n). intros q. lra. }
  now rewrite E.
Qed.

Lemma nearest_even_mono (y y' : Q) :
  y <= y' -> (nearest_even y <= nearest_even y')%Z.
Proof.
  intros Hy.
  pose proof (Qfloor_resp_le _ _ Hy) as Hf.
  pose proof (Qfloor_le y) as F1. pose proof (Qlt_floor y) as F2.
  pose proof (Qfloor_le y') as F1'. pose proof (Qlt_floor y') as F2'.
  rewrite inject_Z_succ in F2, F2'.
  destruct (Z.eq_dec (Qfloor y) (Qfloor y')) as [E|Hne].
  - unfold nearest_even. rewrite <- E.
    destruct (Qcompare (y - inject_Z (Qfloor y)) (1 # 2)) eqn:C,
             (Qcompare (y' - inject_Z (Qfloor y)) (1 # 2)) eqn:C';
      first [apply Qeq_alt in C | apply Qlt_alt in C | apply Qgt_alt in C];
      first [apply Qeq_alt in C' | apply Qlt_alt in C' | apply Qgt_alt in C'];
      try destruct (Z.even (Qfloor y)); try lia; exfalso; lra.
  - assert (Hlt : (Qfloor y + 1 <= Qfloor y')%Z) by lia.
    destruct (nearest_even_cases y) as [[-> _]|[-> _]],
             (nearest_even_cases y') as [[-> _]|[-> _]]; lia.
Qed.

Lemma nearest_even_between (y : Q) (lo hi : Z) :
  inject_Z lo <= y -> y <= inject_Z hi ->
  (lo <= nearest_even y <= hi)%Z.
Proof.
  intros H1 H2. split.
  - rewrite <- (nearest_even_Z lo). now apply nearest_even_mono.
  - rewrite <- (nearest_even_Z hi). now apply nearest_even_mono.
Qed.

(** *** Rounding a positive number to 53 bits *)

Lemma ulp_pos (x : Q) : 0 < ulp x.
Proof. apply pow2_pos. Qed.

Lemma pow2_ulp (e k : Z) : pow2 (e - 52 + k) == pow2 k * pow2 (e - 52).
Proof. rewrite pow2_add. generalize (pow2 k) (pow2 (e - 52)). intros; ring. Qed.

Lemma binade_ulp (x : Q) :
  pow2 (binade x) == inject_Z (2 ^ 52) * ulp x
  /\ pow2 (binade x + 1) == inject_Z (2 ^ 53) * ulp x.
Proof.
  unfold ulp. rewrite !pow2_Z by lia. rewrite <- !pow2_ulp. split.
  - now replace (binade x - 52 + 52)%Z with (binade x) by lia.
  - now replace (binade x - 52 + 53)%Z with (binade x + 1)%Z by lia.
Qed.

Lemma scaled_times_ulp (x : Q) : x / ulp x * ulp x == x.
Proof. pose proof (ulp_pos x). field. lra. Qed.

Lemma scaled_range (x : Q) :
  0 < x -> inject_Z (2 ^ 52) <= x / ulp x /\ x / ulp x < inject_Z (2 ^ 53).
Proof.
  intros Hx. destruct (binade_spec x Hx) as [B1 B2].
  destruct (binade_ulp x) as [E1 E2]. pose proof (ulp_pos x) as Hu.
  rewrite E1 in B1. rewrite E2 in B2. split.
  - apply Qle_shift_div_l; [done|]. lra.
  - apply Qlt_shift_div_r; [done|]. lra.
Qed.

Lemma mantissa_range (x : Q) :
  0 < x -> (2 ^ 52 <= nearest_even (x / ulp x) <= 2 ^ 53)%Z.
Proof.
  intros Hx. destruct (scaled_range x Hx) as [S1 S2].
  apply nearest_even_between; [done|]. now apply Qlt_le_weak.
Qed.

Lemma round_pos_bounds (x : Q) :
  0 < x ->
  pow2 (binade x) <= round_pos x /\ round_pos x <= pow2 (binade x + 1).
Proof.
  intros Hx. destruct (mantissa_range x Hx) as [M1 M2].
  destruct (binade_ulp x) as [E1 E2]. pose proof (ulp_pos x) as Hu.
  rewrite E1, E2. unfold round_pos.
  rewrite Zle_Qle in M1, M2.
  split; apply Qmult_le_compat_r; try done; lra.
Qed.

Lemma round_pos_positive (x : Q) : 0 < x -> 0 < round_pos x.
Proof.
  intros Hx. destruct (round_pos_bounds x Hx) as [B _].
  pose proof (pow2_pos (binade x)). lra.
Qed.

Lemma round_pos_error (x : Q) :
  0 < x -> Qabs (round_pos x - x) <= (1 # 2 ^ 53) * x.
Proof.
  intros Hx. pose proof (nearest_even_error (x / ulp x)) as He.
  pose proof (scaled_times_ulp x) as Ex. pose proof (ulp_pos x) as Hu.
  destruct (scaled_range x Hx) as [S1 _].
  rewrite Qabs_Qle_condition in He |- *. unfold round_pos.
  set (m := inject_Z (nearest_even (x / ulp x))) in *.
  set (y := x / ulp x) in *. set (u := ulp x) in *.
  change (inject_Z (2 ^ 52)) with (4503599627370496 # 1) in S1.
  change (1 # 2 ^ 53) with (1 # 9007199254740992).
  destruct He as [He1 He2]. split; nra.
Qed.

Lemma binade_proper (x y : Q) : 0 < x -> x == y -> binade x = binade y.
Proof.
  intros Hx E. destruct (binade_spec x Hx) as [B1 B2].
  symmetry. apply binade_unique; lra.
Qed.

Lemma round_pos_proper (x y : Q) : 0 < x -> x == y -> round_pos x == round_pos y.
Proof.
  intros Hx E. unfold round_pos, ulp. rewrite <- (binade_proper x y Hx E).
  assert (E' : x / pow2 (binade x - 52) == y / pow2 (binade x - 52))
    by (apply Qdiv_comp; [exact E|reflexivity]).
  now rewrite (nearest_even_proper _ _ E').
Qed.

Lemma binade_mono (x y : Q) : 0 < x -> x <= y -> (binade x <= binade y)%Z.
Proof.
  intros Hx Hxy. destruct (binade_spec x Hx) as [B1 _].
  destruct (binade_spec y) as [_ B2]; [lra|].
  assert (H : pow2 (binade x) < pow2 (binade y + 1)) by lra.
  apply pow2_lt_inv in H. lia.
Qed.

Lemma round_pos_mono (x y : Q) :
  0 < x -> x <= y -> round_pos x <= round_pos y.
Proof.
  intros Hx Hxy. assert (Hy : 0 < y) by lra.
  pose proof (binade_mono x y Hx Hxy) as Hb.
  destruct (Z.eq_dec (binade x) (binade y)) as [E|Hne].
  - unfold round_pos, ulp. rewrite <- E.
    pose proof (pow2_pos (binade x - 52)) as Hu.
    apply Qmult_le_compat_r; [|lra].
    rewrite <- Zle_Qle. apply nearest_even_mono.
    apply Qmult_le_compat_r; [done|].
    apply Qlt_le_weak, Qinv_lt_0_compat. done.
  - destruct (round_pos_bounds x Hx) as [_ U].
    destruct (round_pos_bounds y Hy) as [L _].
    assert (pow2 (binade x + 1) <= pow2 (binade y)) by (apply pow2_le; lia).
    lra.
Qed.

(** A number with a mantissa of 53 bits is a float. *)
Lemma round_pos_fix (m e : Z) :
  (2 ^ 52 <= m <= 2 ^ 53)%Z ->
  round_pos (inject_Z m * pow2 (e - 52)) == inject_Z m * pow2 (e - 52).
Proof.
  intros [M1 M2]. set (x := inject_Z m * pow2 (e - 52)).
  pose proof (pow2_pos (e - 52)) as Hu.
  assert (E52 : pow2 e == inject_Z (2 ^ 52) * pow2 (e - 52)).
  { rewrite pow2_Z, <- pow2_ulp by lia.
    now replace (e - 52 + 52)%Z with e by lia. }
  assert (E53 : pow2 (e + 1) == inject_Z (2 ^ 53) * pow2 (e - 52)).
  { rewrite pow2_Z, <- pow2_ulp by lia.
    now replace (e - 52 + 53)%Z with (e + 1)%Z by lia. }
  assert (Q1 : inject_Z (2 ^ 52) <= inject_Z m) by now rewrite <- Zle_Qle.
  destruct (Z.eq_dec m (2 ^ 53)%Z) as [->|Hne].
  - (* the power of two above the binade *)
    assert (Ex : x == pow2 (e + 1)) by (unfold x; now rewrite E53).
    assert (Hb : binade x = (e + 1)%Z).
    { apply binade_unique; rewrite Ex; [apply Qle_refl|].
      apply pow2_lt. lia. }
    unfold round_pos, ulp. rewrite Hb.
    replace (e + 1 - 52)%Z with (e - 52 + 1)%Z by lia.
    assert (Es : x / pow2 (e - 52 + 1) == inject_Z (2 ^ 52)).
    { unfold x. rewrite pow2_succ.
      change (inject_Z (2 ^ 52)) with (4503599627370496 # 1).
      change (inject_Z (2 ^ 53)) with (9007199254740992 # 1).
      revert Hu. generalize (pow2 (e - 52)). intros q Hq. field. lra. }
    rewrite (nearest_even_proper _ _ Es), nearest_even_Z.
    unfold x. rewrite pow2_succ.
    change (inject_Z (2 ^ 52)) with (4503599627370496 # 1).
    change (inject_Z (2 ^ 53)) with (9007199254740992 # 1).
    generalize (pow2 (e - 52)). intros q. ring.
  - assert (Q2 : inject_Z m < inject_Z (2 ^ 53)) by (rewrite <- Zlt_Qlt; lia).
    assert (Hb : binade x = e).
    { apply binade_unique; unfold x; rewrite ?E52, ?E53; nra. }
    unfold round_pos, ulp. rewrite Hb.
    assert (Es : x / pow2 (e - 52) == inject_Z m).
    { unfold x. revert Hu. generalize (pow2 (e - 52)) (inject_Z m).
      intros q r Hq. field. lra. }
    rewrite (nearest_even_proper _ _ Es), nearest_even_Z. reflexivity.
Qed.

Lemma round_pos_idempotent (x : Q) :
  0 < x -> round_pos (round_pos x) == round_pos x.
Proof.
  intros Hx. unfold round_pos at 2 3, ulp.
  apply round_pos_fix. now apply mantissa_range.
Qed.

(** *** Rounding with a sign *)

Lemma round_pos_eq (x : Q) : 0 < x -> round x == round_pos x.
Proof.
  intros Hx. unfold round.
  rewrite (proj1 (Qgt_alt x 0) Hx). apply Qred_correct.
Qed.

Lemma round_neg_eq (x : Q) : x < 0 -> round x == - round_pos (- x).
Proof.
  intros Hx. unfold round.
  rewrite (proj1 (Qlt_alt x 0) Hx). apply Qred_correct.
Qed.

Lemma round_zero_eq (x : Q) : x == 0 -> round x == 0.
Proof.
  intros Hx. unfold round. rewrite (proj1 (Qeq_alt x 0) Hx). reflexivity.
Qed.

Lemma round_proper (x y : Q) : x == y -> round x == round y.
Proof.
  intros E. destruct (Q_dec x 0) as [[H|H]|H].
  - rewrite round_neg_eq, (round_neg_eq y) by lra.
    apply Qopp_comp, round_pos_proper; lra.
  - rewrite round_pos_eq, (round_pos_eq y) by lra.
    apply round_pos_proper; lra.
  - rewrite round_zero_eq, (round_zero_eq y) by lra. reflexivity.
Qed.

Lemma round_monotone (x y : Q) : x <= y -> round x <= round y.
Proof.
  intros Hxy.
  destruct (Q_dec x 0) as [[Hx|Hx]|Hx], (Q_dec y 0) as [[Hy|Hy]|Hy];
    try (exfalso; lra).
  - rewrite round_neg_eq, (round_neg_eq y) by done.
    assert (round_pos (- y) <= round_pos (- x))
      by (apply round_pos_mono; lra).
    lra.
  - rewrite round_neg_eq, (round_pos_eq y) by done.
    pose proof (round_pos_positive (- x) ltac:(lra)).
    pose proof (round_pos_positive y Hy). lra.
  - rewrite round_neg_eq, (round_zero_eq y) by done.
    pose proof (round_pos_positive (- x) ltac:(lra)). lra.
  - rewrite round_pos_eq, (round_pos_eq y) by done.
    now apply round_pos_mono.
  - rewrite round_zero_eq, (round_pos_eq y) by done.
    pose proof (round_pos_positive y Hy). lra.
  - rewrite round_zero_eq, (round_zero_eq y) by done. lra.
Qed.

Lemma round_idempotent (x : Q) : round (round x) == round x.
Proof.
  destruct (Q_dec x 0) as [[Hx|Hx]|Hx].
  - pose proof (round_pos_positive (- x) ltac:(lra)) as Hp.
    pose proof (round_neg_eq x Hx) as E.
    rewrite (round_proper _ _ E).
    rewrite round_neg_eq by lra. rewrite E.
    apply Qopp_comp.
    rewrite (round_pos_proper (- - round_pos (- x)) (round_pos (- x)))
      by (try lra; ring).
    apply round_pos_idempotent. lra.
  - pose proof (round_pos_positive x Hx) as Hp.
    pose proof (round_pos_eq x Hx) as E.
    rewrite (round_proper _ _ E), E.
    rewrite round_pos_eq by done. now apply round_pos_idempotent.
  - pose proof (round_zero_eq x Hx) as E.
    rewrite (round_proper _ _ E), E. reflexivity.
Qed.

Lemma round_error (x : Q) : Qabs (round x - x) <= unit_roundoff64 * Qabs x.
Proof.
  unfold unit_roundoff64.
  destruct (Q_dec x 0) as [[Hx|Hx]|Hx].
  - pose proof (round_pos_error (- x) ltac:(lra)) as H.
    rewrite (Qabs_neg x) by lra.
    assert (E : round x - x == - (round_pos (- x) - - x))
      by (rewrite round_neg_eq by done; ring).
    rewrite E, Qabs_opp. exact H.
  - pose proof (round_pos_error x Hx) as H.
    rewrite (Qabs_pos x) by lra.
    assert (E : round x - x == round_pos x - x)
      by (rewrite round_pos_eq by done; ring).
    now rewrite E.
  - assert (E : round x - x == 0) by (rewrite round_zero_eq by done; lra).
    rewrite E. change (Qabs 0) with 0.
    pose proof (Qabs_nonneg x). change (1 # 2 ^ 53) with (1 # 9007199254740992).
    nra.
Qed.

Lemma round_one : round 1 == 1.
Proof. vm_compute. reflexivity. Qed.

(** *** The floats below 1 *)

Lemma float_decomposition (a : Q) :
  0 < a -> round a == a ->
  exists m, (2 ^ 52 <= m < 2 ^ 53)%Z /\ a == inject_Z m * ulp a.
Proof.
  intros Ha Hr. rewrite round_pos_eq in Hr by done.
  destruct (mantissa_range a Ha) as [M1 M2].
  destruct (binade_spec a Ha) as [_ B2].
  destruct (binade_ulp a) as [_ E2]. pose proof (ulp_pos a) as Hu.
  exists (nearest_even (a / ulp a)). split; [|now symmetry].
  split; [done|].
  destruct (Z.eq_dec (nearest_even (a / ulp a)) (2 ^ 53)%Z) as [E|]; [|lia].
  exfalso. unfold round_pos in Hr. rewrite E in Hr. lra.
Qed.

(** Two distinct floats are at least half an ulp of the larger one
    apart. *)
Lemma float_gap (a b : Q) :
  round a == a -> round b == b -> 0 < a -> a < b ->
  a <= b - ulp b * (1 # 2).
Proof.
  intros Ra Rb Ha Hab. assert (Hb : 0 < b) by lra.
  destruct (float_decomposition a Ha Ra) as (ma & [A1 A2] & Ea).
  destruct (float_decomposition b Hb Rb) as (mb & [B1 B2] & Eb).
  pose proof (binade_mono a b Ha ltac:(lra)) as Hm.
  pose proof (ulp_pos b) as Hub. pose proof (ulp_pos a) as Hua.
  destruct (Z.eq_dec (binade a) (binade b)) as [E|Hne].
  - assert (Eu : ulp a = ulp b) by (unfold ulp; now rewrite E).
    rewrite Eu in Ea.
    assert (Hlt : (ma < mb)%Z).
    { apply Z.lt_nge. intros Hge. rewrite Zle_Qle in Hge. nra. }
    assert (Hle : inject_Z ma <= inject_Z mb - 1).
    { assert (E1 : inject_Z mb - 1 == inject_Z (mb - 1))
        by (unfold Qeq; simpl; lia).
      rewrite E1, <- Zle_Qle. lia. }
    assert (inject_Z ma * ulp b <= (inject_Z mb - 1) * ulp b)
      by (apply Qmult_le_compat_r; lra).
    lra.
  - assert (Hu : ulp a <= ulp b * (1 # 2)).
    { unfold ulp. rewrite <- pow2_pred. apply pow2_le. lia. }
    assert (Hma : inject_Z ma <= inject_Z (2 ^ 53) - 1).
    { assert (E1 : inject_Z (2 ^ 53) - 1 == inject_Z (2 ^ 53 - 1))
        by reflexivity.
      rewrite E1, <- Zle_Qle. lia. }
    assert (Hmb : inject_Z (2 ^ 52) <= inject_Z mb) by (rewrite <- Zle_Qle; lia).
    assert (Hma0 : 0 <= inject_Z ma).
    { change 0 with (inject_Z 0). rewrite <- Zle_Qle. lia. }
    change (inject_Z (2 ^ 53)) with (9007199254740992 # 1) in Hma.
    change (inject_Z (2 ^ 52)) with (4503599627370496 # 1) in Hmb.
    nra.
Qed.

(** Below the midpoint of 1 and the float before it, rounding stays
    below 1. *)
Lemma round_below_one (x : Q) : x < 1 - (1 # 2 ^ 54) -> round x < 1.
Proof.
  intros Hx. destruct (Qlt_le_dec (1 # 2) x) as [Hhalf|Hhalf].
  - assert (Hb : binade x = (-1)%Z).
    { apply binade_unique.
      - change (pow2 (-1)) with (1 # 2). lra.
      - change (pow2 (-1 + 1)) with 1. change (1 # 2 ^ 54) with (1 # 18014398509481984) in Hx. lra. }
    rewrite round_pos_eq by lra. unfold round_pos, ulp. rewrite Hb.
    change (pow2 (-1 - 52)) with (1 # 9007199254740992).
    set (y := x / (1 # 9007199254740992)).
    pose proof (nearest_even_error y) as He.
    rewrite Qabs_Qle_condition in He. destruct He as [_ He].
    assert (Hy : y < (9007199254740992 # 1) - (1 # 2)).
    { unfold y. apply Qlt_shift_div_r; [reflexivity|].
      change (1 # 2 ^ 54) with (1 # 18014398509481984) in Hx. lra. }
    assert (Hn : (nearest_even y <= 9007199254740991)%Z).
    { assert (H : inject_Z (nearest_even y) < inject_Z 9007199254740992).
      { change (inject_Z 9007199254740992) with (9007199254740992 # 1). lra. }
      rewrite <- Zlt_Qlt in H. lia. }
    rewrite Zle_Qle in Hn.
    change (inject_Z 9007199254740991) with (9007199254740991 # 1) in Hn.
    lra.
  - apply Qle_lt_trans with (round (1 # 2)); [now apply round_monotone|].
    vm_compute. reflexivity.
Qed.

Lemma round_quotient (a b : Q) :
  round a == a -> round b == b -> 0 < a -> a < b -> round (a / b) < 1.
Proof.
  intros Ra Rb Ha Hab. assert (Hb : 0 < b) by lra.
  pose proof (float_gap a b Ra Rb Ha Hab) as Hgap.
  destruct (binade_spec b Hb) as [_ B2].
  destruct (binade_ulp b) as [_ E2]. pose proof (ulp_pos b) as Hu.
  rewrite E2 in B2.
  change (inject_Z (2 ^ 53)) with (9007199254740992 # 1) in B2.
  apply round_below_one. apply Qlt_shift_div_r; [done|].
  change (1 # 2 ^ 54) with (1 # 18014398509481984). nra.
Qed.

Lemma unit_roundoff64_range : 0 <= unit_roundoff64 /\ unit_roundoff64 <= 1 # 16.
Proof. split; discriminate. Qed.

End Binary64.

#[global] Instance binary64 : Rounding :=
  {| rnd := Binary64.round;
     unit_roundoff := Binary64.unit_roundoff64;
     rnd_proper := Binary64.round_proper;
     rnd_monotone := Binary64.round_monotone;
     rnd_idempotent := Binary64.round_idempotent;
     rnd_one := Binary64.round_one;
     rnd_error := Binary64.round_error;
     rnd_quotient := Binary64.round_quotient;
     unit_roundoff_range := Binary64.unit_roundoff64_range |}.

(** ** A worked scenario

    Four training rows with treatments [1, 0, 1, 0] and outcomes
    [1, 0, 0, 1], two test rows, a treated-arm model that predicts 0.8 and an
    untreated-arm model that predicts 0.3 for every row. *)

Definition example_train : Table :=
  {| t_index := [Key "a"; Key "b"; Key "c"; Key "d"];
     t_columns :=
       [("x", [Fin 1; Fin 2; Fin 3; Fin 4]);
        ("Treatment", [one; zero; one; zero]);
        ("Outcome", [one; zero; zero; one])] |}.

Definition example_test : Table :=
  {| t_index := [Key "e"; Key "f"];
     t_columns :=
       [("x", [Fin 5; Fin 6]);
        ("Treatment", [one; zero]);
        ("Outcome", [zero; one])] |}.

Definition example_world : world :=
  {| heap := <[1%positive := PyDataFrame (Flat example_train)]>
               (<[2%positive := PyDataFrame (Flat example_test)]> ∅);
     calls := [] |}.

(** The model of an arm is the probability it predicts. *)
Definition example_fit (a : arm) (_ : Args) (_ : DataFrame)
  : exn + (fnum * DataFrame) :=
  inr (match a with Treated => Fin (4 # 5) | Untreated => Fin (3 # 10) end,
       Flat {| t_index := []; t_columns := [] |}).

Definition tagged_index (d : DataFrame) : list label :=
  match d with
  | Flat t => t_index t
  | Partitioned tr te =>
      map (Tagged "train") (seq 0 (nrows tr))
      ++ map (Tagged "test") (seq 0 (nrows te))
  end.

Definition example_predict_proba (_ : arm) (_ : Args) (d : DataFrame)
  (m : fnum) : exn + Series :=
  inr {| s_index := tagged_index d; s_values := repeat m (df_nrows d) |}.

Definition arm_value (a : arm) : fnum :=
  match a with Treated => one | Untreated => zero end.

Definition count_matching (v : fnum) (col : list fnum) : fnum :=
  of_nat (countb (fun x => feq x v) col).

Definition sum_where (v : fnum) (sel vals : list fnum) : fnum :=
  fold_right fadd zero
    (zip_with (fun s x => if feq s v then x else zero) sel vals).

(** Counts and rates of one arm in one partition. *)
Definition example_segment (a : arm) (args0 : Args) (m : fnum) (t : Table)
  : exn + list fnum :=
  let? tc := getitem t (col_treatment args0) in
  let? oc := getitem t (col_outcome args0) in
  let? rc := getitem t (col_recommendation args0) in
  let n0 := count_matching (arm_value a) (s_values tc) in
  let n1 := count_matching (arm_value a) (s_values rc) in
  inr [n0; fdiv (sum_where (arm_value a) (s_values tc) (s_values oc)) n0;
       n1; fdiv (fmul n1 m) n1].

Definition example_simulate_recommendation (a : arm) (args0 : Args)
  (d : DataFrame) (m : fnum) (_ : DataFrame) : exn + Table :=
  let? tr := xs train d in
  let? te := xs test d in
  let? p := example_segment a args0 m tr in
  let? q := example_segment a args0 m te in
  inr {| t_index := [Key "train"; Key "test"];
         t_columns :=
           [(n_without, [nth 0 p NaN; nth 0 q NaN]);
            (rate_without, [nth 1 p NaN; nth 1 q NaN]);
            (n_with, [nth 2 p NaN; nth 2 q NaN]);
            (rate_with, [nth 3 p NaN; nth 3 q NaN])] |}.

Definition mean (v : list fnum) : fnum :=
  fdiv (fold_right fadd zero v) (of_nat (length v)).

Definition example_treatment_fractions_ (d : DataFrame) (col : string)
  : exn + TreatmentFractions :=
  let? a := partition_column train d col in
  let? b := partition_column test d col in
  inr {| tf_train := mean a; tf_test := mean b |}.

(** A propensity estimator that writes the score 0.5 into both tables, in
    place. *)
Definition add_propensity (a : Args) (o : pyobj) : pyobj :=
  match o with
  | PyDataFrame (Flat t) =>
      PyDataFrame
        (Flat (with_column t (col_propensity a)
                 (repeat (Fin (1 # 2)) (nrows t))))
  | _ => o
  end.

Definition example_estimate_propensity (l1 l2 : loc) (a : Args)
  (h : gmap loc pyobj) : (exn + loc * loc) * gmap loc pyobj :=
  (inr (l1, l2), alter (add_propensity a) l2 (alter (add_propensity a) l1 h)).

Definition example_init (kwargs : list kwarg) : M (CausalLift fnum) :=
  __init__ fnum example_fit example_treatment_fractions_
    example_estimate_propensity 1%positive 2%positive kwargs.

(** The session that the constructor builds from the two tables when
    inverse-propensity weighting is switched off, and the world it leaves. *)
Definition example_session : CausalLift fnum :=
  {| df := 5%positive;
     train_df := reset_index example_train;
     test_df := reset_index example_test;
     args := set_kwarg (update default_args [kw_enable_ipw false])
               (kw_cols_features (Some ["x"]));
     model_treated := Fin (4 # 5);
     model_untreated := Fin (3 # 10);
     score_original_treatment_treated_df :=
       Flat {| t_index := []; t_columns := [] |};
     score_original_treatment_untreated_df :=
       Flat {| t_index := []; t_columns := [] |};
     treatment_fractions := {| tf_train := Fin (1 # 2); tf_test := Fin (1 # 2) |};
     treatment_fraction_train := Fin (1 # 2);
     treatment_fraction_test := Fin (1 # 2);
     cate_estimated := None; treated_df := None; untreated_df := None;
     estimated_effect_df := None |}.

Definition example_session_world : world :=
  snd (example_init [kw_enable_ipw false] example_world).

Example example_init_returns :
  example_init [kw_enable_ipw false] example_world
  = (inr example_session, example_session_world).
Proof. vm_compute. reflexivity. Qed.

(** A script that does not catch: the exception of a method call reaches
    the top level without the session. *)
Definition uncaught {S A : Type} (m : ME (exn * S) A) : M A :=
  fun w =>
    match m w with
    | (inr a, w') => (inr a, w')
    | (inl (e, _), w') => (inl e, w')
    end.

(** A combined table with a CATE column that has a tie in 'train'. *)
Definition example_scored_train : Table :=
  with_column (reset_index example_train) "CATE"
    [Fin (1 # 2); Fin (7 # 10); Fin (1 # 2); Fin (1 # 10)].

Definition example_scored_test : Table :=
  with_column (reset_index example_test) "CATE" [Fin (1 # 5); Fin (1 # 5)].

Definition example_fractions : TreatmentFractions :=
  {| tf_train := Fin (1 # 2); tf_test := Fin (1 # 2) |}.

(** The scenario in which the caller asks for a treatment fraction of 0.0
    on 'train': construction, CATE estimation, impact estimation. *)
Definition example_run_zero_fraction : M (CausalLift fnum * Table) :=
  let* s := example_init [kw_enable_ipw false] in
  let* r := uncaught
              (estimate_cate_by_2_models fnum example_predict_proba s None) in
  uncaught
    (estimate_recommendation_impact fnum example_simulate_recommendation
       (fst r) None (Some (Fin 0)) None None).

(** C8. Passing the treatment fraction 0.0 for 'train' does not make the
    policy use 0.0: [0.0 or stored] is the stored fraction (here 1/2), and
    two of the four rows are recommended, where the fraction 0.0 recommends
    none. *)
Theorem zero_fraction_override_is_ignored :
  exists self' e w' d',
    example_run_zero_fraction example_world = (inr (self', e), w') /\
    tf_train (treatment_fractions fnum self') = Fin (1 # 2) /\
    heap w' !! df fnum self' = Some (PyDataFrame d') /\
    partition_column train d' "Recommendation" = inr [one; one; zero; zero] /\
    recommendation
      {| s_index := RangeIndex 4; s_values := repeat (Fin (1 # 2)) 4 |} (Fin 0)
    = [zero; zero; zero; zero].
Proof.
  eexists _, _, _, _.
  split; [vm_compute; reflexivity|].
  split; [reflexivity|].
  split; [vm_compute; reflexivity|].
  split; vm_compute; reflexivity.
Qed.

(** ** The theorems at concrete inputs *)

(** The example session: every row gets 0.8 - 0.3. *)
Lemma estimate_cate_by_2_models_difference_witness :
  exists self' tables w' d' cate,
    estimate_cate_by_2_models fnum example_predict_proba example_session None
      example_session_world = (inr (self', tables), w') /\
    heap w' !! df fnum example_session = Some (PyDataFrame d') /\
    df_values d' "CATE" = inr cate /\
    length cate = 6 /\
    cate !! 1 = Some (fsub (Fin (4 # 5)) (Fin (3 # 10))).
Proof.
  destruct (estimate_cate_by_2_models_difference fnum example_predict_proba
              example_session None example_session_world
              (reset_index example_train) (reset_index example_test)
              {| s_index := tagged_index
                              (Partitioned (reset_index example_train)
                                 (reset_index example_test));
                 s_values := repeat (Fin (4 # 5)) 6 |}
              {| s_index := tagged_index
                              (Partitioned (reset_index example_train)
                                 (reset_index example_test));
                 s_values := repeat (Fin (3 # 10)) 6 |})
    as (self' & tables & w' & d' & cate & H1 & _ & H2 & _ & _ & H3 & H4 & H5);
    try (vm_compute; reflexivity).
  exists self', tables, w', d', cate.
  split; [exact H1|]. split; [exact H2|]. split; [exact H3|].
  split; [exact H4|]. apply H5; reflexivity.
Defined.

(** Four rows with a tie, fraction 1/2: two rows are recommended. *)
Lemma recommendation_by_cate_budget_witness :
  exists d' ranks rec,
    recommendation_by_cate (Partitioned example_scored_train example_scored_test)
      default_args example_fractions = inr d' /\
    partition_column train d' "Recommendation" = inr rec /\
    Permutation ranks (seq 1 4) /\
    rec = map (fun r => if fle (percentile r 4) (Fin (1 # 2))
                        then one else zero) ranks /\
    (Z.abs (Z.of_nat (n_recommended rec) - py_round ((1 # 2) * inject_Z 4)) <= 1)%Z.
Proof.
  destruct (recommendation_by_cate_budget example_scored_train
              example_scored_test default_args example_fractions
              [Fin (1 # 2); Fin (7 # 10); Fin (1 # 2); Fin (1 # 10)]
              [Fin (1 # 5); Fin (1 # 5)])
    as (d' & Hd & Hp);
    try reflexivity; try (repeat constructor).
  destruct (Hp train [Fin (1 # 2); Fin (7 # 10); Fin (1 # 2); Fin (1 # 10)]
              (1 # 2)%Q)
    as (ranks & rec & H1 & H2 & _ & H3 & H4);
    try reflexivity; try (repeat constructor).
  exists d', ranks, rec.
  split; [exact Hd|]. split; [exact H1|]. split; [exact H2|].
  split; [exact H3|].
  apply H4; [discriminate|discriminate|vm_compute; reflexivity
            |vm_compute; discriminate].
Defined.

(** A 'train' partition in which three of the four rows have no CATE, and
    the treatment fraction 1.0 for both partitions. *)
Definition example_nan_train : Table :=
  with_column (reset_index example_train) "CATE"
    [NaN; NaN; NaN; Fin (1 # 2)].

Definition example_full_fractions : TreatmentFractions :=
  {| tf_train := Fin 1; tf_test := Fin 1 |}.

(** C2 (counterexample). With NaN among the CATE values the budget fails:
    for the CATE column [NaN, NaN, NaN, 0.5] and the fraction 1.0 pandas
    ranks the one number only, so one row is recommended, where
    [round (1.0 * 4)] is 4. *)
Theorem recommendation_budget_fails_with_nan :
  ~ recommendation_within_budget
      (Partitioned example_nan_train example_scored_test) default_args
      example_full_fractions.
Proof.
  intros H.
  assert (Hb : (Z.abs (Z.of_nat (n_recommended [zero; zero; zero; one])
                       - py_round (1 * inject_Z (Z.of_nat 4))) <= 1)%Z).
  { apply (H train [NaN; NaN; NaN; Fin (1 # 2)] 1%Q
             (Partitioned
                (with_column example_nan_train "Recommendation"
                   [zero; zero; zero; one])
                (with_column example_scored_test "Recommendation" [one; one]))
             [zero; zero; zero; one]);
      [reflexivity | reflexivity | discriminate | discriminate
      | vm_compute; reflexivity | vm_compute; reflexivity]. }
  vm_compute in Hb. apply Hb. reflexivity.
Qed.

(** The fractions 1/4 and 3/4 on four rows. *)
Lemma recommendation_monotone_in_fraction_witness :
  n_recommended
    (recommendation
       {| s_index := RangeIndex 4;
          s_values := [Fin (1 # 2); Fin (7 # 10); Fin (1 # 2); Fin (1 # 10)] |}
       (Fin (1 # 4)))
  <= n_recommended
       (recommendation
          {| s_index := RangeIndex 4;
             s_values := [Fin (1 # 2); Fin (7 # 10); Fin (1 # 2); Fin (1 # 10)] |}
          (Fin (3 # 4))).
Proof.
  apply recommendation_monotone_in_fraction. reflexivity.
Defined.

Definition example_treated_table : Table :=
  {| t_index := [Key "train"; Key "test"];
     t_columns :=
       [(n_without, [Fin 2; Fin 1]);
        (rate_without, [Fin (1 # 2); Fin 0]);
        (n_with, [Fin 2; Fin 1]);
        (rate_with, [Fin (4 # 5); Fin (4 # 5)])] |}.

Definition example_untreated_table : Table :=
  {| t_index := [Key "train"; Key "test"];
     t_columns :=
       [(n_without, [Fin 2; Fin 1]);
        (rate_without, [Fin 0; Fin 0]);
        (n_with, [Fin 2; Fin 1]);
        (rate_with, [Fin (3 # 10); Fin (3 # 10)])] |}.

Lemma example_treated_columns :
  arm_columns example_treated_table [Fin 2; Fin 1] [Fin (1 # 2); Fin 0]
    [Fin 2; Fin 1] [Fin (4 # 5); Fin (4 # 5)].
Proof. constructor; reflexivity. Defined.

Lemma example_untreated_columns :
  arm_columns example_untreated_table [Fin 2; Fin 1] [Fin 0; Fin 0]
    [Fin 2; Fin 1] [Fin (3 # 10); Fin (3 # 10)].
Proof. constructor; reflexivity. Defined.

(** Two arms with two rows each and the rates 1/2 and 0. *)
Lemma aggregate_impact_weighted_average_witness :
  exists e samples observed z,
    aggregate_impact example_treated_table example_untreated_table = inr e /\
    lookup_col n_samples (t_columns e) = Some samples /\
    samples !! 0 = Some (fadd (Fin 2) (Fin 2)) /\
    lookup_col rate_without (t_columns e) = Some observed /\
    observed !! 0 = Some (Fin z) /\
    (Qmin (1 # 2) 0 * (1 - 4 * unit_roundoff) <= z)%Q /\
    (z <= Qmax (1 # 2) 0 * (1 + 5 * unit_roundoff))%Q.
Proof.
  destruct (aggregate_impact_weighted_average _ _ _ _ _ _ _ _ _ _
              example_treated_columns example_untreated_columns eq_refl)
    as (e & samples & observed & He & Hs & Ho & _ & _ & Hsum & _ & _ & Hb).
  destruct (Hb 0 2%Q (1 # 2)%Q 2%Q 0%Q) as (z & Hz & Hmin & Hmax);
    try reflexivity; try discriminate.
  exists e, samples, observed, z.
  repeat split; try assumption. apply Hsum; reflexivity.
Defined.

(** Per-arm tables in which both arms observe the conversion rate 0.1 (the
    float), the treated arm on one row and the untreated arm on two. *)
Definition example_tenth : Q := rnd (1 # 10).

Definition example_treated_tenth : Table :=
  {| t_index := [Key "train"; Key "test"];
     t_columns :=
       [(n_without, [Fin 1; Fin 1]);
        (rate_without, [Fin example_tenth; Fin example_tenth]);
        (n_with, [Fin 1; Fin 1]);
        (rate_with, [Fin example_tenth; Fin example_tenth])] |}.

Definition example_untreated_tenth : Table :=
  {| t_index := [Key "train"; Key "test"];
     t_columns :=
       [(n_without, [Fin 2; Fin 2]);
        (rate_without, [Fin example_tenth; Fin example_tenth]);
        (n_with, [Fin 2; Fin 2]);
        (rate_with, [Fin example_tenth; Fin example_tenth])] |}.

(** C4 (counterexample). The overall observed rate need not lie between
    the two arms' observed rates: with the rate 0.1 in both arms, on one
    and on two rows, Python's floats give [(1 * 0.1 + 2 * 0.1) / 3 =
    0.10000000000000002], which is above both arms' 0.1. *)
Theorem observed_rate_between_arms_fails :
  ~ observed_rate_between_arms example_treated_tenth example_untreated_tenth.
Proof.
  intros H.
  destruct (aggregate_impact example_treated_tenth example_untreated_tenth)
    as [x|e] eqn:E.
  { vm_compute in E. discriminate E. }
  pose proof E as E'. vm_compute in E'. injection E' as <-.
  epose proof (H _ _ _ _ 0 _ _ _ E eq_refl eq_refl eq_refl eq_refl eq_refl
                 eq_refl) as H1.
  vm_compute in H1. discriminate H1.
Qed.

(** An arm without rows in a partition reports the count 0 and an undefined
    rate there (the quotient 0 / 0); the overall rate of that row is then
    NaN, whatever the other arm observed. *)
Example empty_segment_gives_nan :
  weighted_rate [Fin 0] [NaN] [Fin 5] [Fin (2 # 5)] = [NaN] /\
  weighted_rate [Fin 0] [Fin 0] [Fin 0] [Fin 0] = [NaN].
Proof. split; reflexivity. Qed.

(** Both arms with an observed rate of zero: the improvement rate is
    infinite. *)
Lemma improvement_rate_undefined_on_zero_baseline_witness :
  exists e improvement r,
    aggregate_impact example_untreated_table example_untreated_table = inr e /\
    lookup_col improvement_rate (t_columns e) = Some improvement /\
    length improvement = 2 /\
    improvement !! 0 = Some r /\ is_finite r = false.
Proof.
  destruct (improvement_rate_undefined_on_zero_baseline _ _ _ _ _ _ _ _ _ _
              example_untreated_columns example_untreated_columns eq_refl)
    as (e & predicted & observed & improvement & He & _ & Ho & Hi & _ & _ & Hl
        & _ & _ & Hz).
  assert (He' := He). vm_compute in He'. injection He' as <-.
  vm_compute in Ho. injection Ho as <-.
  destruct (Hz 0) as (p & o & _ & Ho & Hr & Hfin);
    [unfold nrows; simpl; lia|].
  vm_compute in Ho. injection Ho as <-.
  eexists. exists improvement, (fdiv p (Fin 0)).
  split; [exact He|]. split; [exact Hi|]. split; [exact Hl|].
  split; [exact Hr|]. apply Hfin. reflexivity.
Defined.

(** A test table whose columns differ from those of [example_train]. *)
Definition example_other_schema : Table :=
  {| t_index := [Key "e"]; t_columns := [("x", [Fin 5])] |}.

Definition example_mismatched_world : world :=
  {| heap := <[1%positive := PyDataFrame (Flat example_train)]>
               (<[2%positive := PyDataFrame (Flat example_other_schema)]> ∅);
     calls := [] |}.

(** A test table without the treatment and outcome columns. *)
Lemma init_rejects_schema_mismatch_witness :
  __init__ fnum example_fit example_treatment_fractions_
    example_estimate_propensity 1%positive 2%positive []
    example_mismatched_world
  = (inl AssertionError, example_mismatched_world).
Proof.
  apply (init_rejects_schema_mismatch fnum example_fit
           example_treatment_fractions_ example_estimate_propensity
           1%positive 2%positive [] example_mismatched_world
           (PyDataFrame (Flat example_train))
           (PyDataFrame (Flat example_other_schema)));
    [reflexivity | reflexivity |].
  right. right.
  apply (bool_decide_eq_false_1
           (column_set (PyDataFrame (Flat example_train))
            = column_set (PyDataFrame (Flat example_other_schema)))).
  vm_compute. reflexivity.
Defined.

Lemma example_propensity_needed :
  propensity_needed (update default_args []) (Flat example_train).
Proof.
  split; [reflexivity|].
  apply (bool_decide_eq_false_1
           (col_propensity (update default_args [])
            ∈ df_columns (Flat example_train))).
  vm_compute. reflexivity.
Defined.

Lemma example_propensity_not_needed :
  ~ propensity_needed (update default_args [kw_enable_ipw false])
      (Flat example_train).
Proof. intros [H _]. discriminate H. Defined.

(** With the defaults the estimator is called; with [enable_ipw=False] the
    caller's columns go into the session as they are. *)
Lemma init_estimates_propensity_iff_witness :
  calls_estimate_propensity (calls (snd (example_init [] example_world))) /\
  exists self w',
    example_init [kw_enable_ipw false] example_world = (inr self, w') /\
    heap w' !! df fnum self =
      Some (PyDataFrame (Partitioned (reset_index example_train)
                           (reset_index example_test))) /\
    t_columns (train_df fnum self) = t_columns example_train /\
    t_columns (test_df fnum self) = t_columns example_test.
Proof.
  split.
  - destruct (example_init [] example_world) as [r w'] eqn:E.
    destruct (init_estimates_propensity_iff fnum example_fit
                example_treatment_fractions_ example_estimate_propensity
                1%positive 2%positive [] example_world w'
                (Flat example_train) (Flat example_test) r)
      as ((cs & Hcs & Hiff) & _ & _);
      [reflexivity | reflexivity | vm_compute; reflexivity | exact E |].
    cbn [snd]. rewrite Hcs. cbn [example_world calls app].
    apply Hiff, example_propensity_needed.
  - destruct (example_init [kw_enable_ipw false] example_world)
      as [r w'] eqn:E.
    destruct (init_estimates_propensity_iff fnum example_fit
                example_treatment_fractions_ example_estimate_propensity
                1%positive 2%positive [kw_enable_ipw false] example_world w'
                (Flat example_train) (Flat example_test) r)
      as (_ & _ & Hverbatim);
      [reflexivity | reflexivity | vm_compute; reflexivity | exact E |].
    rewrite example_init_returns in E. injection E as <- <-.
    destruct (Hverbatim example_propensity_not_needed example_session eq_refl)
      as (Hdf & _ & _ & Htr & Hte).
    exists example_session, example_session_world.
    split; [reflexivity|]. split; [exact Hdf|].
    split; [now apply Htr|now apply Hte].
Defined.

(** An explicit CATE series for the six rows of the example session. *)
Definition example_cate : Series :=
  {| s_index := RangeIndex 6;
     s_values := [Fin (1 # 2); Fin (7 # 10); Fin (1 # 2); Fin (1 # 10);
                  Fin (1 # 5); Fin (1 # 5)] |}.

Definition example_first_call
  : (exn * CausalLift fnum + CausalLift fnum * Table) * world :=
  estimate_recommendation_impact fnum example_simulate_recommendation
    example_session (Some example_cate) (Some (Fin (1 # 2)))
    (Some (Fin (1 # 2))) None example_session_world.

(** Two calls with the same CATE series and the fractions 1/2. *)
Lemma estimate_recommendation_impact_idempotent_witness :
  exists self1 e1 w1 w2,
    example_first_call = (inr (self1, e1), w1) /\
    estimate_recommendation_impact fnum example_simulate_recommendation
      self1 (Some example_cate) (Some (Fin (1 # 2))) (Some (Fin (1 # 2)))
      None w1 = (inr (self1, e1), w2) /\
    heap w2 = heap w1.
Proof.
  destruct example_first_call as [[e|[self1 e1]] w1] eqn:E.
  { vm_compute in E. discriminate E. }
  destruct (estimate_recommendation_impact_idempotent fnum
              example_simulate_recommendation example_session self1
              example_cate (Fin (1 # 2)) (Fin (1 # 2)) None
              example_session_world w1 e1 E) as (w2 & H2 & H3).
  exists self1, e1, w1, w2. auto.
Defined.

(** Construction with propensity estimation, then both methods. *)
Definition example_ipw_run : (exn + CausalLift fnum) * world :=
  Eval vm_compute in example_init [] example_world.

Definition session_of {E : Type} (r : (E + CausalLift fnum) * world)
  : CausalLift fnum :=
  match fst r with inr s => s | inl _ => example_session end.

Definition example_after_cate
  : (exn * CausalLift fnum + CausalLift fnum) * world :=
  Eval vm_compute in
    perform fnum example_predict_proba example_simulate_recommendation
      (op_estimate_cate_by_2_models None)
      (session_of example_ipw_run) (snd example_ipw_run).

Definition example_after_impact
  : (exn * CausalLift fnum + CausalLift fnum) * world :=
  Eval vm_compute in
    perform fnum example_predict_proba example_simulate_recommendation
      (op_estimate_recommendation_impact None None None None)
      (session_of example_after_cate) (snd example_after_cate).

Lemma example_estimate_propensity_frame :
  touches_only_its_tables example_estimate_propensity.
Proof.
  intros l1 l2 a h r h' [= <- <-] l o H1 H2 Hl.
  now rewrite !lookup_alter_ne by done.
Qed.

(** After construction and both methods the caller's two tables are as they
    were. *)
Lemma callers_tables_never_mutated_witness :
  example_init [] example_world
  = (inr (session_of example_ipw_run), snd example_ipw_run) /\
  session_run fnum example_predict_proba example_simulate_recommendation
    (session_of example_ipw_run) (snd example_ipw_run)
    (session_of example_after_impact) (snd example_after_impact) /\
  heap (snd example_after_impact) !! 1%positive
  = Some (PyDataFrame (Flat example_train)) /\
  heap (snd example_after_impact) !! 2%positive
  = Some (PyDataFrame (Flat example_test)).
Proof.
  assert (E : example_init [] example_world
              = (inr (session_of example_ipw_run), snd example_ipw_run))
    by (vm_compute; reflexivity).
  assert (Hrun : session_run fnum example_predict_proba
                   example_simulate_recommendation
                   (session_of example_ipw_run) (snd example_ipw_run)
                   (session_of example_after_impact)
                   (snd example_after_impact)).
  { eapply (run_returns _ _ _ (op_estimate_cate_by_2_models None)
              _ (session_of example_after_cate) _ _ (snd example_after_cate));
      [vm_compute; reflexivity|].
    eapply (run_returns _ _ _
              (op_estimate_recommendation_impact None None None None));
      [vm_compute; reflexivity|]. apply run_done. }
  destruct (callers_tables_never_mutated fnum example_fit example_predict_proba
              example_simulate_recommendation example_treatment_fractions_
              example_estimate_propensity 1%positive 2%positive []
              example_world _ _ example_estimate_propensity_frame E)
    as [_ Hkeep].
  destruct (Hkeep _ _ _ eq_refl Hrun) as [_ Hsame].
  split; [exact E|]. split; [exact Hrun|].
  split; apply Hsame; reflexivity.
Defined.

(** ** The further properties at concrete inputs *)

(** Four rows, one of them without a CATE. *)
Definition example_series_with_nan : Series :=
  {| s_index := RangeIndex 4;
     s_values := [Fin (1 # 2); NaN; Fin (7 # 10); Fin (1 # 10)] |}.

Definition example_series_with_tie : Series :=
  {| s_index := RangeIndex 4;
     s_values := [Fin (1 # 2); Fin (7 # 10); Fin (1 # 2); Fin (1 # 10)] |}.

(** Ten rows with the CATE values 1 .. 10. *)
Definition example_ten_rows : Series :=
  {| s_index := RangeIndex 10;
     s_values := map (fun k => Fin (inject_Z (Z.of_nat k))) (seq 1 10) |}.

(** Ten numbers and the fraction 0.3, the float next below 3/10: the floor
    of [0.3 * 10] is 2, and three rows are recommended, for the rank
    percentile [3 / 10] is the same float. *)
Lemma recommendation_budget_counts_numbers_only_witness :
  (Qfloor (rnd (3 # 10)
           * inject_Z (Z.of_nat (count_valid (s_values example_ten_rows))))
   <= Z.of_nat
        (n_recommended (recommendation example_ten_rows (Fin (rnd (3 # 10)))))
   <= Qfloor (rnd (3 # 10)
              * inject_Z (Z.of_nat (count_valid (s_values example_ten_rows))))
      + 1)%Z /\
  Qfloor (rnd (3 # 10)
          * inject_Z (Z.of_nat (count_valid (s_values example_ten_rows))))
  = 2%Z /\
  n_recommended (recommendation example_ten_rows (Fin (rnd (3 # 10)))) = 3.
Proof.
  split; [|split; vm_compute; reflexivity].
  apply recommendation_budget_counts_numbers_only;
    [vm_compute; discriminate | vm_compute; discriminate
    | vm_compute; reflexivity | vm_compute; discriminate].
Defined.

Lemma nan_row_is_never_recommended_witness :
  recommendation example_series_with_nan (Fin 1) !! 1 = Some zero.
Proof.
  apply (nan_row_is_never_recommended example_series_with_nan (Fin 1) 1 NaN);
    reflexivity.
Defined.

(** Row 0 (CATE 1/2) is recommended at the fraction 1/2, so row 1 (CATE
    7/10) is. *)
Lemma recommendation_is_upward_closed_witness :
  recommendation example_series_with_tie (Fin (1 # 2)) !! 1 = Some one.
Proof.
  apply (recommendation_is_upward_closed example_series_with_tie (Fin (1 # 2))
           1 0 (Fin (7 # 10)) (Fin (1 # 2)));
    [reflexivity | reflexivity | left; reflexivity | vm_compute; reflexivity].
Defined.

Lemma recommendation_at_the_bounds_witness :
  recommendation example_series_with_nan (Fin 1) !! 0 = Some one /\
  recommendation example_series_with_nan (Fin 0) !! 0 = Some zero.
Proof.
  split.
  - apply (recommendation_at_the_bounds example_series_with_nan 1 0
             (Fin (1 # 2)) eq_refl); [discriminate|reflexivity].
  - apply (recommendation_at_the_bounds example_series_with_nan 0 0
             (Fin (1 # 2)) eq_refl); discriminate.
Defined.

(** CATE estimation in the example session. *)
Lemma estimate_cate_by_2_models_writes_only_cate_witness :
  exists self' tables w' d d',
    estimate_cate_by_2_models fnum example_predict_proba example_session None
      example_session_world = (inr (self', tables), w') /\
    heap example_session_world !! 5%positive = Some (PyDataFrame d) /\
    heap w' !! 5%positive = Some (PyDataFrame d') /\
    differs_only_in ["CATE"] d d' /\
    train_df fnum self' = fst tables /\ test_df fnum self' = snd tables.
Proof.
  destruct (estimate_cate_by_2_models fnum example_predict_proba
              example_session None example_session_world)
    as [[x|[self' tables]] w'] eqn:E.
  { vm_compute in E. discriminate E. }
  destruct (estimate_cate_by_2_models_writes_only_cate fnum
              example_predict_proba example_session self' None
              example_session_world w' tables E)
    as (d & d' & H1 & H2 & H3 & _ & H4 & H5).
  exists self', tables, w', d, d'.
  split; [reflexivity|]. split; [exact H1|]. split; [exact H2|].
  split; [exact H3|]. split; [exact H4|exact H5].
Defined.

(** The call with an explicit CATE series writes two columns. *)
Lemma estimate_recommendation_impact_writes_only_its_columns_witness :
  exists self' e w' d d',
    example_first_call = (inr (self', e), w') /\
    heap example_session_world !! 5%positive = Some (PyDataFrame d) /\
    heap w' !! 5%positive = Some (PyDataFrame d') /\
    differs_only_in ["CATE"; "Recommendation"] d d'.
Proof.
  destruct example_first_call as [[x|[self' e]] w'] eqn:E.
  { vm_compute in E. discriminate E. }
  destruct (estimate_recommendation_impact_writes_only_its_columns fnum
              example_simulate_recommendation example_session self'
              (Some example_cate) (Some (Fin (1 # 2))) (Some (Fin (1 # 2)))
              None example_session_world w' e E)
    as (d & d' & H1 & H2 & H3).
  exists self', e, w', d, d'.
  split; [reflexivity|]. split; [exact H1|]. split; [exact H2|exact H3].
Defined.

(** The example session right after construction has no CATE column. *)
Lemma estimate_recommendation_impact_needs_cate_witness :
  estimate_recommendation_impact fnum example_simulate_recommendation
    example_session None None None None example_session_world
  = (inl (KeyError "CATE",
          set_treatment_fractions fnum example_session
            (fractions_used fnum example_session None None)),
     example_session_world).
Proof.
  apply (estimate_recommendation_impact_needs_cate fnum
           example_simulate_recommendation example_session None None None
           example_session_world
           (reset_index example_train) (reset_index example_test));
    vm_compute; reflexivity.
Defined.

(** Five CATE values for the six rows of the example session. *)
Definition example_short_cate : Series :=
  {| s_index := RangeIndex 5;
     s_values := [Fin (1 # 2); Fin (7 # 10); Fin (1 # 2); Fin (1 # 10);
                  Fin (1 # 5)] |}.

Lemma estimate_recommendation_impact_rejects_wrong_length_witness :
  estimate_recommendation_impact fnum example_simulate_recommendation
    example_session (Some example_short_cate) None None None
    example_session_world
  = (inl (ValueError "Length of values does not match length of index",
          set_cate_estimated fnum example_session example_short_cate),
     example_session_world).
Proof.
  apply (estimate_recommendation_impact_rejects_wrong_length fnum
           example_simulate_recommendation example_session example_short_cate
           None None None example_session_world
           (reset_index example_train) (reset_index example_test));
    [vm_compute; reflexivity | vm_compute; lia].
Defined.

(** The fraction 1/4 for 'train': one of the four rows is recommended. *)
Definition example_quarter_run
  : (exn * CausalLift fnum + CausalLift fnum * Table) * world :=
  Eval vm_compute in
    estimate_recommendation_impact fnum example_simulate_recommendation
      example_session (Some example_cate) (Some (Fin (1 # 4))) None None
      example_session_world.

Definition returned {E A : Type} (r : (E + CausalLift fnum * A) * world)
  : CausalLift fnum :=
  match fst r with inr (s, _) => s | inl _ => example_session end.

Definition impact_of {E : Type} (r : (E + CausalLift fnum * Table) * world)
  : Table :=
  match fst r with
  | inr (_, e) => e
  | inl _ => {| t_index := []; t_columns := [] |}
  end.

Lemma example_quarter_returns :
  estimate_recommendation_impact fnum example_simulate_recommendation
    example_session (Some example_cate) (Some (Fin (1 # 4))) None None
    example_session_world
  = (inr (returned example_quarter_run, impact_of example_quarter_run),
     snd example_quarter_run).
Proof. vm_compute. reflexivity. Qed.

Lemma nonzero_fraction_is_used_as_passed_witness :
  tf_train (treatment_fractions fnum (returned example_quarter_run))
  = Fin (1 # 4) /\
  exists d' s,
    heap (snd example_quarter_run) !! 5%positive = Some (PyDataFrame d') /\
    partition_column train d' "Recommendation"
    = inr (recommendation s (Fin (1 # 4))) /\
    partition_column train d' "CATE" = inr (s_values s) /\
    partition_column train d' "Recommendation" = inr [zero; one; zero; zero].
Proof.
  destruct (nonzero_fraction_is_used_as_passed fnum
              example_simulate_recommendation example_session
              (returned example_quarter_run) (Some example_cate)
              (Fin (1 # 4)) None None example_session_world
              (snd example_quarter_run) (impact_of example_quarter_run)
              eq_refl example_quarter_returns)
    as (H1 & d' & s & H2 & H3 & H4).
  split; [exact H1|]. exists d', s.
  split; [exact H2|]. split; [exact H3|].
  split; [apply H4; discriminate|].
  vm_compute in H2. injection H2 as <-. vm_compute. reflexivity.
Defined.

(** A later call without fractions goes on with 1/4. *)
Definition example_default_run
  : (exn * CausalLift fnum + CausalLift fnum * Table) * world :=
  Eval vm_compute in
    estimate_recommendation_impact fnum example_simulate_recommendation
      (returned example_quarter_run) None None None None
      (snd example_quarter_run).

Lemma example_default_returns :
  estimate_recommendation_impact fnum example_simulate_recommendation
    (returned example_quarter_run) None None None None
    (snd example_quarter_run)
  = (inr (returned example_default_run, impact_of example_default_run),
     snd example_default_run).
Proof. vm_compute. reflexivity. Qed.

Lemma fraction_override_persists_witness :
  treatment_fractions fnum (returned example_default_run)
  = {| tf_train := Fin (1 # 4); tf_test := Fin (1 # 2) |} /\
  treatment_fraction_train fnum (returned example_default_run) = Fin (1 # 2).
Proof.
  destruct (fraction_override_persists fnum example_simulate_recommendation
              example_session _ _ (Some example_cate) None
              (Some (Fin (1 # 4))) None None None example_session_world
              _ _ _ _ _ example_quarter_returns example_default_returns)
    as (H1 & H2 & _).
  split; [exact H1|exact H2].
Defined.

Lemma aggregate_impact_schema_witness :
  exists e,
    aggregate_impact example_treated_table example_untreated_table = inr e /\
    t_index e = [Key "train"; Key "test"] /\
    columns e = ["# samples";
                 "observed conversion rate without uplift model";
                 "predicted conversion rate using uplift model";
                 "predicted improvement rate"] /\
    well_formed e.
Proof.
  exact (aggregate_impact_schema _ _ _ _ _ _ _ _ _ _
           example_treated_columns example_untreated_columns eq_refl).
Defined.

(** Two recommended rows per arm with the predicted rates 4/5 and 3/10. *)
Lemma aggregate_impact_predicted_rate_witness :
  exists e predicted z,
    aggregate_impact example_treated_table example_untreated_table = inr e /\
    lookup_col rate_with (t_columns e) = Some predicted /\
    predicted !! 0 = Some (Fin z) /\
    Fin z = fdiv (fadd (fmul (Fin 2) (Fin (4 # 5)))
                    (fmul (Fin 2) (Fin (3 # 10))))
              (fadd (Fin 2) (Fin 2)) /\
    (Qmin (4 # 5) (3 # 10) * (1 - 4 * unit_roundoff) <= z)%Q /\
    (z <= Qmax (4 # 5) (3 # 10) * (1 + 5 * unit_roundoff))%Q.
Proof.
  apply (aggregate_impact_predicted_rate _ _ _ _ _ _ _ _ _ _ 0
           2 (4 # 5) 2 (3 # 10)
           example_treated_columns example_untreated_columns eq_refl);
    try reflexivity; discriminate.
Defined.

(** The predicted rate [(2 * 0.8 + 2 * 0.3) / 4] against the observed rate
    1/4: the improvement rate is at least 1. *)
Lemma improvement_rate_compares_the_rates_witness :
  exists e improvement p o r,
    aggregate_impact example_treated_table example_untreated_table = inr e /\
    lookup_col improvement_rate (t_columns e) = Some improvement /\
    improvement !! 0 = Some (Fin r) /\
    Fin r = fdiv (Fin p) (Fin o) /\
    Fin p = fdiv (fadd (fmul (Fin 2) (Fin (4 # 5)))
                    (fmul (Fin 2) (Fin (3 # 10))))
              (fadd (Fin 2) (Fin 2)) /\
    (o == 1 # 4)%Q /\
    ((1 <= r)%Q <-> (o <= p)%Q) /\ (1 <= r)%Q.
Proof.
  destruct (aggregate_impact example_treated_table example_untreated_table)
    as [x|e] eqn:E.
  { vm_compute in E. discriminate E. }
  pose proof E as E'. vm_compute in E'. injection E' as <-.
  epose proof (improvement_rate_compares_the_rates _ _ _ _ _ _ _ _ _ _ _
                 _ _ 0 _ _
                 example_treated_columns example_untreated_columns eq_refl E
                 eq_refl eq_refl eq_refl eq_refl eq_refl)
    as (improvement & r & H1 & H2 & H3 & H4).
  eexists. exists improvement. eexists _, _. exists r.
  split; [reflexivity|]. split; [exact H1|]. split; [exact H2|].
  split; [exact H3|]. split; [vm_compute; reflexivity|].
  split; [reflexivity|]. split; [exact H4|].
  apply H4. vm_compute. discriminate.
Defined.

(** An untreated-arm model that cannot predict. *)
Definition example_failing_predict_proba (a : arm) (args0 : Args)
  (d : DataFrame) (m : fnum) : exn + Series :=
  match a with
  | Treated => example_predict_proba a args0 d m
  | Untreated => inl (Collaborator "the model is not fitted")
  end.

Lemma estimate_cate_by_2_models_failure_leaves_table_witness :
  exists w',
    estimate_cate_by_2_models fnum example_failing_predict_proba
      example_session None example_session_world
    = (inl (Collaborator "the model is not fitted", example_session), w') /\
    heap w' = heap example_session_world.
Proof.
  destruct (estimate_cate_by_2_models fnum example_failing_predict_proba
              example_session None example_session_world)
    as [[[x s]|r] w'] eqn:E.
  - pose proof E as E'. vm_compute in E'. injection E' as <- <- _.
    exists w'. split; [reflexivity|].
    apply (estimate_cate_by_2_models_failure_leaves_table fnum
             example_failing_predict_proba example_session example_session
             None example_session_world w'
             (reset_index example_train) (reset_index example_test)
             (Collaborator "the model is not fitted"));
      [vm_compute; reflexivity | exact E].
  - vm_compute in E. discriminate E.
Defined.

(** Construction, CATE estimation, then the impact with the stored
    fractions. *)
Lemma recommendation_follows_cate_witness :
  exists self1 tables w1 r w2 d2 rtr rte,
    estimate_cate_by_2_models fnum example_predict_proba example_session None
      example_session_world = (inr (self1, tables), w1) /\
    estimate_recommendation_impact fnum example_simulate_recommendation
      self1 None None None None w1 = (r, w2) /\
    heap w2 !! 5%positive = Some (PyDataFrame d2) /\
    partition_column train d2 "Recommendation" = inr rtr /\
    partition_column test d2 "Recommendation" = inr rte /\
    length rtr = 4 /\ length rte = 2.
Proof.
  destruct (estimate_cate_by_2_models fnum example_predict_proba
              example_session None example_session_world)
    as [[x|[self1 tables]] w1] eqn:E.
  { vm_compute in E. discriminate E. }
  destruct (recommendation_follows_cate fnum example_predict_proba
              example_simulate_recommendation example_session self1
              None None None None example_session_world w1
              (reset_index example_train) (reset_index example_test) tables)
    as (r & w2 & cs & d2 & rtr & rte & H1 & _ & H2 & H3 & H4 & H5 & H6 & _);
    [vm_compute; reflexivity | reflexivity | reflexivity | exact E |].
  exists self1, tables, w1, r, w2, d2, rtr, rte.
  split; [reflexivity|]. split; [exact H1|]. split; [exact H2|].
  split; [exact H3|]. split; [exact H4|]. split; [exact H5|exact H6].
Defined.

(** A simulation that always fails, on a session table with a CATE column. *)
Definition example_failing_simulate_recommendation (_ : arm) (_ : Args)
  (_ : DataFrame) (_ : fnum) (_ : DataFrame) : exn + Table :=
  inl (Collaborator "no samples to simulate").

Definition example_scored_world : world :=
  {| heap := {[ 5%positive :=
                  PyDataFrame
                    (Partitioned example_scored_train example_scored_test) ]};
     calls := [] |}.

Definition example_recommended : DataFrame :=
  Partitioned
    (with_column example_scored_train "Recommendation" [one; one; zero; zero])
    (with_column example_scored_test "Recommendation" [one; zero]).

Lemma failed_simulation_keeps_recommendation_witness :
  exists w',
    estimate_recommendation_impact fnum
      example_failing_simulate_recommendation example_session
      None None None None example_scored_world
    = (inl (Collaborator "no samples to simulate",
            set_treatment_fractions fnum example_session
              (fractions_used fnum example_session None None)), w') /\
    heap w' = <[5%positive := PyDataFrame example_recommended]>
                (heap example_scored_world) /\
    calls w' = [call_simulate_recommendation Treated].
Proof.
  apply (failed_simulation_keeps_recommendation fnum
           example_failing_simulate_recommendation example_session
           None None None example_scored_world
           (Partitioned example_scored_train example_scored_test)
           example_recommended (Collaborator "no samples to simulate"));
    [vm_compute; reflexivity | vm_compute; reflexivity | reflexivity].
Defined.

(** The example construction: feature columns by default, no propensity
    estimation. *)
Lemma init_call_sequence_witness :
  calls example_session_world
  = [call_get_cols_features; call_concat_train_test_df; call_fit Treated;
     call_fit Untreated; call_treatment_fractions_].
Proof.
  destruct (init_call_sequence fnum example_fit example_treatment_fractions_
              example_estimate_propensity 1%positive 2%positive
              [kw_enable_ipw false] example_world example_session_world
              example_session example_init_returns)
    as (cs & Hc & [->|(l1 & l2 & -> & _)]).
  - exact Hc.
  - vm_compute in Hc. discriminate Hc.
Defined.

Lemma init_feature_columns_witness :
  cols_features (args fnum example_session)
  = Some (get_cols_features (Flat example_train)
            ["Treatment"; "Outcome"; "Propensity"; "CATE"; "Recommendation"])
  /\ cols_features (args fnum example_session) = Some ["x"].
Proof.
  split; [|reflexivity].
  assert (H1 : heap example_world !! 1%positive
               = Some (PyDataFrame (Flat example_train))) by reflexivity.
  destruct (init_feature_columns fnum example_fit example_treatment_fractions_
              example_estimate_propensity 1%positive 2%positive
              [kw_enable_ipw false] example_world example_session_world
              example_session (Flat example_train) H1 example_init_returns)
    as (_ & _ & H).
  apply H. left. reflexivity.
Defined.

Lemma init_returns_fitted_session_witness :
  cate_estimated fnum example_session = None /\
  exists d,
    heap example_session_world !! df fnum example_session
    = Some (PyDataFrame d) /\
    fitted_on fnum example_fit example_treatment_fractions_ example_session d.
Proof.
  exact (init_returns_fitted_session fnum example_fit
           example_treatment_fractions_ example_estimate_propensity
           1%positive 2%positive [kw_enable_ipw false] example_world
           example_session_world example_session example_init_returns).
Defined.

(** The caller's tables are indexed by the keys a..d and e, f. *)
Lemma init_reindexes_partitions_witness :
  exists tr te,
    heap example_session_world !! 5%positive
    = Some (PyDataFrame (Partitioned tr te)) /\
    t_index tr = RangeIndex 4 /\ t_index te = RangeIndex 2.
Proof.
  destruct (init_reindexes_partitions fnum example_fit
              example_treatment_fractions_ example_estimate_propensity
              1%positive 2%positive [kw_enable_ipw false] example_world
              example_session_world example_session
              (Flat example_train) (Flat example_test))
    as (tr & te & H1 & H2 & H3 & H4 & H5 & _);
    [reflexivity | reflexivity | exact example_propensity_not_needed
    | exact example_init_returns |].
  exists tr, te. split; [exact H1|].
  unfold range_indexed in H2, H3. rewrite H4 in H2. rewrite H5 in H3.
  split; [exact H2|exact H3].
Defined.
